(** * CAGED dashboard: the table transformer, the charts, the loader and
      the exploratory page

    A shallow embedding of [src/data/data_processor.py] (class
    [DataProcessor]), of the chart builders of
    [src/visualization/plots.py] (class [PlotGenerator]), of the query
    construction and the sample data of [src/data/data_loader.py] (class
    [DataLoader]) and of the session handling of
    [src/pages/exploratory.py], together with the part of pandas these
    functions call.

    Conventions of the embedding.
    - A pandas [Series] is a typed column.  [float64] cells are
      rationals, [NaN] is [None], and there is no infinity.  What the
      program computes on floats, the mean of the two middle values of a
      median and the sums and means of groups, is rounded to the nearest
      [float64] operation by operation, as IEEE 754 prescribes; the sum of
      a group of integers wraps around at 64 bits.  The statistics of
      [describe] alone are kept as exact rationals.  [int64] columns
      cannot hold a missing value, as in pandas.  [object] columns hold
      Python [str] values (or [None]).
    - A [DataFrame] is the ordered list of its named columns.
    - A Python exception is the [Raise] outcome of the [result] type.
    - What the program receives from outside, the answer of the data
      source to a query and the correlation matrix of a table, is a
      variable of the section that models the caller. *)

From Stdlib Require Import List String Ascii ZArith QArith Qround Qabs Bool Lia Arith.
From Stdlib Require Import Permutation Sorted Lqa DecimalString.
Import ListNotations.

Close Scope Q_scope.
Set Warnings "-register-all".
Open Scope string_scope.
Open Scope list_scope.

(* ================================================================== *)
(** ** Outcomes of Python calls *)

Inductive exn : Type := KeyError | TypeError | ValueError.

Inductive result (A : Type) : Type :=
| Ok (a : A)
| Raise (e : exn).

Arguments Ok {A} a.
Arguments Raise {A} e.

Definition bind {A B : Type} (r : result A) (k : A -> result B) : result B :=
  match r with
  | Ok a => k a
  | Raise e => Raise e
  end.

Notation "x <- r ;; k" := (bind r (fun x => k))
  (at level 61, r at next level, right associativity).

(** A [for] loop whose body may raise. *)
Fixpoint for_each {A S : Type} (body : S -> A -> result S) (xs : list A) (s : S)
  : result S :=
  match xs with
  | [] => Ok s
  | x :: xs' => s' <- body s x ;; for_each body xs' s'
  end.

(* ================================================================== *)
(** ** Generic list helpers *)

Section InsertionSort.
Context {A : Type} (leb : A -> A -> bool).

Fixpoint insert_sorted (x : A) (l : list A) : list A :=
  match l with
  | [] => [x]
  | y :: l' => if leb x y then x :: l else y :: insert_sorted x l'
  end.

Fixpoint sort_by (l : list A) : list A :=
  match l with
  | [] => []
  | x :: l' => insert_sorted x (sort_by l')
  end.
End InsertionSort.

(** Present (non-missing) cells of a column, in row order. *)
Fixpoint dropna {A : Type} (xs : list (option A)) : list A :=
  match xs with
  | [] => []
  | Some x :: xs' => x :: dropna xs'
  | None :: xs' => dropna xs'
  end.

Definition is_none {A : Type} (c : option A) : bool :=
  match c with None => true | Some _ => false end.

Definition count_null {A : Type} (xs : list (option A)) : nat :=
  List.length (filter is_none xs).

(** [Series.fillna(value)] on the cells; filling with a missing value
    ([NaN]) leaves the cells as they are. *)
Definition fill {A : Type} (v : option A) (xs : list (option A)) : list (option A) :=
  map (fun c => match c with None => v | Some _ => c end) xs.

Fixpoint index_of (s : string) (l : list string) : nat :=
  match l with
  | [] => 0
  | x :: l' => if String.eqb x s then 0 else S (index_of s l')
  end.

Fixpoint count_str (s : string) (l : list string) : nat :=
  match l with
  | [] => 0
  | x :: l' => (if String.eqb x s then 1 else 0) + count_str s l'
  end.

Fixpoint dedup (l : list string) : list string :=
  match l with
  | [] => []
  | x :: l' => x :: filter (fun y => negb (String.eqb x y)) (dedup l')
  end.

(* ================================================================== *)
(** ** The pandas data model *)

Module Pandas.

Record date : Type := mkdate { year : Z; month : Z; day : Z }.

(** A column with its dtype.  [Category] carries the ordered list of its
    categories; its cells are labels from that list. *)
Inductive Series : Type :=
| Int64 (xs : list Z)
| Float64 (xs : list (option Q))
| Object (xs : list (option string))
| Category (cats : list string) (xs : list (option string))
| Datetime64 (xs : list (option date)).

Inductive dtype : Type := int64 | float64 | object | category | datetime64.

Definition dtype_eqb (a b : dtype) : bool :=
  match a, b with
  | int64, int64 | float64, float64 | object, object
  | category, category | datetime64, datetime64 => true
  | _, _ => false
  end.

Definition dtype_of (s : Series) : dtype :=
  match s with
  | Int64 _ => int64
  | Float64 _ => float64
  | Object _ => object
  | Category _ _ => category
  | Datetime64 _ => datetime64
  end.

Definition len (s : Series) : nat :=
  match s with
  | Int64 xs => List.length xs
  | Float64 xs => List.length xs
  | Object xs => List.length xs
  | Category _ xs => List.length xs
  | Datetime64 xs => List.length xs
  end.

(** A frame: the columns in order, each with its name. *)
Definition DataFrame : Type := list (string * Series).

Definition columns (df : DataFrame) : list string := map fst df.

Definition has_column (col : string) (df : DataFrame) : bool :=
  existsb (String.eqb col) (columns df).

(** [df[col]]. *)
Fixpoint getitem (df : DataFrame) (col : string) : result Series :=
  match df with
  | [] => Raise KeyError
  | (n, s) :: df' => if String.eqb n col then Ok s else getitem df' col
  end.

(** [df[col] = s]: overwrite in place, or append a new last column. *)
Fixpoint setitem (df : DataFrame) (col : string) (s : Series) : DataFrame :=
  match df with
  | [] => [(col, s)]
  | (n, s0) :: df' =>
      if String.eqb n col then (n, s) :: df' else (n, s0) :: setitem df' col s
  end.

(** [df.select_dtypes(include=...).columns]. *)
Definition select_dtypes (include : list dtype) (df : DataFrame) : list string :=
  columns (filter (fun c => existsb (dtype_eqb (dtype_of (snd c))) include) df).

(** [s.isnull().sum()]. *)
Definition isnull_sum (s : Series) : nat :=
  match s with
  | Int64 _ => 0
  | Float64 xs => count_null xs
  | Object xs => count_null xs
  | Category _ xs => count_null xs
  | Datetime64 xs => count_null xs
  end.

(** *** float64 and int64 arithmetic *)

(** [2 ** e] as a rational. *)
Definition pow2 (e : Z) : Q :=
  if (0 <=? e)%Z then inject_Z (2 ^ e) else 1 # Z.to_pos (2 ^ (- e)).

(** The integer nearest to [a / b] for a positive [b]; of two integers
    that are equally near, the even one. *)
Definition nearest_even (a b : Z) : Z :=
  let q := (a / b)%Z in
  let r := (a mod b)%Z in
  match (2 * r ?= b)%Z with
  | Lt => q
  | Gt => (q + 1)%Z
  | Eq => if Z.even q then q else (q + 1)%Z
  end.

(** The exponent of the last bit of the 53-bit significand that holds the
    positive rational [n / d]: the [e] with [2 ** 52 <= (n / d) / 2 ** e <
    2 ** 53], and [-1074], the exponent of the subnormal numbers, when that
    is smaller. *)
Definition last_bit (n d : Z) : Z :=
  let l := (Z.log2 n - Z.log2 d)%Z in
  let below := if (0 <=? l)%Z then (n <? d * 2 ^ l)%Z else (n * 2 ^ (- l) <? d)%Z in
  Z.max (-1074) ((if below then l - 1 else l) - 52).

(** The float64 nearest to a rational, ties to even: the rounding that
    IEEE 754 prescribes for the result of every operation.  The result is
    in lowest terms.  A value beyond the largest float64 has no infinity
    to round to here: such values are outside the model. *)
Definition round64 (q : Q) : Q :=
  let q := Qred q in
  let n := Qnum q in
  let d := Zpos (Qden q) in
  if (n =? 0)%Z then 0%Q
  else
    let e := last_bit (Z.abs n) d in
    let m := if (0 <=? e)%Z then nearest_even n (d * 2 ^ e)
             else nearest_even (n * 2 ^ (- e)) d in
    Qred (inject_Z m * pow2 e).

(** [a + b], [a - b] and [a / b] on floats. *)
Definition fadd (a b : Q) : Q := round64 (a + b).
Definition fsub (a b : Q) : Q := round64 (a - b).
Definition fdiv (a b : Q) : Q := round64 (a / b).

(** An [int64] read as a [float64]. *)
Definition to_float (z : Z) : Q := round64 (inject_Z z).

(** The [int64] that the low 64 bits of an integer stand for. *)
Definition wrap64 (z : Z) : Z := ((z + 2 ^ 63) mod 2 ^ 64 - 2 ^ 63)%Z.

(** The sum that the group operations of pandas keep for a column of
    floats: the values are added row after row, with a compensation term
    for the rounding error of each addition (Kahan's summation). *)
Fixpoint kahan_sum (vals : list Q) (sumx compensation : Q) : Q :=
  match vals with
  | [] => sumx
  | val :: vals' =>
      let y := fsub val compensation in
      let t := fadd sumx y in
      kahan_sum vals' t (fsub (fsub t sumx) y)
  end.

(** *** Median *)

Definition inject_all (xs : list Z) : list Q := map inject_Z xs.

(** Median of the present values: the middle of the sorted values, the
    mean of the two middle ones when their number is even, [NaN] when
    there is none.  The mean of the two is computed on floats: their sum,
    rounded, is divided by two. *)
Definition median_of (vals : list Q) : option Q :=
  let s := sort_by Qle_bool vals in
  let n := List.length s in
  match n with
  | O => None
  | _ =>
      if Nat.even n
      then Some (fdiv (fadd (nth (n / 2 - 1) s 0%Q) (nth (n / 2) s 0%Q)) 2)
      else Some (nth (n / 2) s 0%Q)
  end.

(** [s.median()] with the default [skipna=True]. *)
Definition median (s : Series) : result (option Q) :=
  match s with
  | Int64 xs => Ok (median_of (map to_float xs))
  | Float64 xs => Ok (median_of (dropna xs))
  | _ => Raise TypeError
  end.

(** *** Mode *)

(** The values of highest frequency among the present ones, in order of
    first occurrence. *)
Definition most_frequent (vals : list string) : list string :=
  let ds := dedup vals in
  let top := list_max (map (fun v => count_str v vals) ds) in
  filter (fun v => Nat.eqb (count_str v vals) top) ds.

(** [s.mode()] with the default [dropna=True]: every value of highest
    frequency, sorted.  For a categorical the sort is on the category
    codes, for an [object] column of strings it is the order of [str]. *)
Definition mode (s : Series) : list string :=
  match s with
  | Object xs => sort_by String.leb (most_frequent (dropna xs))
  | Category cats xs =>
      sort_by (fun a b => Nat.leb (index_of a cats) (index_of b cats))
              (most_frequent (dropna xs))
  | _ => []
  end.

(** [s.mode()[0]]: label [0] of the result, a [KeyError] when the result
    is empty. *)
Definition mode_0 (s : Series) : result string :=
  match mode s with
  | [] => Raise KeyError
  | m :: _ => Ok m
  end.

(** *** fillna *)

Definition fillna_num (s : Series) (v : option Q) : Series :=
  match s with
  | Float64 xs => Float64 (fill v xs)
  | _ => s
  end.

Definition fillna_str (s : Series) (v : string) : Series :=
  match s with
  | Object xs => Object (fill (Some v) xs)
  | Category cats xs => Category cats (fill (Some v) xs)
  | _ => s
  end.

(** *** Series.map with a dict *)

Fixpoint lookup_str (k : string) (d : list (string * string)) : option string :=
  match d with
  | [] => None
  | (k', v) :: d' => if String.eqb k' k then Some v else lookup_str k d'
  end.

Fixpoint lookup_int (k : Q) (d : list (Z * string)) : option string :=
  match d with
  | [] => None
  | (k', v) :: d' => if Qeq_bool (inject_Z k') k then Some v else lookup_int k d'
  end.

Definition opt_bind {A B : Type} (f : A -> option B) (c : option A) : option B :=
  match c with Some x => f x | None => None end.

Definition all_some (l : list (option string)) : bool :=
  forallb (fun c => negb (is_none c)) l.

Definition unique (l : list string) : bool :=
  Nat.eqb (List.length (dedup l)) (List.length l).

(** [Categorical.map]: the categories are mapped; the result stays a
    categorical when the new categories are distinct and none is missing,
    and is an [object] column otherwise. *)
Definition map_categorical (f : string -> option string)
           (cats : list string) (xs : list (option string)) : Series :=
  let new_cats := map f cats in
  if all_some new_cats && unique (dropna new_cats)
  then Category (dropna new_cats) (map (opt_bind f) xs)
  else Object (map (opt_bind f) xs).

(** [s.map(d)] for a dict [d] with [str] keys: a key that is absent gives
    a missing value; a number never equals a [str] key. *)
Definition map_str (d : list (string * string)) (s : Series) : Series :=
  match s with
  | Int64 xs => Object (map (fun _ => None) xs)
  | Float64 xs => Object (map (fun _ => None) xs)
  | Object xs => Object (map (opt_bind (fun k => lookup_str k d)) xs)
  | Category cats xs => map_categorical (fun k => lookup_str k d) cats xs
  | Datetime64 xs => Object (map (fun _ => None) xs)
  end.

(** [s.map(d)] for a dict [d] with [int] keys: [1.0] finds the key [1],
    a [str] finds none. *)
Definition map_int (d : list (Z * string)) (s : Series) : Series :=
  match s with
  | Int64 xs => Object (map (fun z => lookup_int (inject_Z z) d) xs)
  | Float64 xs => Object (map (opt_bind (fun q => lookup_int q d)) xs)
  | Object xs => Object (map (fun _ => None) xs)
  | Category cats xs => map_categorical (fun _ => None) cats xs
  | Datetime64 xs => Object (map (fun _ => None) xs)
  end.

(** *** pd.to_datetime of the strings [str(ano) + '-' + str(mes) + '-01'] *)

Definition digit_of (c : ascii) : option Z :=
  let n := nat_of_ascii c in
  if (48 <=? n)%nat && (n <=? 57)%nat then Some (Z.of_nat (n - 48)) else None.

Fixpoint parse_digits (s : string) (acc : Z) : option Z :=
  match s with
  | EmptyString => Some acc
  | String c s' =>
      match digit_of c with
      | Some d => parse_digits s' (10 * acc + d)%Z
      | None => None
      end
  end.

Definition parse_numeral (s : string) : option Z :=
  match s with
  | EmptyString => None
  | _ => parse_digits s 0%Z
  end.

(** The number that [s.astype(str)] spells in each row, when the string
    is a plain decimal numeral.  The string of a float has a point (or is
    [nan]), that of a missing [object] cell is [None], that of a
    timestamp has dashes: none of them is a numeral. *)
Definition str_numeral (s : Series) : list (option Z) :=
  match s with
  | Int64 xs => map (fun z => if (0 <=? z)%Z then Some z else None) xs
  | Float64 xs => map (fun _ => None) xs
  | Object xs => map (opt_bind parse_numeral) xs
  | Category _ xs => map (opt_bind parse_numeral) xs
  | Datetime64 xs => map (fun _ => None) xs
  end.

(** First days of a month that a [Timestamp] can hold
    (1677-09-21 to 2262-04-11). *)
Definition timestamp_ok (y m : Z) : bool :=
  ((1 <=? m) && (m <=? 12) &&
   ((1677 <? y) && (y <? 2262) || (y =? 1677) && (10 <=? m) || (y =? 2262) && (m <=? 4)))%Z.

Fixpoint parse_rows (yms : list (option Z * option Z)) : result (list (option date)) :=
  match yms with
  | [] => Ok []
  | (Some y, Some m) :: rest =>
      if timestamp_ok y m
      then (ds <- parse_rows rest ;; Ok (Some (mkdate y m 1) :: ds))
      else Raise ValueError
  | _ :: _ => Raise ValueError
  end.

(** [pd.to_datetime(ano.astype(str) + '-' + mes.astype(str) + '-01')]
    with the default [errors='raise']: year and month have to be decimal
    numerals of a representable month. *)
Definition to_datetime_ym (ano mes : Series) : result Series :=
  ds <- parse_rows (combine (str_numeral ano) (str_numeral mes)) ;;
  Ok (Datetime64 ds).

(** *** pd.cut with explicit bin edges and [right=False] *)

Inductive edge : Type := Fin (q : Q) | PosInf.

Definition edge_leb (e : edge) (x : Q) : bool :=
  match e with
  | Fin q => Qle_bool q x
  | PosInf => false
  end.

(** [bins.searchsorted(x, side='right')] on increasing edges: the number
    of edges that are [<= x]. *)
Fixpoint searchsorted_right (bins : list edge) (x : Q) : nat :=
  match bins with
  | [] => 0
  | b :: bins' => if edge_leb b x then S (searchsorted_right bins' x) else 0
  end.

(** One value: position [0] (below the first edge) and position
    [len(bins)] (at or above the last edge) give a missing value, any
    other position [i] gives label [i - 1]. *)
Definition cut_value (bins : list edge) (labels : list string) (x : Q) : option string :=
  let ids := searchsorted_right bins x in
  if Nat.eqb ids 0 || Nat.eqb ids (List.length bins)
  then None
  else nth_error labels (ids - 1).

(** [pd.cut(s, bins=bins, labels=labels, right=False)].  Binning a
    column that is not numeric compares its cells with the edges and
    raises, unless there is no cell to compare. *)
Definition cut (s : Series) (bins : list edge) (labels : list string) : result Series :=
  match s with
  | Int64 xs => Ok (Category labels (map (fun z => cut_value bins labels (inject_Z z)) xs))
  | Float64 xs => Ok (Category labels (map (opt_bind (cut_value bins labels)) xs))
  | Object [] => Ok (Category labels [])
  | _ => Raise TypeError
  end.

(** *** Rows and cells *)

(** The value of one present cell; a categorical label carries its
    category code. *)
Inductive scalar : Type :=
| Num (q : Q)
| Str (s : string)
| Lab (code : nat) (s : string)
| Dt (d : date).

(** The cells of a column, row by row, [None] for a missing one. *)
Definition cells (s : Series) : list (option scalar) :=
  match s with
  | Int64 xs => map (fun z => Some (Num (inject_Z z))) xs
  | Float64 xs => map (option_map Num) xs
  | Object xs => map (option_map Str) xs
  | Category cats xs => map (option_map (fun l => Lab (index_of l cats) l)) xs
  | Datetime64 xs => map (option_map Dt) xs
  end.

(** [s.iloc[i]]. *)
Definition iloc (s : Series) (i : nat) : option scalar :=
  nth i (cells s) None.

(** [s.iloc[idx]] for a list of positions. *)
Definition take (s : Series) (idx : list nat) : Series :=
  match s with
  | Int64 xs => Int64 (map (fun i => nth i xs 0%Z) idx)
  | Float64 xs => Float64 (map (fun i => nth i xs None) idx)
  | Object xs => Object (map (fun i => nth i xs None) idx)
  | Category cats xs => Category cats (map (fun i => nth i xs None) idx)
  | Datetime64 xs => Datetime64 (map (fun i => nth i xs None) idx)
  end.

Fixpoint mask_select {A : Type} (mask : list bool) (xs : list A) : list A :=
  match mask, xs with
  | b :: mask', x :: xs' => if b then x :: mask_select mask' xs' else mask_select mask' xs'
  | _, _ => []
  end.

(** [s[mask]] for a boolean mask. *)
Definition select (s : Series) (mask : list bool) : Series :=
  match s with
  | Int64 xs => Int64 (mask_select mask xs)
  | Float64 xs => Float64 (mask_select mask xs)
  | Object xs => Object (mask_select mask xs)
  | Category cats xs => Category cats (mask_select mask xs)
  | Datetime64 xs => Datetime64 (mask_select mask xs)
  end.

(** [df[mask]]. *)
Definition loc (df : DataFrame) (mask : list bool) : DataFrame :=
  map (fun c => (fst c, select (snd c) mask)) df.

(** [len(df)]. *)
Definition nrows (df : DataFrame) : nat :=
  match df with
  | [] => 0
  | (_, s) :: _ => len s
  end.

Definition date_compare (a b : date) : comparison :=
  match (year a ?= year b)%Z with
  | Eq => match (month a ?= month b)%Z with
          | Eq => (day a ?= day b)%Z
          | c => c
          end
  | c => c
  end.

Definition kind_rank (a : scalar) : nat :=
  match a with Num _ => 0 | Str _ => 1 | Lab _ _ => 2 | Dt _ => 3 end.

(** The order in which group keys are sorted; the cells of one column
    are of one kind. *)
Definition scalar_compare (a b : scalar) : comparison :=
  match a, b with
  | Num p, Num q => (p ?= q)%Q
  | Str s, Str t => String.compare s t
  | Lab i _, Lab j _ => Nat.compare i j
  | Dt d, Dt e => date_compare d e
  | _, _ => Nat.compare (kind_rank a) (kind_rank b)
  end.

Fixpoint key_compare (k1 k2 : list scalar) : comparison :=
  match k1, k2 with
  | [], [] => Eq
  | [], _ :: _ => Lt
  | _ :: _, [] => Gt
  | a :: k1', b :: k2' =>
      match scalar_compare a b with
      | Eq => key_compare k1' k2'
      | c => c
      end
  end.

(** *** groupby *)

Fixpoint sequence {A : Type} (l : list (option A)) : option (list A) :=
  match l with
  | [] => Some []
  | Some x :: l' => option_map (cons x) (sequence l')
  | None :: _ => None
  end.

(** The key of row [i]; a row with a missing key cell has no key and is
    left out of every group ([dropna=True]). *)
Definition row_key (keys : list Series) (i : nat) : option (list scalar) :=
  sequence (map (fun s => iloc s i) keys).

Definition group : Type := (list scalar * list nat)%type.

Fixpoint insert_row (k : list scalar) (i : nat) (gs : list group) : list group :=
  match gs with
  | [] => [(k, [i])]
  | (k', rows) :: gs' =>
      match key_compare k k' with
      | Lt => (k, [i]) :: gs
      | Eq => (k', rows ++ [i]) :: gs'
      | Gt => (k', rows) :: insert_row k i gs'
      end
  end.

Definition add_row (keys : list Series) (gs : list group) (i : nat) : list group :=
  match row_key keys i with
  | Some k => insert_row k i gs
  | None => gs
  end.

(** [df.groupby(by)] with the defaults [sort=True], [dropna=True]: the
    groups in increasing key order, each with its row positions in row
    order.  Only keys that occur form a group; for a categorical key this
    is the behaviour of [observed=True]. *)
Definition groupby (df : DataFrame) (by_ : list string) : result (list group) :=
  keys <- for_each (fun acc col => s <- getitem df col ;; Ok (acc ++ [s])) by_ [] ;;
  Ok (fold_left (add_row keys) (seq 0 (nrows df)) []).

(** The key columns of the result, one row per group. *)
Definition key_column (s : Series) (gs : list group) : Series :=
  take s (map (fun g => hd 0 (snd g)) gs).

(** *** Aggregations *)

Inductive aggfunc : Type := Mean | Median | Min | Max | Count.

Definition aggfunc_name (f : aggfunc) : string :=
  match f with
  | Mean => "mean" | Median => "median" | Min => "min" | Max => "max"
  | Count => "count"
  end.

Definition Qsum (l : list Q) : Q := fold_right Qplus 0%Q l.

(** The mean of a group: its compensated sum divided by the number of its
    values, [NaN] for a group without a value. *)
Definition group_mean_of (vals : list Q) : option Q :=
  match vals with
  | [] => None
  | _ => Some (fdiv (kahan_sum vals 0 0) (inject_Z (Z.of_nat (List.length vals))))
  end.

(** The mean as an exact rational, for [describe]. *)
Definition mean_of (vals : list Q) : option Q :=
  match vals with
  | [] => None
  | _ => Some (Qred (Qsum vals / inject_Z (Z.of_nat (List.length vals))))
  end.

Definition Qmin (a b : Q) : Q := if Qle_bool a b then a else b.
Definition Qmax (a b : Q) : Q := if Qle_bool a b then b else a.

Definition min_of (vals : list Q) : option Q :=
  match vals with
  | [] => None
  | v :: vals' => Some (fold_left Qmin vals' v)
  end.

Definition max_of (vals : list Q) : option Q :=
  match vals with
  | [] => None
  | v :: vals' => Some (fold_left Qmax vals' v)
  end.

Definition Zmin_of (vals : list Z) : Z :=
  match vals with
  | [] => 0%Z
  | v :: vals' => fold_left Z.min vals' v
  end.

Definition Zmax_of (vals : list Z) : Z :=
  match vals with
  | [] => 0%Z
  | v :: vals' => fold_left Z.max vals' v
  end.

Definition count_col (A : Type) (xs : list (option A)) (gs : list group) : Series :=
  Int64 (map (fun g => Z.of_nat (List.length (dropna (map (fun i => nth i xs None) (snd g))))) gs).

(** One aggregation of one column over every group, missing values
    skipped.  [mean] and [median] give floats and read an integer column
    as floats, [min] and [max] keep the dtype, [count] gives integers.
    The mean of strings or of a categorical raises; the other aggregations
    of such columns, and those of timestamps, are not modelled and raise
    as well. *)
Definition aggregate (f : aggfunc) (s : Series) (gs : list group) : result Series :=
  match s with
  | Int64 xs =>
      let vals g := map (fun i => nth i xs 0%Z) (snd g) in
      Ok match f with
         | Mean => Float64 (map (fun g => group_mean_of (map to_float (vals g))) gs)
         | Median => Float64 (map (fun g => median_of (map to_float (vals g))) gs)
         | Min => Int64 (map (fun g => Zmin_of (vals g)) gs)
         | Max => Int64 (map (fun g => Zmax_of (vals g)) gs)
         | Count => Int64 (map (fun g => Z.of_nat (List.length (vals g))) gs)
         end
  | Float64 xs =>
      let vals g := dropna (map (fun i => nth i xs None) (snd g)) in
      Ok match f with
         | Mean => Float64 (map (fun g => group_mean_of (vals g)) gs)
         | Median => Float64 (map (fun g => median_of (vals g)) gs)
         | Min => Float64 (map (fun g => min_of (vals g)) gs)
         | Max => Float64 (map (fun g => max_of (vals g)) gs)
         | Count => count_col Q xs gs
         end
  | _ => Raise TypeError
  end.

(** [df.groupby(by).agg({col: [f, ...], ...})]: the value columns, each
    under its pair of labels, in the order of the dict. *)
Definition agg (df : DataFrame) (gs : list group)
           (agg_dict : list (string * list aggfunc))
  : result (list ((string * string) * Series)) :=
  for_each
    (fun acc (entry : string * list aggfunc) =>
       s <- getitem df (fst entry) ;;
       for_each
         (fun acc f =>
            v <- aggregate f s gs ;;
            Ok (acc ++ [((fst entry, aggfunc_name f), v)]))
         (snd entry) acc)
    agg_dict [].

(** [df.insert(0, name, s)]. *)
Definition insert0 (df : DataFrame) (c : string * Series) : result DataFrame :=
  if has_column (fst c) df then Raise ValueError else Ok (c :: df).

(** [result.reset_index()]: the index levels become the first columns;
    they are inserted from the last to the first, and a name that is
    already a column raises. *)
Definition reset_index (index : list (string * Series)) (df : DataFrame)
  : result DataFrame :=
  for_each insert0 (rev index) df.

(** *** Python strings *)

Definition is_space (c : ascii) : bool :=
  let n := nat_of_ascii c in
  ((9 <=? n) && (n <=? 13) || (28 <=? n) && (n <=? 32))%nat.

Fixpoint lstrip (s : string) : string :=
  match s with
  | String c s' => if is_space c then lstrip s' else s
  | EmptyString => EmptyString
  end.

Fixpoint rstrip (s : string) : string :=
  match s with
  | EmptyString => EmptyString
  | String c s' =>
      match rstrip s' with
      | EmptyString => if is_space c then EmptyString else String c EmptyString
      | r => String c r
      end
  end.

(** [s.strip()], for the white space of the ASCII range. *)
Definition strip (s : string) : string := rstrip (lstrip s).

(** ['_'.join(col)] for a pair of labels. *)
Definition join_ (col : string * string) : string :=
  fst col ++ "_" ++ snd col.

(** *** Python values and comparisons *)

(** The values a filter can carry. *)
Inductive pyval : Type :=
| PyNum (q : Q)
| PyStr (s : string)
| PyList (l : list pyval)
| PyTuple (l : list pyval).

Fixpoint split_on (sep : ascii) (s : string) : list string :=
  match s with
  | EmptyString => [EmptyString]
  | String c s' =>
      if Ascii.eqb c sep then EmptyString :: split_on sep s'
      else match split_on sep s' with
           | [] => [String c EmptyString]
           | w :: ws => String c w :: ws
           end
  end.

(** A [str] compared with timestamps is parsed first; only the ISO form
    [year-month-day] is modelled. *)
Definition parse_date (s : string) : option date :=
  match map parse_numeral (split_on "-" s) with
  | [Some y; Some m; Some d] => Some (mkdate y m d)
  | _ => None
  end.

Definition date_eqb (a b : date) : bool :=
  match date_compare a b with Eq => true | _ => false end.

(** [cell == v] for one present cell and a Python scalar; a cell never
    equals a list or a tuple. *)
Definition cell_eq (c : scalar) (v : pyval) : bool :=
  match c, v with
  | Num q, PyNum p => Qeq_bool q p
  | Str s, PyStr t => String.eqb s t
  | Lab _ s, PyStr t => String.eqb s t
  | Dt d, PyStr t =>
      match parse_date t with
      | Some e => date_eqb d e
      | None => false
      end
  | _, _ => false
  end.

Definition cell_test (p : scalar -> bool) (c : option scalar) : bool :=
  match c with Some x => p x | None => false end.

(** [s >= v] and [s <= v] for a number [v].  A missing cell compares
    false.  Ordering a [str] cell against a number raises, and so does
    ordering a categorical or a timestamp column against a number. *)
Definition compare_num (op : Q -> Q -> bool) (s : Series) (v : Q) : result (list bool) :=
  match s with
  | Int64 xs => Ok (map (fun z => op (inject_Z z) v) xs)
  | Float64 xs => Ok (map (fun c => match c with Some q => op q v | None => false end) xs)
  | Object xs =>
      match dropna xs with
      | [] => Ok (map (fun _ => false) xs)
      | _ :: _ => Raise TypeError
      end
  | Category _ _ => Raise TypeError
  | Datetime64 _ => Raise TypeError
  end.

Definition ge (s : Series) (v : Q) : result (list bool) :=
  compare_num (fun x y => Qle_bool y x) s v.

Definition le (s : Series) (v : Q) : result (list bool) :=
  compare_num Qle_bool s v.

(** [m1 & m2]. *)
Fixpoint mask_and (m1 m2 : list bool) : list bool :=
  match m1, m2 with
  | a :: m1', b :: m2' => (a && b) :: mask_and m1' m2'
  | _, _ => []
  end.

Definition is_list (v : pyval) : bool :=
  match v with PyList _ => true | _ => false end.

Definition is_str (v : pyval) : bool :=
  match v with PyStr _ => true | _ => false end.

Definition is_num (v : pyval) : bool :=
  match v with PyNum _ => true | _ => false end.

(** Each value is a string that is a date. *)
Definition all_dates (values : list pyval) : bool :=
  forallb (fun v => match v with
                    | PyStr t => negb (is_none (parse_date t))
                    | _ => false
                    end) values.

(** [s.isin(values)]: a cell is in the list when it equals one of the
    values; a value that is a list or a tuple equals no cell.  For a
    column of timestamps the values are converted together: when each of
    them is a string that is a date, a cell is compared with these dates,
    and otherwise no cell is in the list.  For a categorical the values
    are looked up among the categories, and a list, which cannot be
    hashed, raises. *)
Definition isin (s : Series) (values : list pyval) : result (list bool) :=
  let member := map (cell_test (fun c => existsb (cell_eq c) values)) (cells s) in
  match s with
  | Category _ _ => if existsb is_list values then Raise TypeError else Ok member
  | Datetime64 xs => if all_dates values then Ok member else Ok (map (fun _ => false) xs)
  | _ => Ok member
  end.

(** The cells compared with the values at the same positions. *)
Definition eq_positions (cs : list (option scalar)) (l : list pyval) : list bool :=
  map (fun cv => cell_test (fun c => cell_eq c (snd cv)) (fst cv)) (combine cs l).

(** [s == v].  A scalar is compared with every cell.  A tuple is compared
    as one object with every cell of an [object] column or of a
    categorical, and equals none.  Against a numeric column a tuple is
    turned into an array and compared position by position: a tuple of one
    value is compared with every cell, a tuple of as many values as the
    column has rows is compared row by row, none of its values being equal
    to a number unless all of them are numbers, and any other tuple raises
    (NumPy from 1.25 on).  Against a column of timestamps a tuple of as
    many values as the column has rows is compared row by row when its
    values are dates, and equals none otherwise; a tuple of another length
    raises.  A list is compared like an array of its length; [filter_data]
    never passes one. *)
Definition eq (s : Series) (v : pyval) : result (list bool) :=
  match v with
  | PyNum _ | PyStr _ => Ok (map (cell_test (fun c => cell_eq c v)) (cells s))
  | PyTuple l =>
      match s with
      | Object xs => Ok (map (fun _ => false) xs)
      | Category _ xs => Ok (map (fun _ => false) xs)
      | Int64 _ | Float64 _ =>
          match l with
          | [x] => Ok (map (cell_test (fun c => cell_eq c x)) (cells s))
          | _ =>
              if Nat.eqb (List.length l) (len s)
              then Ok (if forallb is_num l then eq_positions (cells s) l
                       else map (fun _ => false) (cells s))
              else Raise ValueError
          end
      | Datetime64 xs =>
          if Nat.eqb (List.length l) (len s)
          then Ok (if all_dates l then eq_positions (cells s) l
                   else map (fun _ => false) xs)
          else Raise ValueError
      end
  | PyList _ => Raise ValueError
  end.

(** *** describe and value_counts *)

(** One column of [DataFrame.describe()].  The standard deviation is
    kept as its square, the sample variance, which is rational. *)
Record description : Type := mkdescription {
  d_count : Z;
  d_mean : option Q;
  d_var : option Q;
  d_min : option Q;
  d_q25 : option Q;
  d_q50 : option Q;
  d_q75 : option Q;
  d_max : option Q
}.

(** [quantile(p)] with linear interpolation. *)
Definition quantile (p : Q) (vals : list Q) : option Q :=
  let s := sort_by Qle_bool vals in
  match s with
  | [] => None
  | _ =>
      let pos := (inject_Z (Z.of_nat (List.length s - 1)) * p)%Q in
      let lo := Z.to_nat (Qfloor pos) in
      let frac := (pos - inject_Z (Qfloor pos))%Q in
      let a := nth lo s 0%Q in
      let b := nth (S lo) s a in
      Some (Qred (a + (b - a) * frac)%Q)
  end.

(** The sample variance ([ddof=1]). *)
Definition variance (vals : list Q) : option Q :=
  match mean_of vals with
  | None => None
  | Some m =>
      match (List.length vals - 1)%nat with
      | O => None
      | n1 =>
          Some (Qred (Qsum (map (fun x => (x - m) * (x - m))%Q vals)
                      / inject_Z (Z.of_nat n1)))
      end
  end.

Definition describe_values (vals : list Q) : description :=
  {| d_count := Z.of_nat (List.length vals);
     d_mean := mean_of vals;
     d_var := variance vals;
     d_min := min_of vals;
     d_q25 := quantile (1 # 4) vals;
     d_q50 := quantile (1 # 2) vals;
     d_q75 := quantile (3 # 4) vals;
     d_max := max_of vals |}.

Definition numeric_values (s : Series) : option (list Q) :=
  match s with
  | Int64 xs => Some (inject_all xs)
  | Float64 xs => Some (dropna xs)
  | _ => None
  end.

(** [df.describe()] for a frame of numeric columns, as [DataProcessor]
    calls it.  A frame without a column raises. *)
Definition describe (df : DataFrame) : result (list (string * description)) :=
  match df with
  | [] => Raise ValueError
  | _ =>
      Ok (flat_map
            (fun c => match numeric_values (snd c) with
                      | Some vals => [(fst c, describe_values vals)]
                      | None => []
                      end) df)
  end.

(** [s.value_counts()]: the values with their number of occurrences, the
    most frequent first; a categorical lists each of its categories. *)
Definition value_counts (s : Series) : list (string * nat) :=
  let counted vals keys := map (fun v => (v, count_str v vals)) keys in
  let by_count := sort_by (fun a b : string * nat => Nat.leb (snd b) (snd a)) in
  match s with
  | Object xs => by_count (counted (dropna xs) (dedup (dropna xs)))
  | Category cats xs => by_count (counted (dropna xs) cats)
  | _ => []
  end.

(** [df[cols]] for a list of names. *)
Definition getitems (df : DataFrame) (cols : list string) : result DataFrame :=
  for_each (fun acc col => s <- getitem df col ;; Ok (acc ++ [(col, s)])) cols [].

(** *** sort_values *)

(** Missing cells sort last. *)
Definition cell_leb (a b : option scalar) : bool :=
  match a, b with
  | Some x, Some y => match scalar_compare x y with Gt => false | _ => true end
  | Some _, None => true
  | None, Some _ => false
  | None, None => true
  end.

(** [df.sort_values(by=col)], as a stable sort. *)
Definition sort_values (df : DataFrame) (by_ : string) : result DataFrame :=
  s <- getitem df by_ ;;
  let order :=
    sort_by (fun i j => cell_leb (iloc s i) (iloc s j)) (seq 0 (len s)) in
  Ok (map (fun c => (fst c, take (snd c) order)) df).

(** A Python dict built from a literal: a repeated key keeps its place
    and takes the last value. *)
Fixpoint dict_set (d : list (string * string)) (k v : string) : list (string * string) :=
  match d with
  | [] => [(k, v)]
  | (k', v') :: d' =>
      if String.eqb k' k then (k', v) :: d' else (k', v') :: dict_set d' k v
  end.

Definition dict_literal (items : list (string * string)) : list (string * string) :=
  fold_left (fun d kv => dict_set d (fst kv) (snd kv)) items [].

(** *** Counting values and summing groups *)

Section Tally.
Context {A : Type} (eqb : A -> A -> bool).

Fixpoint count_of (v : A) (l : list A) : nat :=
  match l with
  | [] => 0
  | x :: l' => (if eqb x v then 1 else 0) + count_of v l'
  end.

(** The distinct values, in order of first occurrence. *)
Fixpoint distinct (l : list A) : list A :=
  match l with
  | [] => []
  | x :: l' => x :: filter (fun y => negb (eqb x y)) (distinct l')
  end.

(** Each distinct value with its number of occurrences, the most frequent
    first. *)
Definition tally (vals : list A) : list (A * nat) :=
  sort_by (fun a b : A * nat => Nat.leb (snd b) (snd a))
          (map (fun v => (v, count_of v vals)) (distinct vals)).
End Tally.

Definition counts_of {A : Type} (t : list (A * nat)) : Series :=
  Int64 (map (fun p => Z.of_nat (snd p)) t).

(** The two columns of [s.value_counts()], its index and its values: the
    values that occur (for a categorical, all its categories), the most
    frequent first, and their numbers of occurrences, which pandas 2 names
    [count].  Missing cells are not counted. *)
Definition value_counts_reset (s : Series) : Series * Series :=
  match s with
  | Int64 xs =>
      let t := tally Z.eqb xs in (Int64 (map fst t), counts_of t)
  | Float64 xs =>
      let t := tally Qeq_bool (dropna xs) in
      (Float64 (map (fun p => Some (fst p)) t), counts_of t)
  | Object _ =>
      let t := value_counts s in
      (Object (map (fun p => Some (fst p)) t), counts_of t)
  | Category cats _ =>
      let t := value_counts s in
      (Category cats (map (fun p => Some (fst p)) t), counts_of t)
  | Datetime64 xs =>
      let t := tally date_eqb (dropna xs) in
      (Datetime64 (map (fun p => Some (fst p)) t), counts_of t)
  end.

(** [df.groupby(by)[col].sum()]: the sum of the present values of each
    group, [0] for a group without any.  The sum of integers is kept in 64
    bits and wraps around; the sum of floats is the compensated sum.  The
    sum of strings (their concatenation) is not modelled and raises, like
    the sum of a categorical or of timestamps. *)
Definition group_sum (s : Series) (gs : list group) : result Series :=
  match s with
  | Int64 xs =>
      Ok (Int64 (map (fun g => wrap64 (fold_right Z.add 0%Z
                                         (map (fun i => nth i xs 0%Z) (snd g))))
                     gs))
  | Float64 xs =>
      Ok (Float64 (map (fun g => Some (kahan_sum (dropna (map (fun i => nth i xs None)
                                                              (snd g))) 0 0))
                       gs))
  | _ => Raise TypeError
  end.

(** [df.empty]: no column or no row. *)
Definition empty (df : DataFrame) : bool :=
  match df with
  | [] => true
  | _ => Nat.eqb (nrows df) 0
  end.

End Pandas.

(* ================================================================== *)
(** ** [DataProcessor]: the table transformer *)

Module DataProcessor.
Import Pandas.

(** The body of the first loop of [_handle_missing_values]. *)
Definition fill_median (clean_df : DataFrame) (col : string) : result DataFrame :=
  s <- getitem clean_df col ;;
  if (0 <? isnull_sum s)%nat
  then (m <- median s ;; Ok (setitem clean_df col (fillna_num s m)))
  else Ok clean_df.

(** The body of the second loop. *)
Definition fill_mode (clean_df : DataFrame) (col : string) : result DataFrame :=
  s <- getitem clean_df col ;;
  if (0 <? isnull_sum s)%nat
  then (m <- mode_0 s ;; Ok (setitem clean_df col (fillna_str s m)))
  else Ok clean_df.

Definition _handle_missing_values (df : DataFrame) : result DataFrame :=
  let clean_df := df in
  let numeric_cols := select_dtypes [int64; float64] clean_df in
  clean_df <- for_each fill_median numeric_cols clean_df ;;
  let categorical_cols := select_dtypes [object; category] clean_df in
  for_each fill_mode categorical_cols clean_df.

(** *** Decoding *)

Definition sexo_mapping : list (string * string) :=
  [("1", "Masculino"); ("2", "Feminino")].

Definition grau_instrucao_mapping : list (Z * string) :=
  [(1, "Analfabeto");
   (2, "Até 5ª Incompleto");
   (3, "5ª Completo Fundamental");
   (4, "6ª a 9ª Fundamental");
   (5, "Fundamental Completo");
   (6, "Médio Incompleto");
   (7, "Médio Completo");
   (8, "Superior Incompleto");
   (9, "Superior Completo")]%Z.

Definition tipo_movimentacao_mapping : list (Z * string) :=
  [(1, "Admissão"); (2, "Desligamento"); (3, "Transferência")]%Z.

Definition _decode_categorical (df : DataFrame) : result DataFrame :=
  let decoded_df := df in
  decoded_df <-
    (if has_column "sexo" decoded_df
     then (s <- getitem decoded_df "sexo" ;;
           Ok (setitem decoded_df "sexo_desc" (map_str sexo_mapping s)))
     else Ok decoded_df) ;;
  decoded_df <-
    (if has_column "grau_instrucao" decoded_df
     then (s <- getitem decoded_df "grau_instrucao" ;;
           Ok (setitem decoded_df "grau_instrucao_desc"
                       (map_int grau_instrucao_mapping s)))
     else Ok decoded_df) ;;
  if has_column "tipo_movimentacao" decoded_df
  then (s <- getitem decoded_df "tipo_movimentacao" ;;
        Ok (setitem decoded_df "tipo_movimentacao_desc"
                    (map_int tipo_movimentacao_mapping s)))
  else Ok decoded_df.

(** *** Derived fields *)

Definition faixa_etaria_bins : list edge :=
  [Fin 0; Fin 18; Fin 25; Fin 35; Fin 45; Fin 55; Fin 65; Fin 100].

Definition faixa_etaria_labels : list string :=
  ["<18"; "18-24"; "25-34"; "35-44"; "45-54"; "55-64"; "65+"].

Definition faixa_salarial_bins : list edge :=
  [Fin 0; Fin 1100; Fin 2200; Fin 3300; Fin 5000; Fin 10000; PosInf].

Definition faixa_salarial_labels : list string :=
  ["Até 1 SM"; "1-2 SM"; "2-3 SM"; "3-5 SM"; "5-10 SM"; "10+ SM"].

Definition _create_derived_fields (df : DataFrame) : result DataFrame :=
  let derived_df := df in
  derived_df <-
    (if has_column "ano" derived_df && has_column "mes" derived_df
     then (ano <- getitem derived_df "ano" ;;
           mes <- getitem derived_df "mes" ;;
           data <- to_datetime_ym ano mes ;;
           Ok (setitem derived_df "data" data))
     else Ok derived_df) ;;
  derived_df <-
    (if has_column "idade" derived_df
     then (idade <- getitem derived_df "idade" ;;
           faixa <- cut idade faixa_etaria_bins faixa_etaria_labels ;;
           Ok (setitem derived_df "faixa_etaria" faixa))
     else Ok derived_df) ;;
  if has_column "salario" derived_df
  then (salario <- getitem derived_df "salario" ;;
        faixa <- cut salario faixa_salarial_bins faixa_salarial_labels ;;
        Ok (setitem derived_df "faixa_salarial" faixa))
  else Ok derived_df.

Definition process_data (df : DataFrame) : result DataFrame :=
  let processed_df := df in
  processed_df <- _handle_missing_values processed_df ;;
  processed_df <- _decode_categorical processed_df ;;
  processed_df <- _create_derived_fields processed_df ;;
  Ok processed_df.

(** *** Aggregation by period *)

Definition aggregate_by_period (df : DataFrame)
           (group_by : list string) (metrics : list string) : result DataFrame :=
  let valid_group_by := filter (fun col => has_column col df) group_by in
  let valid_metrics := filter (fun col => has_column col df) metrics in
  match valid_group_by, valid_metrics with
  | [], _ | _, [] => Ok []
  | _, _ =>
      let agg_dict :=
        map (fun metric => (metric, [Mean; Median; Min; Max; Count]))
            (dedup valid_metrics) in
      gs <- groupby df valid_group_by ;;
      result <- agg df gs agg_dict ;;
      let result := map (fun c => (strip (join_ (fst c)), snd c)) result in
      index <- for_each
                 (fun acc col => s <- getitem df col ;; Ok (acc ++ [(col, key_column s gs)]))
                 valid_group_by [] ;;
      reset_index index result
  end.

(** *** Filtering *)

(** [isinstance(v, (int, float))]. *)
Definition is_number (v : pyval) : bool :=
  match v with PyNum _ => true | _ => false end.

(** [isinstance(value, (list, tuple))] with its elements. *)
Definition as_sequence (value : pyval) : option (list pyval) :=
  match value with
  | PyList l | PyTuple l => Some l
  | _ => None
  end.

(** The test of the first branch,
    [isinstance(value, (list, tuple)) and len(value) == 2 and
     all(isinstance(v, (int, float)) for v in value)],
    with the two bounds [value[0]] and [value[1]] when it holds. *)
Definition numeric_pair (value : pyval) : option (Q * Q) :=
  match as_sequence value with
  | Some l =>
      if Nat.eqb (List.length l) 2 && forallb is_number l
      then match l with
           | [PyNum lo; PyNum hi] => Some (lo, hi)
           | _ => None
           end
      else None
  | None => None
  end.

(** One turn of the loop of [filter_data]. *)
Definition apply_filter (filtered_df : DataFrame) (item : string * pyval)
  : result DataFrame :=
  let (column, value) := item in
  if negb (has_column column filtered_df) then Ok filtered_df
  else
    s <- getitem filtered_df column ;;
    match numeric_pair value with
    | Some (lo, hi) =>
        m1 <- ge s lo ;;
        m2 <- le s hi ;;
        Ok (loc filtered_df (mask_and m1 m2))
    | None =>
        match value with
        | PyList l =>
            m <- isin s l ;;
            Ok (loc filtered_df m)
        | _ =>
            m <- eq s value ;;
            Ok (loc filtered_df m)
        end
    end.

Definition filter_data (df : DataFrame) (filters : list (string * pyval))
  : result DataFrame :=
  let filtered_df := df in
  for_each apply_filter filters filtered_df.

(** *** Summary statistics *)

Record summary : Type := mksummary {
  numeric : list (string * description);
  categorical : list (string * list (string * nat))
}.

Definition get_summary_statistics (df : DataFrame) : result summary :=
  let numeric_cols := select_dtypes [int64; float64] df in
  sub <- getitems df numeric_cols ;;
  num <- describe sub ;;
  let categorical_cols := select_dtypes [object; category] df in
  cat <- for_each
           (fun acc col => s <- getitem df col ;; Ok (acc ++ [(col, value_counts s)]))
           categorical_cols [] ;;
  Ok {| numeric := num; categorical := cat |}.

End DataProcessor.

(* ================================================================== *)
(** ** [PlotGenerator]: the bar chart *)

Module PlotGenerator.
Import Pandas.

(** What is handed to the plotting library: either an empty figure with
    a title, or the arguments of [px.bar]. *)
Inductive Figure : Type :=
| EmptyFigure (title : string)
| Bar (chart_data : DataFrame) (x y : string) (color : option string)
      (orientation : string) (title : string) (labels : list (string * string)).

Definition column_labels : list (string * string) :=
  [("ano", "Ano");
   ("mes", "Mês");
   ("uf", "UF");
   ("idade", "Idade");
   ("sexo", "Sexo");
   ("sexo_desc", "Sexo");
   ("grau_instrucao", "Grau de Instrução");
   ("grau_instrucao_desc", "Grau de Instrução");
   ("cbo_2002", "Ocupação (CBO)");
   ("categoria", "Categoria do Trabalhador");
   ("subclasse_cnae_2", "Setor Econômico (CNAE)");
   ("salario", "Salário");
   ("tipo_movimentacao", "Tipo de Movimentação");
   ("tipo_movimentacao_desc", "Tipo de Movimentação");
   ("tipo_estabelecimento", "Tipo de Estabelecimento");
   ("faixa_etaria", "Faixa Etária");
   ("faixa_salarial", "Faixa Salarial")].

(** [self.column_labels.get(col, col)]. *)
Definition label (col : string) : string :=
  match lookup_str col column_labels with
  | Some l => l
  | None => col
  end.

(** [group_by and group_by in df.columns]: the grouping column when it
    is given, not empty and present. *)
Definition usable_group (df : DataFrame) (group_by : option string) : option string :=
  match group_by with
  | Some g => if negb (String.eqb g "") && has_column g df then Some g else None
  | None => None
  end.

Definition index_columns (df : DataFrame) (by_ : list string) (gs : list group)
  : result (list (string * Series)) :=
  for_each (fun acc col => s <- getitem df col ;; Ok (acc ++ [(col, key_column s gs)]))
           by_ [].

(** [df.groupby(by).size().reset_index(name='count')]. *)
Definition group_sizes (df : DataFrame) (by_ : list string) : result DataFrame :=
  gs <- groupby df by_ ;;
  index <- index_columns df by_ gs ;;
  reset_index index
    [("count", Int64 (map (fun g => Z.of_nat (List.length (snd g))) gs))].

(** [df.groupby(by)[y].mean().reset_index()]. *)
Definition group_means (df : DataFrame) (by_ : list string) (y : string)
  : result DataFrame :=
  gs <- groupby df by_ ;;
  s <- getitem df y ;;
  means <- aggregate Mean s gs ;;
  index <- index_columns df by_ gs ;;
  reset_index index [(y, means)].

Definition create_bar_chart (df : DataFrame) (x_column : string)
           (y_column : option string) (group_by : option string)
           (orientation : string) (sort_by : option string) : result Figure :=
  if negb (has_column x_column df)
  then Ok (EmptyFigure "Dados não disponíveis para gráfico de barras")
  else
    match
      match y_column with
      | None =>
          match usable_group df group_by with
          | Some g =>
              chart_data <- group_sizes df [x_column; g] ;; Ok (inl (chart_data, "count"))
          | None =>
              chart_data <- group_sizes df [x_column] ;; Ok (inl (chart_data, "count"))
          end
      | Some y =>
          if negb (has_column y df)
          then Ok (inr (EmptyFigure
                          ("Coluna " ++ y ++ " não disponível para gráfico de barras")%string))
          else
            match usable_group df group_by with
            | Some g =>
                chart_data <- group_means df [x_column; g] y ;; Ok (inl (chart_data, y))
            | None => Ok (inl (df, y))
            end
      end
    with
    | Raise e => Raise e
    | Ok (inr fig) => Ok fig
    | Ok (inl (chart_data, y_column)) =>
        chart_data <-
          match sort_by with
          | Some k =>
              if negb (String.eqb k "") && has_column k chart_data
              then sort_values chart_data k
              else Ok chart_data
          | None => Ok chart_data
          end ;;
        let title : string :=
          if String.eqb y_column "count"
          then ("Contagem de " ++ label x_column)%string
          else (label y_column ++ " por " ++ label x_column)%string in
        let color := usable_group df group_by in
        let labels :=
          dict_literal
            ([(x_column, label x_column); (y_column, label y_column)]
               ++ match color with Some g => [(g, label g)] | None => [] end) in
        if String.eqb orientation "h"
        then Ok (Bar chart_data y_column x_column color "h" title labels)
        else Ok (Bar chart_data x_column y_column color "v" title labels)
    end.

(** *** The other chart builders *)

(** What the other builders hand to the plotting library: a figure
    without data that only has a title, or the arguments of the [px] call
    together with the titles set on the layout afterwards.  Settings that
    are constants of the code (hover mode, bar gap, text position) are
    left out. *)
Inductive Chart : Type :=
| Blank (title : string)
| Line (data_frame : DataFrame) (x y : string) (color : option string)
       (title : string) (labels : list (string * string))
       (xaxis_title yaxis_title : string) (legend_title : option string)
| Pie (chart_data : DataFrame) (names values : string) (title : string)
| Histogram (data_frame : DataFrame) (x : string) (color : option string) (nbins : Z)
            (title : string) (labels : list (string * string))
            (xaxis_title yaxis_title : string)
| Box (data_frame : DataFrame) (x : option string) (y : string)
      (title : string) (labels : list (string * string))
| Scatter (data_frame : DataFrame) (x y : string) (color size : option string)
          (title : string) (labels : list (string * string)).

Definition create_time_series (df : DataFrame) (y_column x_column : string)
           (group_by : option string) : Chart :=
  if negb (has_column x_column df) || negb (has_column y_column df)
  then Blank "Dados não disponíveis para gráfico de série temporal"
  else
    let title : string := (label y_column ++ " ao longo do tempo")%string in
    let legend_title :=
      match group_by with
      | Some g => if String.eqb g "" then None else Some (label g)
      | None => None
      end in
    match usable_group df group_by with
    | Some g =>
        Line df x_column y_column (Some g) title
             (dict_literal [(x_column, label x_column); (y_column, label y_column);
                            (g, label g)])
             (label x_column) (label y_column) legend_title
    | None =>
        Line df x_column y_column None title
             (dict_literal [(x_column, label x_column); (y_column, label y_column)])
             (label x_column) (label y_column) legend_title
    end.

(** [df.groupby(column)[values].sum().reset_index()]. *)
Definition group_sums (df : DataFrame) (column values : string) : result DataFrame :=
  gs <- groupby df [column] ;;
  s <- getitem df values ;;
  sums <- group_sum s gs ;;
  index <- index_columns df [column] gs ;;
  reset_index index [(values, sums)].

Definition create_pie_chart (df : DataFrame) (column : string) (values : option string)
  : result Chart :=
  if negb (has_column column df)
  then Ok (Blank "Dados não disponíveis para gráfico de pizza")
  else
    match values with
    | Some v =>
        if negb (has_column v df)
        then Ok (Blank ("Coluna " ++ v ++ " não disponível para gráfico de pizza")%string)
        else
          chart_data <- group_sums df column v ;;
          Ok (Pie chart_data column v
                  ("Soma de " ++ label v ++ " por " ++ label column)%string)
    | None =>
        s <- getitem df column ;;
        let counts := value_counts_reset s in
        chart_data <- reset_index [(column, fst counts)] [("count", snd counts)] ;;
        Ok (Pie chart_data column "count" ("Distribuição de " ++ label column)%string)
    end.

(** [bins if bins else 30]. *)
Definition nbins_of (bins : option Z) : Z :=
  match bins with
  | Some b => if Z.eqb b 0 then 30%Z else b
  | None => 30%Z
  end.

Definition create_histogram (df : DataFrame) (column : string) (bins : option Z)
           (group_by : option string) : Chart :=
  if negb (has_column column df)
  then Blank "Dados não disponíveis para histograma"
  else
    let title : string := ("Distribuição de " ++ label column)%string in
    match usable_group df group_by with
    | Some g =>
        Histogram df column (Some g) (nbins_of bins) title
                  (dict_literal [(column, label column); (g, label g)])
                  (label column) "Frequência"
    | None =>
        Histogram df column None (nbins_of bins) title
                  (dict_literal [(column, label column)])
                  (label column) "Frequência"
    end.

Definition create_boxplot (df : DataFrame) (y_column : string) (x_column : option string)
  : Chart :=
  if negb (has_column y_column df)
  then Blank "Dados não disponíveis para boxplot"
  else
    let x_column :=
      match x_column with
      | Some x => if negb (String.eqb x "") && negb (has_column x df) then None else Some x
      | None => None
      end in
    match x_column with
    | Some x =>
        if negb (String.eqb x "")
        then Box df (Some x) y_column
                 ("Distribuição de " ++ label y_column ++ " por " ++ label x)%string
                 (dict_literal [(x, label x); (y_column, label y_column)])
        else Box df None y_column
                 ("Distribuição de " ++ label y_column)%string
                 (dict_literal [(y_column, label y_column)])
    | None =>
        Box df None y_column
            ("Distribuição de " ++ label y_column)%string
            (dict_literal [(y_column, label y_column)])
    end.

Definition create_scatter_plot (df : DataFrame) (x_column y_column : string)
           (color_by size_by : option string) : Chart :=
  if negb (has_column x_column df) || negb (has_column y_column df)
  then Blank "Dados não disponíveis para gráfico de dispersão"
  else
    let title : string := (label y_column ++ " vs " ++ label x_column)%string in
    let labels :=
      dict_literal [(x_column, label x_column); (y_column, label y_column)] in
    let color := usable_group df color_by in
    let labels :=
      match color with
      | Some c => dict_set labels c (label c)
      | None => labels
      end in
    let size := usable_group df size_by in
    let labels :=
      match size with
      | Some z => dict_set labels z (label z)
      | None => labels
      end in
    Scatter df x_column y_column color size title labels.

(** *** The heat map *)

(** One annotation of the heat map. *)
Record annotation : Type := mkannotation {
  a_x : nat;
  a_y : nat;
  a_text : string;
  a_color : string
}.

Inductive Heatmap (R : Type) : Type :=
| NoHeatmap (title : string)
| Imshow (corr_matrix : list (list R)) (x y : list string)
         (annotations : list annotation).

Arguments NoHeatmap {R} title.
Arguments Imshow {R} corr_matrix x y annotations.

(** [enumerate]. *)
Definition enumerate {A : Type} (l : list A) : list (nat * A) :=
  combine (seq 0 (List.length l)) l.

Section Heatmap.
(** The correlation of two columns is a float that the model does not
    compute: the matrix of [numeric_df.corr()], the text [f"{value:.2f}"]
    and the test [abs(value) > 0.5] are taken as they come. *)
Variable R : Type.
Variable corr : DataFrame -> list (list R).
Variable format_2f : R -> string.
Variable abs_above_half : R -> bool.

Definition create_heatmap (df : DataFrame) (columns_ : option (list string))
  : result (Heatmap R) :=
  let numeric_df :=
    filter (fun c => existsb (dtype_eqb (dtype_of (snd c))) [int64; float64]) df in
  match
    match columns_ with
    | Some ((_ :: _) as cols) =>
        let valid_columns := filter (fun col => has_column col numeric_df) cols in
        match valid_columns with
        | [] => Ok (inr "Nenhuma coluna numérica válida para mapa de calor")
        | _ => numeric_df <- getitems numeric_df valid_columns ;; Ok (inl numeric_df)
        end
    | _ => Ok (inl numeric_df)
    end
  with
  | Raise e => Raise e
  | Ok (inr title) => Ok (NoHeatmap title)
  | Ok (inl numeric_df) =>
      if empty numeric_df || (List.length (columns numeric_df) <? 2)%nat
      then Ok (NoHeatmap "Dados insuficientes para mapa de calor")
      else
        let corr_matrix := corr numeric_df in
        let names := map label (columns numeric_df) in
        let annotations :=
          flat_map
            (fun ir : nat * list R =>
               map (fun jv : nat * R =>
                      mkannotation (fst jv) (fst ir) (format_2f (snd jv))
                                   (if abs_above_half (snd jv) then "white" else "black"))
                   (enumerate (snd ir)))
            (enumerate corr_matrix) in
        Ok (Imshow corr_matrix names names annotations)
  end.
End Heatmap.

End PlotGenerator.

(* ================================================================== *)
(** ** [DataLoader]: the query and the sample data *)

Module DataLoader.
Import Pandas.

(** A value of the filter dict of a query: an [int], a [str], or a list
    of them. *)
Inductive atom : Type := AInt (z : Z) | AStr (s : string).

Inductive qvalue : Type := Single (a : atom) | Several (l : list atom).

(** The arguments [year] and [month]: an [int] or a list of [int]. *)
Inductive int_or_list : Type := One (z : Z) | Many (l : list Z).

Definition value_of (v : int_or_list) : qvalue :=
  match v with
  | One z => Single (AInt z)
  | Many l => Several (map AInt l)
  end.

(** [str(z)] for an [int]. *)
Definition str_of_int (z : Z) : string := NilZero.string_of_int (Z.to_int z).

(** [f"'{v}'" if isinstance(v, str) else str(v)]. *)
Definition format_atom (a : atom) : string :=
  match a with
  | AStr s => "'" ++ s ++ "'"
  | AInt z => str_of_int z
  end.

(** [sep.join(l)]. *)
Fixpoint join (sep : string) (l : list string) : string :=
  match l with
  | [] => ""
  | [x] => x
  | x :: l' => x ++ sep ++ join sep l'
  end.

(** [d[k] = v] on a dict: a key that is there keeps its place. *)
Fixpoint dict_put {V : Type} (d : list (string * V)) (k : string) (v : V)
  : list (string * V) :=
  match d with
  | [] => [(k, v)]
  | (k', v') :: d' =>
      if String.eqb k' k then (k', v) :: d' else (k', v') :: dict_put d' k v
  end.

(** [d.update(items)]. *)
Definition dict_update {V : Type} (d items : list (string * V)) : list (string * V) :=
  fold_left (fun d kv => dict_put d (fst kv) (snd kv)) items d.

(** [d.get(k)]. *)
Fixpoint dict_get {V : Type} (d : list (string * V)) (k : string) : option V :=
  match d with
  | [] => None
  | (k', v) :: d' => if String.eqb k' k then Some v else dict_get d' k
  end.

(** One clause of the [WHERE] part. *)
Definition where_clause (item : string * qvalue) : string :=
  match snd item with
  | Several l => fst item ++ " IN (" ++ join ", " (map format_atom l) ++ ")"
  | Single a => fst item ++ " = " ++ format_atom a
  end.

Definition nl : string := String (ascii_of_nat 10) "".

Definition base_query : string :=
  nl ++ "            SELECT *"
     ++ nl ++ "            FROM `basedosdados.br_me_caged.microdados_movimentacao`"
     ++ nl ++ "            ".

(** The dict [query_filters] of [load_caged_data]: year, month, then the
    location and the other filters; an empty dict updates nothing, as the
    guards [if location:] and [if filters:] have it. *)
Definition query_filters (year : int_or_list) (month : option int_or_list)
           (location : list (string * string)) (filters : list (string * qvalue))
  : list (string * qvalue) :=
  let query_filters := dict_put [] "ano" (value_of year) in
  let query_filters :=
    match month with
    | Some m => dict_put query_filters "mes" (value_of m)
    | None => query_filters
    end in
  let query_filters :=
    dict_update query_filters (map (fun kv => (fst kv, Single (AStr (snd kv)))) location) in
  dict_update query_filters filters.

(** The text of the query that [load_caged_data] sends. *)
Definition caged_query (year : int_or_list) (month : option int_or_list)
           (location : list (string * string)) (filters : list (string * qvalue))
           (limit : option Z) : string :=
  let query_filters := query_filters year month location filters in
  let query := base_query in
  let query :=
    match query_filters with
    | [] => query
    | _ => (query ++ " WHERE " ++ join " AND " (map where_clause query_filters))%string
    end in
  match limit with
  | Some l => if Z.eqb l 0 then query else (query ++ " LIMIT " ++ str_of_int l)%string
  | None => query
  end.

Definition sample_query : string :=
  nl ++ "            SELECT *"
     ++ nl ++ "            FROM `basedosdados.br_me_caged.microdados_movimentacao`"
     ++ nl ++ "            WHERE ano = 2021 AND mes = 1"
     ++ nl ++ "            LIMIT 1000"
     ++ nl ++ "            ".

(** [range(50)]. *)
Definition range50 : list Z := map Z.of_nat (seq 0 50).

Definition _create_mock_data : DataFrame :=
  [("ano", Int64 (repeat 2021%Z 50));
   ("mes", Int64 (map (fun i => i mod 12 + 1)%Z range50));
   ("uf", Object (List.concat (repeat [Some "SP"; Some "RJ"; Some "MG"; Some "RS";
                                      Some "PR"] 10)));
   ("idade", Int64 (map (fun i => 20 + i mod 40)%Z range50));
   ("sexo", Object (List.concat (repeat [Some "1"; Some "2"] 25)));
   ("grau_instrucao", Int64 (map (fun i => i mod 9 + 1)%Z range50));
   ("cbo_2002", Object (map (fun i => Some (str_of_int ((i mod 10) * 1111))) range50));
   ("categoria", Int64 (map (fun i => i mod 5 + 1)%Z range50));
   ("subclasse_cnae_2",
    Object (map (fun i => Some (str_of_int ((i mod 10) * 1111))) range50));
   ("salario", Int64 (map (fun i => 1100 + i * 100)%Z range50));
   ("tipo_movimentacao", Int64 (map (fun i => i mod 10 + 1)%Z range50));
   ("tipo_estabelecimento", Int64 (map (fun i => i mod 3 + 1)%Z range50))].

Section Loading.
(** [bd.read_sql(query, billing_project_id=self.project_id)]: the table
    of the answer, or the exception of a failed call. *)
Variable read_sql : string -> result DataFrame.

(** Any exception is caught and the empty table returned. *)
Definition load_caged_data (year : int_or_list) (month : option int_or_list)
           (location : list (string * string)) (filters : list (string * qvalue))
           (limit : option Z) : DataFrame :=
  match read_sql (caged_query year month location filters limit) with
  | Ok df => df
  | Raise _ => []
  end.

(** Any exception is caught and the sample table returned. *)
Definition load_sample_data : DataFrame :=
  match read_sql sample_query with
  | Ok df => df
  | Raise _ => _create_mock_data
  end.
End Loading.

End DataLoader.

(* ================================================================== *)
(** ** [ExploratoryPage]: loading data into the session *)

Module ExploratoryPage.
Import Pandas DataProcessor DataLoader.

Definition months : list (Z * string) :=
  [(1, "Janeiro"); (2, "Fevereiro"); (3, "Março"); (4, "Abril");
   (5, "Maio"); (6, "Junho"); (7, "Julho"); (8, "Agosto");
   (9, "Setembro"); (10, "Outubro"); (11, "Novembro"); (12, "Dezembro")]%Z.

(** The loop that looks the number of the selected month up: the first
    entry with that name. *)
Fixpoint month_number (months : list (Z * string)) (selected_month_name : string)
  : option Z :=
  match months with
  | [] => None
  | m :: rest =>
      if String.eqb (snd m) selected_month_name then Some (fst m)
      else month_number rest selected_month_name
  end.

(** What the page reads from its widgets. *)
Record inputs : Type := mkinputs {
  selected_year : Z;
  selected_state : string;
  selected_month_name : string;
  row_limit : Z
}.

(** [st.session_state]: the table under the key ['caged_data'], when the
    key is there. *)
Definition session : Type := option DataFrame.

(** What the page shows below the filters. *)
Inductive view : Type :=
| DataView (processed_df : DataFrame)
| NoRowsWarning
| LoadPrompt.

Section Page.
Variable read_sql : string -> result DataFrame.

(** The arguments of the call of [load_caged_data]. *)
Definition load_request (i : inputs) : DataFrame :=
  let selected_month :=
    if String.eqb (selected_month_name i) "Todos" then None
    else month_number months (selected_month_name i) in
  let location :=
    if String.eqb (selected_state i) "Todos" then []
    else [("uf", selected_state i)] in
  load_caged_data read_sql (One (selected_year i)) (option_map One selected_month)
                  location [] (Some (row_limit i)).

(** The button "Carregar Dados": a table with rows is processed and put
    into the session, an empty one removes the entry.  An exception of
    [process_data] leaves the handler before the session is written. *)
Definition load_data (i : inputs) (st : session) : result session :=
  let df := load_request i in
  if negb (empty df)
  then (processed_df <- process_data df ;; Ok (Some processed_df))
  else Ok None.

(** The button "Limpar Dados e Filtros". *)
Definition clear_data (st : session) : session := None.

(** The last [if] of [render]. *)
Definition body (st : session) : view :=
  match st with
  | Some df => if negb (empty df) then DataView df else NoRowsWarning
  | None => LoadPrompt
  end.

(** One run of the page: a button is pressed, or none. *)
Inductive run : session -> session -> Prop :=
| run_load (i : inputs) (st st' : session) :
    load_data i st = Ok st' -> run st st'
| run_load_raises (i : inputs) (st : session) (e : exn) :
    load_data i st = Raise e -> run st st
| run_clear (st : session) : run st (clear_data st)
| run_idle (st : session) : run st st.

(** The sessions that the page can be in, from the empty session on. *)
Inductive reachable : session -> Prop :=
| reachable_start : reachable None
| reachable_run (st st' : session) : reachable st -> run st st' -> reachable st'.

End Page.

End ExploratoryPage.

(* ================================================================== *)
(** ** Properties stated in the specification *)

Module Spec.
Import Pandas DataProcessor.

(** *** Brackets *)

(** Bracket [i] of a list of edges: the half-open interval from edge [i]
    to edge [i + 1], unbounded when that edge is infinite. *)
Definition in_bracket (bins : list edge) (i : nat) (x : Q) : Prop :=
  match nth_error bins i, nth_error bins (S i) with
  | Some (Fin lo), Some (Fin hi) => (lo <= x /\ x < hi)%Q
  | Some (Fin lo), Some PosInf => (lo <= x)%Q
  | _, _ => False
  end.

(** [x] lies in exactly one bracket, and [pd.cut] gives its label. *)
Definition one_bracket (bins : list edge) (labels : list string) (x : Q) : Prop :=
  exists i l,
    nth_error labels i = Some l /\
    in_bracket bins i x /\
    (forall j, in_bracket bins j x -> j = i) /\
    cut_value bins labels x = Some l.

(** The cell [c] of a derived column carries the label of the one bracket
    that holds [x]: bracket [i] holds [x], no other bracket does, and the
    cell is the category of code [i], whose label is label [i]. *)
Definition labelled (bins : list edge) (labels : list string) (x : Q)
           (c : option scalar) : Prop :=
  exists i l,
    nth_error labels i = Some l /\
    in_bracket bins i x /\
    (forall j, in_bracket bins j x -> j = i) /\
    c = Some (Lab i l).

(** The boundaries between the brackets, each with the label of the
    bracket above it. *)
Definition age_boundaries : list (Q * string) :=
  [(18, "18-24"); (25, "25-34"); (35, "35-44"); (45, "45-54"); (55, "55-64");
   (65, "65+")]%Q.

Definition salary_boundaries : list (Q * string) :=
  [(1100, "1-2 SM"); (2200, "2-3 SM"); (3300, "3-5 SM"); (5000, "5-10 SM");
   (10000, "10+ SM")]%Q.

(** The label of a cell, whatever its code. *)
Definition label_of (c : option scalar) : option string :=
  match c with
  | Some (Lab _ l) => Some l
  | _ => None
  end.

(** The date column can be built: when the table has a year and a month
    column, they spell months that a timestamp can hold. *)
Definition dated (df : DataFrame) : Prop :=
  forall ano mes, getitem df "ano" = Ok ano -> getitem df "mes" = Ok mes ->
                  exists data, to_datetime_ym ano mes = Ok data.

(** *** Filters *)

(** The three shapes of a predicate value. *)
Inductive predicate : Type :=
| Range (lo hi : Q)
| Member (values : list pyval)
| Equal (value : pyval).

(** A pair of two numbers is a closed range, any other list is a set of
    admitted values, anything else is compared for equality. *)
Definition shape (value : pyval) : predicate :=
  match value with
  | PyList [PyNum lo; PyNum hi] | PyTuple [PyNum lo; PyNum hi] => Range lo hi
  | PyList l => Member l
  | v => Equal v
  end.

Definition in_range (lo hi : Q) (c : scalar) : bool :=
  match c with
  | Num q => Qle_bool lo q && Qle_bool q hi
  | _ => false
  end.

(** Row [i] of [df] satisfies the entry [item] of the predicate mapping;
    an entry for a column that the table lacks is satisfied by every row,
    a missing cell satisfies no predicate. *)
Definition satisfies (df : DataFrame) (i : nat) (item : string * pyval) : bool :=
  match getitem df (fst item) with
  | Raise _ => true
  | Ok s =>
      match shape (snd item) with
      | Range lo hi => cell_test (in_range lo hi) (iloc s i)
      | Member l => cell_test (fun c => existsb (cell_eq c) l) (iloc s i)
      | Equal v => cell_test (fun c => cell_eq c v) (iloc s i)
      end
  end.

(** The entry can be evaluated on its column: a range goes with a numeric
    column, the admitted values of a membership test are not lists, and a
    tuple is compared with an [object] column only. *)
Definition well_typed (df : DataFrame) (item : string * pyval) : Prop :=
  forall s, getitem df (fst item) = Ok s ->
    match shape (snd item) with
    | Range _ _ => dtype_of s = int64 \/ dtype_of s = float64
    | Member l => existsb is_list l = false
    | Equal (PyTuple _) => dtype_of s = object
    | Equal _ => True
    end.

(** The test that a predicate value puts on a present cell. *)
Definition item_test (value : pyval) : scalar -> bool :=
  match shape value with
  | Range lo hi => in_range lo hi
  | Member l => fun c => existsb (cell_eq c) l
  | Equal v => fun c => cell_eq c v
  end.

(** The test that a predicate value puts on a present cell of the column
    [s], as the code evaluates it: that of [item_test], but for a list of
    values given for a column of timestamps, which admits a cell only when
    each value is a string that is a date. *)
Definition member_test (s : Series) (l : list pyval) : scalar -> bool :=
  match s with
  | Datetime64 _ =>
      if all_dates l then fun c => existsb (cell_eq c) l else fun _ => false
  | _ => fun c => existsb (cell_eq c) l
  end.

Definition column_test (s : Series) (value : pyval) : scalar -> bool :=
  match shape value with
  | Member l => member_test s l
  | _ => item_test value
  end.

(** Row [i] passes the entry [item], as the code evaluates it. *)
Definition keeps (df : DataFrame) (i : nat) (item : string * pyval) : bool :=
  match getitem df (fst item) with
  | Raise _ => true
  | Ok s => cell_test (column_test s (snd item)) (iloc s i)
  end.

(** The least that the code asks of an entry to evaluate it on its
    column. *)
Definition evaluable (df : DataFrame) (item : string * pyval) : Prop :=
  forall s, getitem df (fst item) = Ok s ->
    match shape (snd item) with
    | Range _ _ => dtype_of s = int64 \/ dtype_of s = float64
    | Member l => dtype_of s = category -> existsb is_list l = false
    | Equal (PyTuple _) => dtype_of s = object \/ dtype_of s = category
    | Equal _ => True
    end.

(** A value that Python can hash: not a list, and not a tuple that has a
    list inside. *)
Fixpoint hashable (v : pyval) : bool :=
  match v with
  | PyList _ => false
  | PyTuple l => forallb hashable l
  | _ => true
  end.

(** The numbers of a predicate value. *)
Definition numbers_of (value : pyval) : list Q :=
  let number v := match v with PyNum q => [q] | _ => [] end in
  match value with
  | PyList l | PyTuple l => flat_map number l
  | v => number v
  end.

(** The cell is one of two strings. *)
Definition one_of (a b : string) (c : option string) : bool :=
  match c with
  | Some s => String.eqb s a || String.eqb s b
  | None => false
  end.

(** Every column has as many cells as the table has rows. *)
Definition uniform (df : DataFrame) : Prop :=
  forall c, In c df -> len (snd c) = nrows df.

(** *** Numbers *)

(** The rational is a float64. *)
Definition float64_value (q : Q) : bool := Qeq_bool (round64 q) q.

(** The numbers of a column are numbers that pandas keeps as they are:
    the cells of a float column are floats, small enough for the sum of
    their magnitudes not to overflow, and the cells of an integer column
    are integers of at most 53 bits, which the conversion to float leaves
    unchanged. *)
Definition within_float64 (s : Series) : bool :=
  match s with
  | Int64 xs => forallb (fun z => (Z.abs z <=? 2 ^ 53)%Z) xs
  | Float64 xs =>
      forallb float64_value (dropna xs)
      && Qle_bool (fold_right Qplus 0%Q (map Qabs (dropna xs))) (pow2 1022)
  | _ => true
  end.

Definition numbers_within_float64 (df : DataFrame) : Prop :=
  forall c, In c df -> within_float64 (snd c) = true.

(** The entry compares like with like: its numbers and those of its
    column are floats (and integers of at most 53 bits), which NumPy
    compares without rounding; a range goes with a numeric column; no
    string is compared with a timestamp, which would be parsed as a date
    first; the values looked up in a categorical can be hashed; and a
    tuple is compared with a column of strings or with a categorical
    only. *)
Definition comparable (df : DataFrame) (item : string * pyval) : Prop :=
  forall s, getitem df (fst item) = Ok s ->
    within_float64 s = true /\
    forallb float64_value (numbers_of (snd item)) = true /\
    match shape (snd item) with
    | Range _ _ => dtype_of s = int64 \/ dtype_of s = float64
    | Member l =>
        (dtype_of s = datetime64 -> existsb is_str l = false) /\
        (dtype_of s = category -> forallb hashable l = true)
    | Equal (PyTuple l) =>
        dtype_of s = object \/ (dtype_of s = category /\ forallb hashable l = true)
    | Equal (PyStr _) => dtype_of s <> datetime64
    | Equal _ => True
    end.

(** The rows of [df] whose position satisfies [p]. *)
Definition rows_where (df : DataFrame) (p : nat -> bool) : DataFrame :=
  loc df (map p (seq 0 (nrows df))).

(** *** Imputation *)

(** The mean of two floats, as float arithmetic gives it: their sum is
    rounded to a float, and its half is rounded again. *)
Definition float_average (a b : Q) : Q := round64 (round64 (a + b) / 2).

(** [m] is the middle of a sorted list: the middle value when the number
    of values is odd, the mean of the two middle ones when it is even. *)
Definition middle_of (sorted : list Q) (m : Q) : Prop :=
  let n := List.length sorted in
  if Nat.even n
  then m = float_average (nth (n / 2 - 1) sorted 0%Q) (nth (n / 2) sorted 0%Q)
  else m = nth (n / 2) sorted 0%Q.

Definition is_median (vals : list Q) (m : Q) : Prop :=
  exists sorted,
    Permutation vals sorted /\ StronglySorted Qle sorted /\ middle_of sorted m.

(** [m] is a most frequent value of [vals], and the one that comes first
    among the most frequent values. *)
Definition is_mode (first : string -> string -> Prop) (vals : list string) (m : string)
  : Prop :=
  In m vals /\
  (forall v, count_str v vals <= count_str m vals) /\
  (forall v, In v vals -> count_str v vals = count_str m vals -> first m v).

(** Ties between modes, as pandas breaks them: the smallest string of an
    [object] column, the category of smallest code of a categorical. *)
Definition smallest_first (s : Series) (a b : string) : Prop :=
  match s with
  | Category cats _ => index_of a cats <= index_of b cats
  | _ => String.leb a b = true
  end.

Definition present_strings (s : Series) : list string :=
  match s with
  | Object xs | Category _ xs => dropna xs
  | _ => []
  end.

(** Ties between modes, as the specification words them: the value that
    is met first in the column. *)
Definition encountered_first (s : Series) (a b : string) : Prop :=
  index_of a (present_strings s) <= index_of b (present_strings s).

(** Column [s'] is column [s] after imputation, for a given way [tie] of
    breaking ties between modes. *)
Definition imputed (tie : Series -> string -> string -> Prop) (s s' : Series) : Prop :=
  match s with
  | Float64 xs =>
      match count_null xs, dropna xs with
      | O, _ => s' = s
      | S _, [] => s' = s
      | S _, vals => exists m, is_median vals m /\ s' = Float64 (fill (Some m) xs)
      end
  | Object xs =>
      match count_null xs with
      | O => s' = s
      | S _ => exists m, is_mode (tie s) (dropna xs) m /\ s' = Object (fill (Some m) xs)
      end
  | Category cats xs =>
      match count_null xs with
      | O => s' = s
      | S _ =>
          exists m, is_mode (tie s) (dropna xs) m /\ s' = Category cats (fill (Some m) xs)
      end
  | _ => s' = s
  end.

(** The table [out] is the table [df] with every column imputed. *)
Definition imputed_table (tie : Series -> string -> string -> Prop)
           (df out : DataFrame) : Prop :=
  Forall2 (fun c c' => fst c' = fst c /\ imputed tie (snd c) (snd c')) df out.

(** A categorical column that has a missing value also has a present
    one. *)
Definition imputable (s : Series) : Prop :=
  match s with
  | Object xs | Category _ xs => count_null xs = 0 \/ dropna xs <> []
  | _ => True
  end.

(** The result of imputing one column. *)
Definition impute_numeric (s : Series) : result Series :=
  if (0 <? isnull_sum s)%nat
  then (m <- median s ;; Ok (fillna_num s m))
  else Ok s.

Definition impute_categorical (s : Series) : result Series :=
  if (0 <? isnull_sum s)%nat
  then (m <- mode_0 s ;; Ok (fillna_str s m))
  else Ok s.

Definition is_numeric (s : Series) : bool :=
  existsb (dtype_eqb (dtype_of s)) [int64; float64].

Definition is_categorical (s : Series) : bool :=
  existsb (dtype_eqb (dtype_of s)) [object; category].

(** Both loops of [_handle_missing_values] on one column. *)
Definition impute (s : Series) : result Series :=
  if is_numeric s then impute_numeric s
  else if is_categorical s then impute_categorical s
  else Ok s.

(** [sequence] for outcomes: the first exception wins. *)
Fixpoint map_result {A B : Type} (f : A -> result B) (l : list A) : result (list B) :=
  match l with
  | [] => Ok []
  | x :: l' => y <- f x ;; ys <- map_result f l' ;; Ok (y :: ys)
  end.

(** One turn of a loop that rewrites the column [col] with [f]. *)
Definition update_column (f : Series -> result Series) (df : DataFrame) (col : string)
  : result DataFrame :=
  s <- getitem df col ;; s' <- f s ;; Ok (setitem df col s').

(** A column of the table after imputation. *)
Definition impute_column (c : string * Series) : result (string * Series) :=
  s' <- impute (snd c) ;; Ok (fst c, s').

(** What a loop over the columns selected by [P] does to one column. *)
Definition on_selected (f : Series -> result Series) (P : Series -> bool)
           (c : string * Series) : result (string * Series) :=
  if P (snd c) then (s' <- f (snd c) ;; Ok (fst c, s')) else Ok c.

(** A column after the loop over the numeric columns. *)
Definition after_first_loop (c : string * Series) : string * Series :=
  match on_selected impute_numeric is_numeric c with
  | Ok c' => c'
  | Raise _ => c
  end.

(** *** Freedom from missing values *)

(** The names of the columns that [process_data] writes. *)
Definition derived_columns : list string :=
  ["sexo_desc"; "grau_instrucao_desc"; "tipo_movimentacao_desc";
   "data"; "faixa_etaria"; "faixa_salarial"].

(** The column has at least one present value. *)
Definition has_present (s : Series) : Prop :=
  exists c, In (Some c) (cells s).

(** The property as the specification words it: a column of the output
    that had a present value in the input has no missing value. *)
Definition null_free (t : DataFrame) : Prop :=
  forall out, process_data t = Ok out ->
    forall col s s',
      getitem t col = Ok s -> has_present s -> getitem out col = Ok s' ->
      isnull_sum s' = 0.

(** *** Aggregation *)

(** The key of [g] is smaller than the key of [g']. *)
Definition key_lt (g g' : group) : Prop :=
  key_compare (fst g) (fst g') = Lt.

(** [gs] are the groups of the first [n] rows under the key columns
    [keys]: every group is a non-empty list of rows that have the key of
    the group, the key of its first row; every row that has a key is in a
    group; the groups come in increasing order of their keys, so that no
    two groups have the same key; no row is listed twice. *)
Definition grouping (keys : list Series) (n : nat) (gs : list group) : Prop :=
  (forall k rows, In (k, rows) gs ->
      rows <> [] /\
      row_key keys (hd 0 rows) = Some k /\
      forall i, In i rows ->
        i < n /\ exists ki, row_key keys i = Some ki /\ key_compare ki k = Eq) /\
  (forall i k, i < n -> row_key keys i = Some k -> exists g, In g gs /\ In i (snd g)) /\
  StronglySorted key_lt gs /\
  NoDup (List.concat (map snd gs)).

(** The column [col] of a table that has it. *)
Definition column (df : DataFrame) (col : string) : Series :=
  match getitem df col with
  | Ok s => s
  | Raise _ => Object []
  end.












(** *** The pipeline as a list of guarded assignments *)

(** A step [if guard: df[dst] = value]. *)
Record step : Type := mkstep {
  guard : DataFrame -> bool;
  value : DataFrame -> result Series;
  dst : string
}.

Definition run_step (st : step) (df : DataFrame) : result DataFrame :=
  if guard st df then (v <- value st df ;; Ok (setitem df (dst st) v)) else Ok df.

Fixpoint run_steps (sts : list step) (df : DataFrame) : result DataFrame :=
  match sts with
  | [] => Ok df
  | st :: sts' => d <- run_step st df ;; run_steps sts' d
  end.

(** The steps of [_decode_categorical] and [_create_derived_fields]. *)
Definition enrichment : list step :=
  [ mkstep (has_column "sexo")
           (fun df => s <- getitem df "sexo" ;; Ok (map_str sexo_mapping s))
           "sexo_desc";
    mkstep (has_column "grau_instrucao")
           (fun df => s <- getitem df "grau_instrucao" ;;
                      Ok (map_int grau_instrucao_mapping s))
           "grau_instrucao_desc";
    mkstep (has_column "tipo_movimentacao")
           (fun df => s <- getitem df "tipo_movimentacao" ;;
                      Ok (map_int tipo_movimentacao_mapping s))
           "tipo_movimentacao_desc";
    mkstep (fun df => has_column "ano" df && has_column "mes" df)
           (fun df => ano <- getitem df "ano" ;; mes <- getitem df "mes" ;;
                      to_datetime_ym ano mes)
           "data";
    mkstep (has_column "idade")
           (fun df => idade <- getitem df "idade" ;;
                      cut idade faixa_etaria_bins faixa_etaria_labels)
           "faixa_etaria";
    mkstep (has_column "salario")
           (fun df => salario <- getitem df "salario" ;;
                      cut salario faixa_salarial_bins faixa_salarial_labels)
           "faixa_salarial" ].

(** Two tables hold the same columns under the names that no step
    writes. *)
Definition same_sources (a b : DataFrame) : Prop :=
  forall n, ~ In n derived_columns -> getitem a n = getitem b n.

(** A step looks at such columns only. *)
Definition reads_sources (st : step) : Prop :=
  forall a b, same_sources a b -> guard st a = guard st b /\ value st a = value st b.

(** *** Further properties of the code *)

Import PlotGenerator DataLoader.

(** Column [c'] has the name, the dtype and the length of column [c]. *)
Definition same_shape (c c' : string * Series) : Prop :=
  fst c' = fst c /\ dtype_of (snd c') = dtype_of (snd c) /\ len (snd c') = len (snd c).

(** A categorical column that has rows and no present value. *)
Definition all_missing (s : Series) : Prop :=
  is_categorical s = true /\ isnull_sum s <> 0 /\ present_strings s = [].

(** The names that [_decode_categorical] writes. *)
Definition decoded_columns : list string :=
  ["sexo_desc"; "grau_instrucao_desc"; "tipo_movimentacao_desc"].

(** The label of a sex code: the codes ['1'] and ['2'] have one. *)
Definition sexo_label (c : option string) : option string :=
  match c with
  | Some code =>
      if String.eqb code "1" then Some "Masculino"
      else if String.eqb code "2" then Some "Feminino"
      else None
  | None => None
  end.

(** The label of an integer code: code [k] from 1 up to the number of
    labels has the [k]-th label, any other code has none. *)
Definition code_label (labels : list string) (z : Z) : option string :=
  if (1 <=? z)%Z then nth_error labels (Z.to_nat (z - 1)) else None.

(** The first day of the month of each row. *)
Definition first_days (ys ms : list Z) : list (option date) :=
  map (fun ym => Some (mkdate (fst ym) (snd ym) 1)) (combine ys ms).

(** The right-hand side of a step has one cell per row of the table. *)
Definition keeps_length (st : step) : Prop :=
  forall df v, uniform df -> guard st df = true -> value st df = Ok v ->
               len v = nrows df.



(** The table that a figure draws; a figure without data draws none. *)
Definition data_of (fig : Figure) : DataFrame :=
  match fig with
  | Bar chart_data _ _ _ _ _ _ => chart_data
  | EmptyFigure _ => []
  end.

Definition Zsum (l : list Z) : Z := fold_right Z.add 0%Z l.

(** The number of rows of each group. *)
Definition sizes (gs : list group) : list Z :=
  map (fun g => Z.of_nat (List.length (snd g))) gs.

(** The number of present cells of a column. *)
Definition present_count (s : Series) : nat := List.length (dropna (cells s)).




(** The columns that the heat map correlates: the requested names that
    are numeric columns of the table, as often as they are requested, or
    every numeric column when no name is requested. *)
Definition heatmap_columns (df : DataFrame) (requested : option (list string))
  : list string :=
  match requested with
  | Some (c :: l) =>
      filter (fun col => existsb (String.eqb col) (select_dtypes [int64; float64] df))
             (c :: l)
  | _ => select_dtypes [int64; float64] df
  end.

(** The table that the heat map correlates: these columns of the table,
    in this order. *)
Definition heatmap_frame (df : DataFrame) (requested : option (list string))
  : DataFrame :=
  map (fun col => (col, column df col)) (heatmap_columns df requested).

(** [a] is the annotation of a cell of the matrix [m]: for the value [v] of
    row [i] and column [j], it stands at [x = j], [y = i], shows the text
    of [v] and is white when [v] is above one half in absolute value,
    black otherwise. *)
Definition annotates {R : Type} (format_2f : R -> string) (abs_above_half : R -> bool)
    (m : list (list R)) (a : PlotGenerator.annotation) : Prop :=
  exists (i j : nat) (row : list R) (v : R),
    nth_error m i = Some row /\ nth_error row j = Some v /\
    a = PlotGenerator.mkannotation j i (format_2f v)
          (if abs_above_half v then "white" else "black").

(** Every column but the one named [name] is free of missing values. *)
Definition complete_except (name : string) (df : DataFrame) : bool :=
  forallb (fun c => String.eqb (fst c) name || Nat.eqb (isnull_sum (snd c)) 0) df.

(** The [LIMIT] part of a query. *)
Definition limit_clause (limit : option Z) : string :=
  match limit with
  | Some l => if Z.eqb l 0 then "" else " LIMIT " ++ str_of_int l
  | None => ""
  end.

End Spec.

(* ================================================================== *)
(** ** Example tables *)

Module Examples.
Import Pandas DataProcessor.

Definition bar_input : DataFrame :=
  [("uf", Object [Some "SP"; Some "SP"; Some "RJ"]);
   ("salario", Float64 [Some 1000; Some 3000; Some 500]%Q)].

Definition twice_input : DataFrame :=
  [("ano", Int64 [2021]%Z);
   ("mes", Int64 [1]%Z);
   ("idade", Int64 [30]%Z);
   ("sexo", Object [Some "9"]);
   ("grau_instrucao", Int64 [7]%Z);
   ("tipo_movimentacao", Int64 [1]%Z);
   ("salario", Float64 [Some 2000%Q]);
   ("sexo_desc", Object [Some "Ignorado"]);
   ("grau_instrucao_desc", Object [Some "Médio Completo"]);
   ("tipo_movimentacao_desc", Object [Some "Admissão"]);
   ("data", Datetime64 [Some (mkdate 2021 1 1)]);
   ("faixa_etaria", Category faixa_etaria_labels [Some "25-34"]);
   ("faixa_salarial", Category faixa_salarial_labels [Some "1-2 SM"])].

Definition twice_output : DataFrame :=
  [("ano", Int64 [2021]%Z);
   ("mes", Int64 [1]%Z);
   ("idade", Int64 [30]%Z);
   ("sexo", Object [Some "9"]);
   ("grau_instrucao", Int64 [7]%Z);
   ("tipo_movimentacao", Int64 [1]%Z);
   ("salario", Float64 [Some 2000%Q]);
   ("sexo_desc", Object [None]);
   ("grau_instrucao_desc", Object [Some "Médio Completo"]);
   ("tipo_movimentacao_desc", Object [Some "Admissão"]);
   ("data", Datetime64 [Some (mkdate 2021 1 1)]);
   ("faixa_etaria", Category faixa_etaria_labels [Some "25-34"]);
   ("faixa_salarial", Category faixa_salarial_labels [Some "1-2 SM"])].

(** Ten rows of salaries and states. *)
Definition fixture : DataFrame :=
  [("salario",
    Float64 [Some 900; Some 1000; Some 1500; Some 2000; Some 2500;
             None; Some 1200; Some 1800; Some 1000; Some 3000]%Q);
   ("uf",
    Object [Some "SP"; Some "SP"; Some "MG"; Some "RJ"; Some "RJ";
            Some "SP"; Some "RJ"; None; Some "BA"; Some "SP"])].

Definition fixture_filters : list (string * pyval) :=
  [("salario", PyList [PyNum 1000; PyNum 2000]);
   ("uf", PyList [PyStr "SP"; PyStr "RJ"]);
   ("municipio", PyStr "3550308")].

Definition states : DataFrame := [("uf", Object [Some "SP"; Some "RJ"])].

(** Two states tie for the most frequent value; [SP] is met first. *)
Definition tie_input : DataFrame :=
  [("salario", Float64 [Some 1000; None; Some 3000; Some 500; Some 1500]%Q);
   ("uf", Object [Some "SP"; Some "RJ"; None; Some "SP"; Some "RJ"])].

Definition tie_output : DataFrame :=
  [("salario", Float64 [Some 1000; Some 1250; Some 3000; Some 500; Some 1500]%Q);
   ("uf", Object [Some "SP"; Some "RJ"; Some "RJ"; Some "SP"; Some "RJ"])].

(** A sex code outside the lookup table, in a table that already has the
    decoded column. *)
Definition coded : DataFrame :=
  [("sexo", Object [Some "1"; Some "3"]);
   ("sexo_desc", Object [Some "Masculino"; Some "Feminino"])].

(** The three rows of the aggregation example. *)
Definition salaries : DataFrame :=
  [("ano", Int64 [2021; 2021; 2022]%Z);
   ("salario", Float64 [Some 1000; Some 3000; Some 500]%Q)].



(** Codes inside and outside the lookup tables. *)
Definition codes : DataFrame :=
  [("sexo", Object [Some "1"; Some "2"; Some "3"]);
   ("grau_instrucao", Int64 [7; 10; 0]%Z);
   ("tipo_movimentacao", Int64 [1; 3; 4]%Z)].

(** Codes of the wrong type: numbers for the sex, strings for the rest. *)
Definition miscoded : DataFrame :=
  [("sexo", Int64 [1; 2]%Z);
   ("grau_instrucao", Object [Some "7"; Some "9"]);
   ("tipo_movimentacao", Object [Some "1"; None])].

(** Two months of one year. *)
Definition two_months : DataFrame :=
  [("ano", Int64 [2021; 2021]%Z);
   ("mes", Int64 [1; 12]%Z);
   ("idade", Int64 [17; 100]%Z)].

(** Ages and salaries inside and outside the brackets. *)
Definition ages : DataFrame :=
  [("idade", Int64 [17; 100; 30]%Z);
   ("salario", Float64 [Some 1100; Some 20000; None]%Q)].

(** A range that no salary meets, and a range on the column of states. *)
Definition no_salary : string * pyval := ("salario", PyList [PyNum 5000; PyNum 6000]).
Definition state_range : string * pyval := ("uf", PyList [PyNum 1; PyNum 2]).

(** A table that has a column named [count]. *)
Definition counted : DataFrame :=
  [("uf", Object [Some "SP"; Some "RJ"]);
   ("count", Int64 [3; 4]%Z)].


End Examples.

(* ================================================================== *)
(** ** Proofs *)

Import Pandas DataProcessor PlotGenerator DataLoader ExploratoryPage Spec Examples.

(** *** Brackets *)

Lemma Qle_bool_true (a b : Q) : (a <= b)%Q -> Qle_bool a b = true.
Proof. apply Qle_bool_iff. Qed.

Lemma Qle_bool_false (a b : Q) : (b < a)%Q -> Qle_bool a b = false.
Proof.
  intros H. destruct (Qle_bool a b) eqn:E; [|reflexivity].
  apply Qle_bool_iff in E. exfalso. apply (Qlt_not_le _ _ H E).
Qed.

Ltac edges :=
  repeat match goal with
         | |- context [Qle_bool ?a ?b] =>
             first [ rewrite (Qle_bool_true a b) by lra
                   | rewrite (Qle_bool_false a b) by lra ]
         end.

Ltac no_other_bracket :=
  let j := fresh "j" in
  let H := fresh "H" in
  intros j H;
  do 8 (destruct j as [|j]; [ first [ reflexivity | exfalso; cbn in H; lra ] | ]);
  exfalso; destruct j; cbn in H; exact H.

Ltac settle_bracket i l :=
  exists i, l; split; [reflexivity|]; split; [cbn; lra|]; split;
  [ no_other_bracket | unfold cut_value; cbn; edges; reflexivity ].

Lemma age_partition (a : Q) :
  (0 <= a)%Q -> (a < 100)%Q -> one_bracket faixa_etaria_bins faixa_etaria_labels a.
Proof.
  intros H0 H100. unfold faixa_etaria_bins, faixa_etaria_labels.
  destruct (Qlt_le_dec a 18); [settle_bracket 0%nat "<18"|].
  destruct (Qlt_le_dec a 25); [settle_bracket 1%nat "18-24"|].
  destruct (Qlt_le_dec a 35); [settle_bracket 2%nat "25-34"|].
  destruct (Qlt_le_dec a 45); [settle_bracket 3%nat "35-44"|].
  destruct (Qlt_le_dec a 55); [settle_bracket 4%nat "45-54"|].
  destruct (Qlt_le_dec a 65); [settle_bracket 5%nat "55-64"|].
  settle_bracket 6%nat "65+".
Qed.

Lemma salary_partition (s : Q) :
  (0 <= s)%Q -> one_bracket faixa_salarial_bins faixa_salarial_labels s.
Proof.
  intros H0. unfold faixa_salarial_bins, faixa_salarial_labels.
  destruct (Qlt_le_dec s 1100); [settle_bracket 0%nat "Até 1 SM"|].
  destruct (Qlt_le_dec s 2200); [settle_bracket 1%nat "1-2 SM"|].
  destruct (Qlt_le_dec s 3300); [settle_bracket 2%nat "2-3 SM"|].
  destruct (Qlt_le_dec s 5000); [settle_bracket 3%nat "3-5 SM"|].
  destruct (Qlt_le_dec s 10000); [settle_bracket 4%nat "5-10 SM"|].
  settle_bracket 5%nat "10+ SM".
Qed.

(** *** Columns without any present value *)

(** C2.  A numeric column whose values are all missing is left as it is,
    but a categorical column whose values are all missing makes
    [process_data] raise: [mode()] is empty and [mode()[0]] is a
    [KeyError]. *)
Theorem all_missing_column :
  process_data [("categoria", Float64 [None; None])]
  = Ok [("categoria", Float64 [None; None])] /\
  process_data [("uf", Object [None; None])] = Raise KeyError /\
  process_data [("porte", Category ["ME"; "EPP"] [None; None])] = Raise KeyError.
Proof. repeat split; reflexivity. Qed.

(** *** Empty tables *)

Lemma filter_data_empty (filters : list (string * pyval)) :
  filter_data [] filters = Ok [].
Proof.
  unfold filter_data. induction filters as [|[column value] filters IH].
  - reflexivity.
  - cbn. exact IH.
Qed.

Lemma aggregate_by_period_empty (group_by metrics : list string) :
  aggregate_by_period [] group_by metrics = Ok [].
Proof.
  unfold aggregate_by_period.
  assert (H : forall l, filter (fun col => has_column col []) l = []).
  { induction l as [|x l IH]; [reflexivity|]. cbn. exact IH. }
  rewrite !H. reflexivity.
Qed.

(** C8.  On the empty table [process_data], [filter_data] and
    [aggregate_by_period] return the empty table, but
    [get_summary_statistics] raises: [describe()] refuses a frame without
    columns, and the same happens for a table without a numeric column. *)
Theorem summary_of_empty_table :
  get_summary_statistics [] = Raise ValueError /\
  get_summary_statistics [("uf", Object [])] = Raise ValueError /\
  process_data [] = Ok [] /\
  (forall filters, filter_data [] filters = Ok []) /\
  (forall group_by metrics, aggregate_by_period [] group_by metrics = Ok []).
Proof.
  split; [reflexivity|]. split; [reflexivity|]. split; [reflexivity|].
  split; [exact filter_data_empty | exact aggregate_by_period_empty].
Qed.

(** *** Bar chart *)

(** C9.  With a metric column and no grouping column the chart is handed
    the rows of the table as they are, two of them for [SP]; the mean per
    bucket, which the branch with a grouping column computes, is one row
    per bucket.  Without a metric the chart gets the row count per
    bucket. *)
Theorem bar_chart_metric_without_group :
  create_bar_chart bar_input "uf" (Some "salario") None "v" None
  = Ok (Bar bar_input "uf" "salario" None "v" "Salário por UF"
            [("uf", "UF"); ("salario", "Salário")]) /\
  group_means bar_input ["uf"] "salario"
  = Ok [("uf", Object [Some "RJ"; Some "SP"]);
        ("salario", Float64 [Some 500; Some 2000]%Q)] /\
  create_bar_chart bar_input "uf" None None "v" None
  = Ok (Bar [("uf", Object [Some "RJ"; Some "SP"]); ("count", Int64 [1; 2]%Z)]
            "uf" "count" None "v" "Contagem de UF"
            [("uf", "UF"); ("count", "count")]).
Proof. repeat split; reflexivity. Qed.

(** *** Running the pipeline twice *)

(** C6.  A table with every derived column on which a second run fails:
    the first run decodes the unknown sex code to a missing value, which
    leaves [sexo_desc] without any present value, and the second run raises
    on that column. *)
Theorem process_twice :
  process_data twice_input = Ok twice_output /\
  (r <- process_data twice_input ;; process_data r) = Raise KeyError.
Proof. split; reflexivity. Qed.

(** *** Frames, masks and rows *)

Lemma has_column_getitem (df : DataFrame) (col : string) :
  has_column col df = true <-> exists s, getitem df col = Ok s.
Proof.
  unfold has_column, columns. induction df as [|[n s] df IH]; cbn.
  - split; [discriminate | intros [s H]; discriminate].
  - rewrite String.eqb_sym. destruct (String.eqb n col); cbn.
    + split; [eauto | reflexivity].
    + exact IH.
Qed.

Lemma getitem_has_column (df : DataFrame) (col : string) (s : Series) :
  getitem df col = Ok s -> has_column col df = true.
Proof. intros H. apply has_column_getitem. eauto. Qed.

Lemma no_column_getitem (df : DataFrame) (col : string) :
  has_column col df = false -> getitem df col = Raise KeyError.
Proof.
  unfold has_column, columns. induction df as [|[n s] df IH]; cbn; [reflexivity|].
  rewrite String.eqb_sym. destruct (String.eqb n col); cbn; [discriminate | exact IH].
Qed.

Lemma getitem_In (df : DataFrame) (col : string) (s : Series) :
  getitem df col = Ok s -> In (col, s) df.
Proof.
  induction df as [|[n s0] df IH]; cbn; [discriminate|].
  destruct (String.eqb n col) eqn:E.
  - apply String.eqb_eq in E. intros [= ->]. left. now subst.
  - intros H. right. auto.
Qed.

Lemma columns_loc (df : DataFrame) (m : list bool) : columns (loc df m) = columns df.
Proof. unfold columns, loc. rewrite map_map. reflexivity. Qed.

Lemma getitem_loc (df : DataFrame) (m : list bool) (col : string) :
  getitem (loc df m) col = (s <- getitem df col ;; Ok (select s m)).
Proof.
  induction df as [|[n s] df IH]; cbn; [reflexivity|].
  destruct (String.eqb n col); [reflexivity | exact IH].
Qed.

Lemma mask_select_map {A B : Type} (f : A -> B) (m : list bool) (xs : list A) :
  mask_select m (map f xs) = map f (mask_select m xs).
Proof.
  revert xs. induction m as [|b m IH]; intros [|x xs]; cbn; try reflexivity.
  destruct b; cbn; now rewrite IH.
Qed.

Lemma cells_select (s : Series) (m : list bool) :
  cells (select s m) = mask_select m (cells s).
Proof. destruct s; cbn; now rewrite mask_select_map. Qed.

Lemma length_cells (s : Series) : List.length (cells s) = len s.
Proof. destruct s; cbn; apply length_map. Qed.

Lemma dtype_select (s : Series) (m : list bool) : dtype_of (select s m) = dtype_of s.
Proof. now destruct s. Qed.

Lemma mask_select_nil {A : Type} (m : list bool) : mask_select m (@nil A) = [].
Proof. now destruct m. Qed.

Lemma mask_select_compose {A : Type} (m1 m2 : list bool) (xs : list A) :
  List.length m2 = List.length m1 ->
  mask_select (mask_select m1 m2) (mask_select m1 xs) = mask_select (mask_and m1 m2) xs.
Proof.
  revert m2 xs. induction m1 as [|a m1 IH]; intros [|b m2] xs Hlen;
    cbn in *; try reflexivity; try discriminate.
  injection Hlen as Hlen. destruct xs as [|x xs].
  - now rewrite mask_select_nil.
  - destruct a; cbn.
    + destruct b; cbn; now rewrite IH.
    + now rewrite IH.
Qed.

Lemma mask_and_nil (m : list bool) : mask_and m [] = [].
Proof. now destruct m. Qed.

Lemma mask_and_map {A : Type} (p q : A -> bool) (l : list A) :
  mask_and (map p l) (map q l) = map (fun i => p i && q i) l.
Proof. induction l as [|x l IH]; cbn; [reflexivity | now rewrite IH]. Qed.

Lemma mask_and_assoc (a b c : list bool) :
  mask_and (mask_and a b) c = mask_and a (mask_and b c).
Proof.
  revert b c. induction a as [|x a IH]; intros [|y b] [|z c]; cbn; try reflexivity.
  now rewrite IH, andb_assoc.
Qed.

Lemma length_mask_and (a b : list bool) :
  List.length a = List.length b -> List.length (mask_and a b) = List.length a.
Proof.
  revert b. induction a as [|x a IH]; intros [|y b] H; cbn in *;
    try reflexivity; try discriminate.
  injection H as H. now rewrite IH.
Qed.

Lemma mask_and_true (m : list bool) (l : list nat) :
  List.length l = List.length m -> mask_and m (map (fun _ => true) l) = m.
Proof.
  revert l. induction m as [|x m IH]; intros [|y l] H; cbn in *;
    try reflexivity; try discriminate.
  injection H as H. now rewrite IH, andb_true_r.
Qed.

Lemma mask_select_true {A : Type} (xs : list A) (l : list nat) :
  List.length l = List.length xs -> mask_select (map (fun _ => true) l) xs = xs.
Proof.
  revert l. induction xs as [|x xs IH]; intros [|y l] H; cbn in *;
    try reflexivity; try discriminate.
  injection H as H. now rewrite IH.
Qed.

Lemma map_nth_seq {A B : Type} (g : A -> B) (l : list A) (d : A) :
  map g l = map (fun i => g (nth i l d)) (seq 0 (List.length l)).
Proof.
  induction l as [|x l IH]; cbn; [reflexivity|].
  f_equal. rewrite <- seq_shift, map_map. exact IH.
Qed.

Lemma select_select (s : Series) (m1 m2 : list bool) :
  List.length m2 = List.length m1 ->
  select (select s m1) (mask_select m1 m2) = select s (mask_and m1 m2).
Proof. intros H. destruct s; cbn; now rewrite mask_select_compose. Qed.

Lemma loc_loc (df : DataFrame) (m1 m2 : list bool) :
  List.length m2 = List.length m1 ->
  loc (loc df m1) (mask_select m1 m2) = loc df (mask_and m1 m2).
Proof.
  intros H. unfold loc. rewrite map_map. apply map_ext.
  intros [n s]. cbn. now rewrite select_select.
Qed.

Lemma select_all (s : Series) (l : list nat) :
  List.length l = len s -> select s (map (fun _ => true) l) = s.
Proof. intros H. destruct s; cbn in *; now rewrite mask_select_true. Qed.

Lemma loc_all (df : DataFrame) :
  uniform df -> loc df (map (fun _ => true) (seq 0 (nrows df))) = df.
Proof.
  intros U. unfold loc. rewrite <- (map_id df) at 2. apply map_ext_in.
  intros [n s] Hin. cbn. rewrite select_all; [reflexivity|].
  rewrite length_seq. symmetry. exact (U _ Hin).
Qed.

(** *** Filtering *)

Lemma satisfies_item_test (df : DataFrame) (i : nat) (column : string) (value : pyval) :
  satisfies df i (column, value)
  = match getitem df column with
    | Ok s => cell_test (item_test value) (iloc s i)
    | Raise _ => true
    end.
Proof.
  unfold satisfies, item_test. cbn [fst snd].
  destruct (getitem df column); [|reflexivity]. now destruct (shape value).
Qed.

Lemma compare_num_numeric (op : Q -> Q -> bool) (s : Series) (v : Q) :
  dtype_of s = int64 \/ dtype_of s = float64 ->
  compare_num op s v
  = Ok (map (cell_test (fun c => match c with Num q => op q v | _ => false end)) (cells s)).
Proof.
  intros [H|H]; destruct s; try discriminate; cbn; rewrite map_map; f_equal.
  apply map_ext. now intros [q|].
Qed.

Lemma range_mask (s : Series) (lo hi : Q) :
  dtype_of s = int64 \/ dtype_of s = float64 ->
  (m1 <- ge s lo ;; m2 <- le s hi ;; Ok (mask_and m1 m2))
  = Ok (map (cell_test (in_range lo hi)) (cells s)).
Proof.
  intros H. unfold ge, le. rewrite !compare_num_numeric by exact H. cbn.
  rewrite mask_and_map. f_equal. apply map_ext.
  intros [[q| | |]|]; reflexivity.
Qed.

Lemma tuple_mask (s : Series) (l : list pyval) :
  dtype_of s = object \/ dtype_of s = category ->
  eq s (PyTuple l) = Ok (map (cell_test (fun c => cell_eq c (PyTuple l))) (cells s)).
Proof.
  intros [H|H]; destruct s; try discriminate; cbn; rewrite map_map; f_equal;
    apply map_ext; now intros [x|].
Qed.

Lemma isin_mask (s : Series) (l : list pyval) :
  (dtype_of s = category -> existsb is_list l = false) ->
  isin s l = Ok (map (cell_test (member_test s l)) (cells s)).
Proof.
  intros H. unfold isin, member_test. destruct s; try reflexivity.
  - now rewrite H.
  - destruct (all_dates l); [reflexivity|].
    cbn [cells]. rewrite map_map. f_equal. apply map_ext. now intros [x|].
Qed.

(** What one turn of the loop does with a column that is present. *)
Lemma apply_filter_present (cur : DataFrame) (column : string) (value : pyval) (s : Series) :
  getitem cur column = Ok s ->
  match shape value with
  | Range _ _ => dtype_of s = int64 \/ dtype_of s = float64
  | Member l => dtype_of s = category -> existsb is_list l = false
  | Equal (PyTuple _) => dtype_of s = object \/ dtype_of s = category
  | Equal _ => True
  end ->
  apply_filter cur (column, value)
  = Ok (loc cur (map (cell_test (column_test s value)) (cells s))).
Proof.
  intros Hget Hty. unfold apply_filter.
  rewrite (getitem_has_column _ _ _ Hget), Hget. cbn [negb bind].
  assert (Hrange : forall lo hi,
             dtype_of s = int64 \/ dtype_of s = float64 ->
             (m1 <- ge s lo ;; m2 <- le s hi ;; Ok (loc cur (mask_and m1 m2)))
             = Ok (loc cur (map (cell_test (in_range lo hi)) (cells s)))).
  { intros lo hi H. pose proof (range_mask s lo hi H) as R.
    destruct (ge s lo) as [m1|]; [|discriminate]. cbn in *.
    destruct (le s hi) as [m2|]; [|discriminate]. cbn in *.
    now injection R as ->. }
  assert (Hmember : forall l,
             (dtype_of s = category -> existsb is_list l = false) ->
             (m <- isin s l ;; Ok (loc cur m))
             = Ok (loc cur (map (cell_test (member_test s l)) (cells s)))).
  { intros l H. now rewrite (isin_mask s l H). }
  unfold column_test, item_test.
  destruct value as [q|t|l|l]; [reflexivity | reflexivity | | ];
    destruct l as [|a [|b [|c l]]]; try destruct a; try destruct b;
    cbn -[eq isin member_test] in Hty |- *;
    first [ now apply Hrange
          | now apply Hmember
          | rewrite tuple_mask by exact Hty; reflexivity ].
Qed.

Lemma row_mask_seq (s : Series) (t : scalar -> bool) :
  map (cell_test t) (cells s)
  = map (fun i => cell_test t (iloc s i)) (seq 0 (len s)).
Proof.
  rewrite <- length_cells. unfold iloc. apply map_nth_seq.
Qed.

Lemma column_test_select (s : Series) (m : list bool) (value : pyval) :
  column_test (select s m) value = column_test s value.
Proof. unfold column_test. destruct (shape value); try reflexivity. now destruct s. Qed.

Lemma keeps_column (df : DataFrame) (i : nat) (column : string) (value : pyval) :
  keeps df i (column, value)
  = match getitem df column with
    | Ok s => cell_test (column_test s value) (iloc s i)
    | Raise _ => true
    end.
Proof. unfold keeps. cbn [fst snd]. now destruct (getitem df column). Qed.

Lemma filter_loop (df : DataFrame) (filters : list (string * pyval)) :
  uniform df ->
  Forall (evaluable df) filters ->
  forall m : list bool,
    List.length m = nrows df ->
    for_each apply_filter filters (loc df m)
    = Ok (loc df (mask_and m (map (fun i => forallb (keeps df i) filters)
                                  (seq 0 (nrows df))))).
Proof.
  intros U Hty. induction Hty as [|[column value] filters Hitem Hrest IH]; intros m Hm.
  - cbn. rewrite mask_and_true; [reflexivity|]. now rewrite length_seq.
  - cbn [for_each forallb].
    destruct (has_column column df) eqn:Hcol.
    + apply has_column_getitem in Hcol as [s Hget].
      assert (Hlen : len s = nrows df) by exact (U _ (getitem_In _ _ _ Hget)).
      assert (Hget' : getitem (loc df m) column = Ok (select s m))
        by (rewrite getitem_loc, Hget; reflexivity).
      rewrite (apply_filter_present _ _ _ _ Hget').
      2:{ specialize (Hitem s Hget). cbn [fst snd] in Hitem.
          rewrite dtype_select. exact Hitem. }
      cbn [bind].
      rewrite column_test_select, cells_select, <- mask_select_map, loc_loc.
      2:{ rewrite length_map, length_cells. congruence. }
      rewrite IH.
      2:{ rewrite length_mask_and; [exact Hm|].
          rewrite length_map, length_cells. congruence. }
      rewrite mask_and_assoc, row_mask_seq, Hlen, mask_and_map.
      do 3 f_equal. apply map_ext. intros i.
      rewrite keeps_column, Hget. reflexivity.
    + unfold apply_filter at 1. unfold has_column in *. rewrite columns_loc, Hcol.
      cbn [negb bind]. rewrite IH by exact Hm.
      do 3 f_equal. apply map_ext. intros i.
      rewrite keeps_column, no_column_getitem by exact Hcol. reflexivity.
Qed.

Lemma well_typed_evaluable (df : DataFrame) (item : string * pyval) :
  well_typed df item -> evaluable df item.
Proof.
  intros H s Hs. specialize (H s Hs).
  destruct (shape (snd item)) as [lo hi|l|v]; [exact H | intros _; exact H |].
  destruct v; auto.
Qed.

Lemma hashable_not_list (l : list pyval) :
  forallb hashable l = true -> existsb is_list l = false.
Proof.
  induction l as [|v l IH]; [reflexivity|]. cbn [forallb existsb].
  intros H. apply andb_prop in H as [Hv Hl]. rewrite (IH Hl).
  now destruct v.
Qed.

Lemma comparable_evaluable (df : DataFrame) (item : string * pyval) :
  comparable df item -> evaluable df item.
Proof.
  intros H s Hs. destruct (H s Hs) as (_ & _ & Hc).
  destruct (shape (snd item)) as [lo hi|l|v]; [exact Hc | |].
  - intros Hcat. apply hashable_not_list. now apply (proj2 Hc).
  - destruct v; auto. destruct Hc as [Hc|[Hc _]]; auto.
Qed.

(** A row passes a comparable entry exactly when it satisfies it. *)
Lemma keeps_satisfies (df : DataFrame) (i : nat) (item : string * pyval) :
  comparable df item -> keeps df i item = satisfies df i item.
Proof.
  intros H. destruct item as [column value].
  rewrite satisfies_item_test, keeps_column.
  destruct (getitem df column) as [s|] eqn:Hs; [|reflexivity].
  destruct (H s Hs) as (_ & _ & Hc). cbn [fst snd] in Hc.
  unfold column_test, item_test.
  destruct (shape value) as [lo hi|l|v] eqn:Sh; try reflexivity.
  unfold member_test. destruct s; try reflexivity.
  destruct (all_dates l) eqn:Hd; [reflexivity|].
  assert (Hn : existsb is_str l = false) by (apply (proj1 Hc); reflexivity).
  unfold iloc. cbn [cells].
  destruct (nth i (map (option_map Dt) xs) None) as [c|] eqn:Hc'; [|reflexivity].
  assert (Hdt : exists d, c = Dt d).
  { assert (Hin : In (Some c) (map (option_map Dt) xs)).
    { rewrite <- Hc'. apply nth_In.
      destruct (Nat.lt_ge_cases i (List.length (map (option_map Dt) xs))) as [L|L];
        [exact L|]. rewrite nth_overflow in Hc' by exact L. discriminate. }
    apply in_map_iff in Hin as ([d|] & Hd' & _); [|discriminate].
    injection Hd' as <-. eauto. }
  destruct Hdt as [d ->]. cbn [cell_test]. symmetry.
  clear -Hn. induction l as [|v l IH]; [reflexivity|].
  cbn [existsb] in *. apply orb_false_elim in Hn as [Hv Hl].
  rewrite (IH Hl), orb_false_r. now destruct v.
Qed.

(** C5, as the code has it.  For a table whose columns have one length:
    when every entry compares like with like (a range goes with a numeric
    column, numbers are floats, a string is not compared with a timestamp,
    a tuple is compared with strings or categories only), [filter_data]
    returns exactly the rows that satisfy every entry of the mapping, a
    pair of two numbers being a closed range, any other list a set of
    admitted values and any other value a value to be equal to; a value
    that is itself a list or a tuple is equal to no cell; entries for
    columns that the table lacks are ignored. *)
Theorem filter_conjunction (df : DataFrame) (filters : list (string * pyval)) :
  uniform df ->
  Forall (comparable df) filters ->
  filter_data df filters
  = Ok (rows_where df (fun i => forallb (satisfies df i) filters)).
Proof.
  intros U Hty. unfold filter_data, rows_where.
  rewrite <- (loc_all df U) at 1.
  rewrite (filter_loop df filters U) by
    (try (eapply Forall_impl; [|exact Hty]; apply comparable_evaluable);
     now rewrite length_map, length_seq).
  do 2 f_equal.
  rewrite mask_and_map. apply map_ext. intros i. cbn [andb].
  clear U. induction Hty as [|item filters Hitem _ IH]; [reflexivity|].
  cbn [forallb]. now rewrite IH, (keeps_satisfies df i item Hitem).
Qed.

Lemma filter_conjunction_witness :
  filter_data fixture fixture_filters
  = Ok [("salario", Float64 [Some 1000; Some 2000; Some 1200]%Q);
        ("uf", Object [Some "SP"; Some "RJ"; Some "RJ"])].
Proof.
  assert (U : uniform fixture).
  { intros c [<-|[<-|[]]]; reflexivity. }
  assert (T : Forall (comparable fixture) fixture_filters).
  { repeat apply Forall_cons; try apply Forall_nil;
      intros s H; cbn in H; try discriminate;
      injection H as <-;
      (split; [vm_compute; reflexivity|split; [vm_compute; reflexivity|]]);
      cbn; auto; split; discriminate. }
  rewrite (filter_conjunction fixture fixture_filters U T).
  reflexivity.
Defined.

(** A range on a column of strings raises instead of selecting rows. *)
Lemma filter_range_on_strings :
  filter_data states [("uf", PyList [PyNum 1000; PyNum 2000])] = Raise TypeError /\
  filter_data states [("uf", PyList [PyNum 1000; PyNum 2000])]
  <> Ok (rows_where states
           (fun i => forallb (satisfies states i) [("uf", PyList [PyNum 1000; PyNum 2000])])).
Proof. split; [reflexivity | discriminate]. Qed.

(** *** Tuples and lists as filter values *)

Lemma numeric_pair_iff (value : pyval) (lo hi : Q) :
  numeric_pair value = Some (lo, hi) <->
  value = PyList [PyNum lo; PyNum hi] \/ value = PyTuple [PyNum lo; PyNum hi].
Proof.
  split.
  - unfold numeric_pair, as_sequence.
    destruct value as [q|t|l|l]; try discriminate;
      destruct l as [|x [|y [|z l]]]; try discriminate;
      destruct x; try discriminate; destruct y; try discriminate;
      intros [= -> ->]; auto.
  - intros [->| ->]; reflexivity.
Qed.

Lemma mask_select_filter {A : Type} (p : A -> bool) (xs : list A) :
  mask_select (map p xs) xs = filter p xs.
Proof.
  induction xs as [|x xs IH]; cbn; [reflexivity|].
  destruct (p x); now rewrite IH.
Qed.

(** C10, as the code has it.  The range branch is taken exactly for a
    list or a tuple of two numbers.  Any other tuple goes to the equality
    branch and any other list to the membership branch.  On a column of
    strings the tuple [(a, b)] is compared as a whole with each cell and
    selects no row, while the list [[a, b]] selects the rows whose cell is
    [a] or [b]: the two results differ exactly when such a row exists. *)
Theorem tuple_versus_list (df : DataFrame) (col : string)
        (xs : list (option string)) (a b : string) :
  getitem df col = Ok (Object xs) ->
  (forall value lo hi,
      numeric_pair value = Some (lo, hi) <->
      value = PyList [PyNum lo; PyNum hi] \/ value = PyTuple [PyNum lo; PyNum hi]) /\
  (forall l, numeric_pair (PyTuple l) = None ->
             apply_filter df (col, PyTuple l)
             = (m <- eq (Object xs) (PyTuple l) ;; Ok (loc df m))) /\
  (forall l, numeric_pair (PyList l) = None ->
             apply_filter df (col, PyList l)
             = (m <- isin (Object xs) l ;; Ok (loc df m))) /\
  filter_data df [(col, PyTuple [PyStr a; PyStr b])]
  = Ok (loc df (map (fun _ => false) xs)) /\
  filter_data df [(col, PyList [PyStr a; PyStr b])]
  = Ok (loc df (map (one_of a b) xs)) /\
  (filter_data df [(col, PyList [PyStr a; PyStr b])]
   <> filter_data df [(col, PyTuple [PyStr a; PyStr b])]
   <-> In (Some a) xs \/ In (Some b) xs).
Proof.
  intros Hget.
  assert (Hcol : has_column col df = true) by exact (getitem_has_column _ _ _ Hget).
  assert (Htuple : filter_data df [(col, PyTuple [PyStr a; PyStr b])]
                   = Ok (loc df (map (fun _ => false) xs))).
  { unfold filter_data. cbn. rewrite Hcol, Hget. reflexivity. }
  assert (Hlist : filter_data df [(col, PyList [PyStr a; PyStr b])]
                  = Ok (loc df (map (one_of a b) xs))).
  { unfold filter_data. cbn. rewrite Hcol, Hget. cbn. rewrite map_map.
    do 2 f_equal. apply map_ext. intros [s|]; cbn; [|reflexivity].
    now rewrite orb_false_r. }
  split; [exact numeric_pair_iff|].
  split.
  { intros l Hl. unfold apply_filter. rewrite Hcol, Hget, Hl. reflexivity. }
  split.
  { intros l Hl. unfold apply_filter. rewrite Hcol, Hget, Hl. reflexivity. }
  split; [exact Htuple|]. split; [exact Hlist|].
  rewrite Htuple, Hlist. split.
  - intros Hne.
    assert (D : forall x y : option string, {x = y} + {x <> y})
      by (decide equality; apply string_dec).
    destruct (in_dec D (Some a) xs) as [Ha|Ha]; [now left|].
    destruct (in_dec D (Some b) xs) as [Hb|Hb]; [now right|].
    exfalso. apply Hne. do 2 f_equal. apply map_ext_in. intros [s|] Hs; [|reflexivity].
    cbn. destruct (String.eqb s a) eqn:Ea.
    + apply String.eqb_eq in Ea. subst s. contradiction.
    + destruct (String.eqb s b) eqn:Eb; [|reflexivity].
      apply String.eqb_eq in Eb. subst s. contradiction.
  - intros Hin [= E].
    assert (G : getitem (loc df (map (one_of a b) xs)) col
                = getitem (loc df (map (fun _ => false) xs)) col) by now rewrite E.
    rewrite !getitem_loc, Hget in G. cbn in G. injection G as G.
    rewrite !mask_select_filter in G.
    assert (N : forall c, In c xs -> one_of a b c = true -> False).
    { intros c Hc Hp.
      assert (Hf : In c (filter (one_of a b) xs)) by (apply filter_In; auto).
      rewrite G in Hf. apply filter_In in Hf. destruct Hf as [_ Hf]. discriminate. }
    destruct Hin as [H|H]; apply (N _ H); cbn.
    + now rewrite String.eqb_refl.
    + now rewrite String.eqb_refl, orb_true_r.
Qed.

Lemma tuple_versus_list_witness :
  filter_data states [("uf", PyList [PyStr "SP"; PyStr "MG"])]
  <> filter_data states [("uf", PyTuple [PyStr "SP"; PyStr "MG"])].
Proof.
  apply (tuple_versus_list states "uf" [Some "SP"; Some "RJ"] "SP" "MG").
  - reflexivity.
  - left. left. reflexivity.
Defined.

(** A list and a tuple of two strings that no row holds select the same
    rows, none: here they do not differ. *)
Lemma tuple_and_list_select_alike :
  filter_data states [("uf", PyList [PyStr "MG"; PyStr "BA"])] = Ok [("uf", Object [])] /\
  filter_data states [("uf", PyTuple [PyStr "MG"; PyStr "BA"])] = Ok [("uf", Object [])] /\
  ~ (filter_data states [("uf", PyList [PyStr "MG"; PyStr "BA"])]
     <> filter_data states [("uf", PyTuple [PyStr "MG"; PyStr "BA"])]).
Proof.
  split; [reflexivity|]. split; [reflexivity|]. intros H. apply H. reflexivity.
Qed.

(** *** Loops over the columns of a table *)

Lemma getitem_app_skip (pre rest : DataFrame) (col : string) :
  ~ In col (columns pre) -> getitem (pre ++ rest) col = getitem rest col.
Proof.
  induction pre as [|[n s] pre IH]; cbn; [reflexivity|].
  intros H. destruct (String.eqb n col) eqn:E.
  - apply String.eqb_eq in E. exfalso. apply H. now left.
  - apply IH. intros H'. apply H. now right.
Qed.

Lemma setitem_app_skip (pre rest : DataFrame) (col : string) (s : Series) :
  ~ In col (columns pre) -> setitem (pre ++ rest) col s = pre ++ setitem rest col s.
Proof.
  induction pre as [|[n s0] pre IH]; cbn; [reflexivity|].
  intros H. destruct (String.eqb n col) eqn:E.
  - apply String.eqb_eq in E. exfalso. apply H. now left.
  - f_equal. apply IH. intros H'. apply H. now right.
Qed.

Lemma setitem_same (df : DataFrame) (col : string) (s : Series) :
  getitem df col = Ok s -> setitem df col s = df.
Proof.
  induction df as [|[n s0] df IH]; cbn; [discriminate|].
  destruct (String.eqb n col); [now intros [= ->] | intros H; now rewrite IH].
Qed.

Lemma NoDup_app_head (pre rest : DataFrame) (n : string) (s : Series) :
  NoDup (columns (pre ++ (n, s) :: rest)) -> ~ In n (columns pre).
Proof.
  unfold columns. rewrite map_app. cbn. intros H Hin.
  apply NoDup_remove_2 in H. apply H. apply in_or_app. now left.
Qed.

Lemma columns_app_assoc (pre rest : DataFrame) (c c' : string * Series) :
  fst c' = fst c ->
  columns ((pre ++ [c']) ++ rest) = columns (pre ++ c :: rest).
Proof.
  intros H. rewrite <- app_assoc. unfold columns. rewrite !map_app. cbn. now rewrite H.
Qed.

Section ColumnLoop.
  Variable f : Series -> result Series.
  Variable P : Series -> bool.

Lemma column_loop_from (rest pre : DataFrame) :
  NoDup (columns (pre ++ rest)) ->
  for_each (update_column f) (columns (filter (fun c => P (snd c)) rest)) (pre ++ rest)
  = (rest' <- map_result (on_selected f P) rest ;; Ok (pre ++ rest')).
Proof.
  revert pre. induction rest as [|[n s] rest IH]; intros pre ND.
  - reflexivity.
  - pose proof (NoDup_app_head _ _ _ _ ND) as Hn.
    cbn [filter snd map_result]. unfold on_selected at 1. cbn [fst snd].
    destruct (P s) eqn:HP.
    + cbn [columns map fst for_each]. unfold update_column at 1.
      rewrite getitem_app_skip by exact Hn. cbn [getitem]. rewrite String.eqb_refl.
      cbn [bind]. destruct (f s) as [s'|e]; [|reflexivity]. cbn [bind].
      rewrite setitem_app_skip by exact Hn. cbn [setitem]. rewrite String.eqb_refl.
      change (pre ++ (n, s') :: rest) with (pre ++ [(n, s')] ++ rest).
      rewrite app_assoc.
      fold (columns (filter (fun c => P (snd c)) rest)).
      rewrite IH.
      * destruct (map_result (on_selected f P) rest); cbn; [|reflexivity].
        now rewrite <- app_assoc.
      * rewrite (columns_app_assoc pre rest (n, s) (n, s')); [exact ND | reflexivity].
    + change (pre ++ (n, s) :: rest) with (pre ++ [(n, s)] ++ rest).
      rewrite app_assoc. rewrite IH.
      * cbn [bind]. destruct (map_result (on_selected f P) rest); cbn; [|reflexivity].
        now rewrite <- app_assoc.
      * rewrite <- app_assoc. exact ND.
Qed.

Lemma column_loop (df : DataFrame) (include : list dtype) :
  NoDup (columns df) ->
  (forall s, P s = existsb (dtype_eqb (dtype_of s)) include) ->
  for_each (update_column f) (select_dtypes include df) df = map_result (on_selected f P) df.
Proof.
  intros ND HP. unfold select_dtypes.
  rewrite (filter_ext _ (fun c => P (snd c))) by (intros c; now rewrite HP).
  pose proof (column_loop_from df [] ND) as H. cbn [app] in H. rewrite H.
  now destruct (map_result (on_selected f P) df).
Qed.

End ColumnLoop.

(** *** Imputation, column by column *)

Lemma for_each_ext {A S : Type} (body1 body2 : S -> A -> result S) (xs : list A) (s : S) :
  (forall s x, body1 s x = body2 s x) ->
  for_each body1 xs s = for_each body2 xs s.
Proof.
  intros H. revert s. induction xs as [|x xs IH]; intros s; cbn; [reflexivity|].
  rewrite H. destruct (body2 s x); cbn; [apply IH | reflexivity].
Qed.

Lemma fill_median_update (df : DataFrame) (col : string) :
  fill_median df col = update_column impute_numeric df col.
Proof.
  unfold fill_median, update_column, impute_numeric.
  destruct (getitem df col) as [s|e] eqn:Hget; cbn [bind]; [|reflexivity].
  destruct (0 <? isnull_sum s)%nat; cbn [bind].
  - now destruct (median s).
  - now rewrite (setitem_same _ _ _ Hget).
Qed.

Lemma fill_mode_update (df : DataFrame) (col : string) :
  fill_mode df col = update_column impute_categorical df col.
Proof.
  unfold fill_mode, update_column, impute_categorical.
  destruct (getitem df col) as [s|e] eqn:Hget; cbn [bind]; [|reflexivity].
  destruct (0 <? isnull_sum s)%nat; cbn [bind].
  - now destruct (mode_0 s).
  - now rewrite (setitem_same _ _ _ Hget).
Qed.

Lemma map_result_ok {A B : Type} (g : A -> B) (f : A -> result B) (l : list A) :
  (forall x, In x l -> f x = Ok (g x)) -> map_result f l = Ok (map g l).
Proof.
  induction l as [|x l IH]; intros H; cbn; [reflexivity|].
  rewrite (H x) by now left. cbn. rewrite IH; [reflexivity|].
  intros y Hy. apply H. now right.
Qed.

Lemma map_result_map {A B C : Type} (g : A -> B) (f : B -> result C) (l : list A) :
  map_result f (map g l) = map_result (fun x => f (g x)) l.
Proof.
  induction l as [|x l IH]; cbn; [reflexivity|]. now rewrite IH.
Qed.

Lemma map_result_ext {A B : Type} (f g : A -> result B) (l : list A) :
  (forall x, f x = g x) -> map_result f l = map_result g l.
Proof.
  intros H. induction l as [|x l IH]; cbn; [reflexivity|]. now rewrite H, IH.
Qed.

(** The first loop never raises. *)
Lemma impute_numeric_total (s : Series) :
  is_numeric s = true ->
  exists s', impute_numeric s = Ok s' /\ is_categorical s' = false.
Proof.
  unfold impute_numeric. destruct s; try discriminate; intros _.
  - cbn. eauto.
  - cbn [isnull_sum]. destruct (0 <? count_null xs)%nat; cbn; eauto.
Qed.

Lemma first_loop (df : DataFrame) :
  map_result (on_selected impute_numeric is_numeric) df = Ok (map after_first_loop df).
Proof.
  apply map_result_ok. intros [n s] _. unfold after_first_loop, on_selected. cbn [fst snd].
  destruct (is_numeric s) eqn:E; [|reflexivity].
  destruct (impute_numeric_total s E) as (s' & -> & _). reflexivity.
Qed.

Lemma columns_after_first_loop (df : DataFrame) :
  columns (map after_first_loop df) = columns df.
Proof.
  unfold columns. rewrite map_map. apply map_ext.
  intros [n s]. unfold after_first_loop, on_selected. cbn [fst snd].
  destruct (is_numeric s); [|reflexivity].
  now destruct (impute_numeric s).
Qed.

Lemma second_loop (c : string * Series) :
  on_selected impute_categorical is_categorical (after_first_loop c) = impute_column c.
Proof.
  destruct c as [n s]. unfold after_first_loop, on_selected, impute_column, impute.
  cbn [fst snd].
  destruct (is_numeric s) eqn:E.
  - destruct (impute_numeric_total s E) as (s' & -> & Hc). cbn [fst snd bind].
    now rewrite Hc.
  - cbn [fst snd]. now destruct (is_categorical s).
Qed.

(** [_handle_missing_values] imputes the columns one by one, from the
    first to the last. *)
Lemma handle_missing_values_columns (df : DataFrame) :
  NoDup (columns df) ->
  _handle_missing_values df = map_result impute_column df.
Proof.
  intros ND. unfold _handle_missing_values.
  rewrite (for_each_ext fill_median (update_column impute_numeric))
    by exact fill_median_update.
  rewrite (column_loop impute_numeric is_numeric df [int64; float64] ND)
    by reflexivity.
  rewrite first_loop. cbn [bind].
  rewrite (for_each_ext fill_mode (update_column impute_categorical))
    by exact fill_mode_update.
  rewrite (column_loop impute_categorical is_categorical _ [object; category])
    by (rewrite ?columns_after_first_loop; auto).
  rewrite map_result_map. apply map_result_ext. exact second_loop.
Qed.

(** *** Sorting *)

Section Sorting.
  Context {A : Type} (leb : A -> A -> bool).
  Hypothesis leb_total : forall a b, leb a b = true \/ leb b a = true.
  Hypothesis leb_trans : forall a b c, leb a b = true -> leb b c = true -> leb a c = true.

Lemma insert_sorted_perm (x : A) (l : list A) :
  Permutation (x :: l) (insert_sorted leb x l).
Proof.
  induction l as [|y l IH]; cbn; [reflexivity|].
  destruct (leb x y); [reflexivity|].
  rewrite perm_swap. now apply perm_skip.
Qed.

Lemma sort_by_perm (l : list A) : Permutation l (sort_by leb l).
Proof.
  induction l as [|x l IH]; cbn; [reflexivity|].
  rewrite <- insert_sorted_perm. now apply perm_skip.
Qed.

Lemma insert_sorted_sorted (x : A) (l : list A) :
  StronglySorted (fun a b => leb a b = true) l ->
  StronglySorted (fun a b => leb a b = true) (insert_sorted leb x l).
Proof.
  induction 1 as [|y l Hs IH Hall]; cbn.
  - constructor; constructor.
  - destruct (leb x y) eqn:E.
    + constructor; [now constructor|].
      constructor; [exact E|].
      eapply Forall_impl; [|exact Hall]. intros z Hz. cbn in Hz. eauto.
    + constructor; [exact IH|].
      apply (Permutation_Forall (insert_sorted_perm x l)).
      constructor; [|exact Hall].
      destruct (leb_total x y) as [H|H]; [congruence | exact H].
Qed.

Lemma sort_by_sorted (l : list A) :
  StronglySorted (fun a b => leb a b = true) (sort_by leb l).
Proof.
  induction l as [|x l IH]; cbn; [constructor | now apply insert_sorted_sorted].
Qed.

(** The head of the sorted list is a least element. *)
Lemma sort_by_head (l : list A) (m : A) (t : list A) :
  sort_by leb l = m :: t ->
  In m l /\ forall v, In v l -> leb m v = true.
Proof.
  intros E. pose proof (sort_by_perm l) as Hp. pose proof (sort_by_sorted l) as Hs.
  rewrite E in Hp, Hs. split.
  - apply (Permutation_in _ (Permutation_sym Hp)). now left.
  - intros v Hv. apply (Permutation_in _ Hp) in Hv.
    apply StronglySorted_inv in Hs as [_ Hall].
    destruct Hv as [<-|Hv].
    + destruct (leb_total m m); assumption.
    + rewrite Forall_forall in Hall. now apply Hall.
Qed.

End Sorting.

Lemma sort_by_length {A : Type} (leb : A -> A -> bool) (l : list A) :
  List.length (sort_by leb l) = List.length l.
Proof. symmetry. apply Permutation_length, sort_by_perm. Qed.

Lemma Qle_bool_total (a b : Q) : Qle_bool a b = true \/ Qle_bool b a = true.
Proof.
  destruct (Qlt_le_dec b a) as [H|H].
  - right. apply Qle_bool_iff. now apply Qlt_le_weak.
  - left. now apply Qle_bool_iff.
Qed.

Lemma Qle_bool_trans (a b c : Q) :
  Qle_bool a b = true -> Qle_bool b c = true -> Qle_bool a c = true.
Proof. rewrite !Qle_bool_iff. apply Qle_trans. Qed.

Lemma sort_Q_sorted (l : list Q) : StronglySorted Qle (sort_by Qle_bool l).
Proof.
  pose proof (sort_by_sorted Qle_bool Qle_bool_total Qle_bool_trans l) as H.
  induction H as [|x s Hs IH Hall]; constructor; [exact IH|].
  eapply Forall_impl; [|exact Hall]. intros y Hy. now apply Qle_bool_iff.
Qed.

(** *** Order of strings *)

Lemma ascii_compare_refl (a : ascii) : Ascii.compare a a = Eq.
Proof. unfold Ascii.compare. apply N.compare_refl. Qed.

Lemma ascii_compare_lt_trans (a b c : ascii) :
  Ascii.compare a b = Lt -> Ascii.compare b c = Lt -> Ascii.compare a c = Lt.
Proof. unfold Ascii.compare. rewrite !N.compare_lt_iff. apply N.lt_trans. Qed.

Lemma string_compare_lt_trans (s1 s2 s3 : string) :
  String.compare s1 s2 = Lt -> String.compare s2 s3 = Lt -> String.compare s1 s3 = Lt.
Proof.
  revert s2 s3. induction s1 as [|a s1 IH]; intros [|b s2] [|c s3]; cbn;
    try discriminate; try reflexivity.
  destruct (Ascii.compare a b) eqn:Hab; try discriminate;
    destruct (Ascii.compare b c) eqn:Hbc; try discriminate; intros H1 H2.
  - apply Ascii.compare_eq_iff in Hab, Hbc. subst.
    rewrite ascii_compare_refl. eauto.
  - apply Ascii.compare_eq_iff in Hab. subst. now rewrite Hbc.
  - apply Ascii.compare_eq_iff in Hbc. subst. now rewrite Hab.
  - now rewrite (ascii_compare_lt_trans a b c).
Qed.

Lemma string_leb_trans (s1 s2 s3 : string) :
  String.leb s1 s2 = true -> String.leb s2 s3 = true -> String.leb s1 s3 = true.
Proof.
  unfold String.leb.
  destruct (String.compare s1 s2) eqn:H12; try discriminate;
    destruct (String.compare s2 s3) eqn:H23; try discriminate; intros _ _.
  - apply String.compare_eq_iff in H12. subst. now rewrite H23.
  - apply String.compare_eq_iff in H12. subst. now rewrite H23.
  - apply String.compare_eq_iff in H23. subst. now rewrite H12.
  - now rewrite (string_compare_lt_trans s1 s2 s3).
Qed.

(** *** Floats *)












(** *** Median and mode *)

Lemma median_of_nil : median_of [] = None.
Proof. reflexivity. Qed.

Lemma median_of_spec (vals : list Q) :
  vals <> [] -> exists m, median_of vals = Some m /\ is_median vals m.
Proof.
  intros Hne. unfold median_of, is_median, middle_of.
  pose proof (sort_by_perm Qle_bool vals) as Hp.
  pose proof (sort_Q_sorted vals) as Hs.
  set (s := sort_by Qle_bool vals) in *.
  destruct (List.length s) as [|k] eqn:Hn.
  - exfalso. apply Hne. apply Permutation_length in Hp. rewrite Hn in Hp.
    now apply length_zero_iff_nil.
  - destruct (Nat.even (S k)) eqn:Hev.
    + eexists. split; [reflexivity|]. exists s. repeat split; try assumption.
      rewrite Hn, Hev. reflexivity.
    + eexists. split; [reflexivity|]. exists s. repeat split; try assumption.
      now rewrite Hn, Hev.
Qed.

Lemma count_str_notin (v : string) (l : list string) : ~ In v l -> count_str v l = 0.
Proof.
  induction l as [|x l IH]; cbn; [reflexivity|]. intros H.
  destruct (String.eqb x v) eqn:E.
  - apply String.eqb_eq in E. exfalso. apply H. now left.
  - apply IH. intros H'. apply H. now right.
Qed.

Lemma dedup_In (v : string) (l : list string) : In v (dedup l) <-> In v l.
Proof.
  induction l as [|x l IH]; cbn; [reflexivity|].
  rewrite filter_In, IH. split.
  - intros [H|[H _]]; auto.
  - intros [H|H]; [now left|].
    destruct (String.eqb x v) eqn:E.
    + apply String.eqb_eq in E. now left.
    + right. now split.
Qed.

Lemma list_max_ge (x : nat) (l : list nat) : In x l -> x <= list_max l.
Proof.
  intros H. pose proof (proj1 (list_max_le l (list_max l)) (le_n _)) as F.
  rewrite Forall_forall in F. now apply F.
Qed.

Lemma list_max_In (l : list nat) : l <> [] -> In (list_max l) l.
Proof.
  induction l as [|x l IH]; [congruence|]. intros _.
  change (list_max (x :: l)) with (Nat.max x (list_max l)).
  destruct l as [|y l].
  - left. cbn. lia.
  - destruct (Nat.max_spec x (list_max (y :: l))) as [[_ E]|[_ E]]; rewrite E.
    + right. apply IH. discriminate.
    + now left.
Qed.

Lemma most_frequent_spec (vals : list string) (v : string) :
  In v (most_frequent vals) <->
  In v vals /\ forall w, count_str w vals <= count_str v vals.
Proof.
  unfold most_frequent.
  set (top := list_max (map (fun v => count_str v vals) (dedup vals))).
  assert (Hge : forall w, count_str w vals <= top).
  { intros w. destruct (in_dec string_dec w vals) as [Hw|Hw].
    - apply list_max_ge. apply in_map_iff. exists w. split; [reflexivity|].
      now apply dedup_In.
    - rewrite count_str_notin by exact Hw. lia. }
  rewrite filter_In, dedup_In, Nat.eqb_eq. split.
  - intros [Hin Heq]. split; [exact Hin|]. intros w. rewrite Heq. apply Hge.
  - intros [Hin Hmax]. split; [exact Hin|].
    apply Nat.le_antisymm; [apply Hge|].
    assert (Hne : map (fun v => count_str v vals) (dedup vals) <> []).
    { intros E. apply map_eq_nil in E. apply dedup_In in Hin. rewrite E in Hin.
      destruct Hin. }
    apply list_max_In in Hne. fold top in Hne. apply in_map_iff in Hne.
    destruct Hne as (w & <- & _). apply Hmax.
Qed.

Lemma most_frequent_nonempty (vals : list string) :
  vals <> [] -> most_frequent vals <> [].
Proof.
  intros Hne E.
  assert (Hd : map (fun v => count_str v vals) (dedup vals) <> []).
  { destruct vals as [|x vals]; [congruence|]. discriminate. }
  apply list_max_In in Hd. apply in_map_iff in Hd. destruct Hd as (w & Hw & Hin).
  assert (In w (most_frequent vals)).
  { unfold most_frequent. apply filter_In. split; [exact Hin|]. now apply Nat.eqb_eq. }
  rewrite E in H. destruct H.
Qed.

Lemma code_leb_total (cats : list string) (a b : string) :
  Nat.leb (index_of a cats) (index_of b cats) = true \/
  Nat.leb (index_of b cats) (index_of a cats) = true.
Proof. rewrite !Nat.leb_le. lia. Qed.

Lemma code_leb_trans (cats : list string) (a b c : string) :
  Nat.leb (index_of a cats) (index_of b cats) = true ->
  Nat.leb (index_of b cats) (index_of c cats) = true ->
  Nat.leb (index_of a cats) (index_of c cats) = true.
Proof. rewrite !Nat.leb_le. lia. Qed.

Lemma mode_head (leb : string -> string -> bool) (first : string -> string -> Prop)
      (vals : list string) (m : string) (t : list string) :
  (forall a b, leb a b = true \/ leb b a = true) ->
  (forall a b c, leb a b = true -> leb b c = true -> leb a c = true) ->
  (forall a b, leb a b = true -> first a b) ->
  sort_by leb (most_frequent vals) = m :: t ->
  is_mode first vals m.
Proof.
  intros Htot Htrans Hfirst E.
  destruct (sort_by_head leb Htot Htrans _ _ _ E) as [Hin Hmin].
  apply most_frequent_spec in Hin as [Hin Hmax].
  repeat split; [exact Hin | exact Hmax |].
  intros v Hv Hc. apply Hfirst, Hmin. apply most_frequent_spec.
  split; [exact Hv|]. intros w. rewrite Hc. apply Hmax.
Qed.

Lemma mode_0_spec (s : Series) (m : string) :
  mode_0 s = Ok m -> is_mode (smallest_first s) (present_strings s) m.
Proof.
  unfold mode_0. destruct (mode s) as [|m' t] eqn:E; [discriminate|].
  intros [= ->]. destruct s; cbn in E; try discriminate.
  - eapply (mode_head String.leb); eauto using String.leb_total, string_leb_trans.
  - eapply (mode_head (fun a b => Nat.leb (index_of a cats) (index_of b cats)));
      eauto using code_leb_total, code_leb_trans.
    intros a b H. cbn. now apply Nat.leb_le.
Qed.

Lemma mode_0_ok (s : Series) :
  is_categorical s = true -> present_strings s <> [] -> exists m, mode_0 s = Ok m.
Proof.
  intros Hc Hne. unfold mode_0.
  assert (H : mode s <> []).
  { destruct s; try discriminate; cbn in *; intros E;
      apply (most_frequent_nonempty _ Hne);
      apply length_zero_iff_nil;
      apply (f_equal (@List.length string)) in E;
      rewrite sort_by_length in E; exact E. }
  destruct (mode s); [congruence | eauto].
Qed.

(** *** Imputation of a table *)

Lemma fill_none {A : Type} (xs : list (option A)) : fill None xs = xs.
Proof.
  unfold fill. rewrite <- (map_id xs) at 2. apply map_ext. now intros [x|].
Qed.

Lemma count_null_fill {A : Type} (v : A) (xs : list (option A)) :
  count_null (fill (Some v) xs) = 0.
Proof.
  unfold count_null, fill. induction xs as [|[x|] xs IH]; cbn; auto.
Qed.

Lemma impute_spec (s : Series) :
  imputable s -> exists s', impute s = Ok s' /\ imputed smallest_first s s'.
Proof.
  intros Himp. destruct s; unfold impute; cbn [is_numeric is_categorical dtype_of existsb
                                               dtype_eqb orb];
    unfold impute_numeric, impute_categorical; cbn [isnull_sum imputed].
  - cbn. eauto.
  - destruct (count_null xs) as [|k] eqn:Hn; cbn [Nat.ltb Nat.leb bind median].
    + eauto.
    + destruct (dropna xs) as [|v vals] eqn:Hv.
      * rewrite median_of_nil. cbn. rewrite fill_none. eauto.
      * destruct (median_of_spec (v :: vals)) as (m & -> & Hm); [discriminate|].
        cbn. eauto.
  - destruct (count_null xs) as [|k] eqn:Hn; cbn [Nat.ltb Nat.leb bind].
    + eauto.
    + destruct Himp as [H|H]; [cbn in H; congruence|].
      destruct (mode_0_ok (Object xs) eq_refl H) as [m Hm]. rewrite Hm. cbn.
      exists (Object (fill (Some m) xs)). split; [reflexivity|].
      exists m. split; [|reflexivity]. exact (mode_0_spec _ _ Hm).
  - destruct (count_null xs) as [|k] eqn:Hn; cbn [Nat.ltb Nat.leb bind].
    + eauto.
    + destruct Himp as [H|H]; [cbn in H; congruence|].
      destruct (mode_0_ok (Category cats xs) eq_refl H) as [m Hm]. rewrite Hm. cbn.
      exists (Category cats (fill (Some m) xs)). split; [reflexivity|].
      exists m. split; [|reflexivity]. exact (mode_0_spec _ _ Hm).
  - cbn. eauto.
Qed.

(** C1, as the code has it.  For a table with distinct column names,
    whose numbers are floats short of overflow, and in which no
    categorical column is missing all its values, the imputation step
    returns the table in which every missing entry of a numeric column is
    replaced by the median of the present values of that column (a column
    without any present value stays as it is), every missing entry of a
    categorical column is replaced by the most frequent value of that
    column, the smallest one when several values are the most frequent,
    and every column without a missing value is unchanged.  The median of
    an even number of values is the mean of the two middle ones as float
    arithmetic gives it: their sum, rounded to a float, is halved. *)
Theorem imputation (df : DataFrame) :
  NoDup (columns df) ->
  numbers_within_float64 df ->
  (forall c, In c df -> imputable (snd c)) ->
  exists out,
    _handle_missing_values df = Ok out /\ imputed_table smallest_first df out.
Proof.
  intros ND _ Himp. rewrite (handle_missing_values_columns df ND). clear ND.
  unfold imputed_table.
  induction df as [|[n s] df IH]; cbn [map_result].
  - exists []. split; [reflexivity | constructor].
  - destruct (impute_spec s) as (s' & Hs & Hspec).
    { apply (Himp (n, s)). now left. }
    destruct IH as (out & Hout & Hall).
    { intros c Hc. apply Himp. now right. }
    exists ((n, s') :: out). split.
    + unfold impute_column at 1. cbn [fst snd]. rewrite Hs. cbn [bind].
      now rewrite Hout.
    + constructor; [split; [reflexivity | exact Hspec] | exact Hall].
Qed.

Lemma imputation_witness :
  exists out,
    _handle_missing_values tie_input = Ok out /\
    imputed_table smallest_first tie_input out.
Proof.
  apply (imputation tie_input).
  - repeat constructor; cbn; intuition discriminate.
  - intros c [<-|[<-|[]]]; vm_compute; reflexivity.
  - intros c [<-|[<-|[]]]; cbn; auto. right. discriminate.
Defined.

(** With two most frequent values the code fills in the smaller one,
    [RJ], not the one that is met first, [SP]. *)
Lemma mode_tie_not_first_encountered :
  _handle_missing_values tie_input = Ok tie_output /\
  ~ (exists out,
        _handle_missing_values tie_input = Ok out /\
        imputed_table encountered_first tie_input out).
Proof.
  split; [reflexivity|].
  intros (out & Hout & Himp).
  assert (E : Ok out = Ok tie_output) by (rewrite <- Hout; reflexivity).
  injection E as ->. unfold imputed_table, tie_input, tie_output in Himp.
  inversion Himp as [|? ? ? ? _ Hrest]; subst.
  inversion Hrest as [|? ? ? ? [_ Huf] _]; subst.
  cbn in Huf. destruct Huf as (m & (_ & _ & Htie) & Hm).
  injection Hm as Hm. subst m.
  specialize (Htie "SP"). cbn in Htie.
  assert (1 <= 0) by (apply Htie; auto).
  lia.
Qed.

(** *** Freedom from missing values *)

Lemma getitem_setitem_other (df : DataFrame) (name col : string) (v : Series) :
  col <> name -> getitem (setitem df name v) col = getitem df col.
Proof.
  intros Hne. induction df as [|[n s] df IH]; cbn.
  - destruct (String.eqb name col) eqn:E; [|reflexivity].
    apply String.eqb_eq in E. congruence.
  - destruct (String.eqb n name) eqn:E1; cbn.
    + apply String.eqb_eq in E1. subst n.
      destruct (String.eqb name col) eqn:E2; [|reflexivity].
      apply String.eqb_eq in E2. congruence.
    + destruct (String.eqb n col); [reflexivity | exact IH].
Qed.

Lemma getitem_imputed (t t1 : DataFrame) (col : string) (s : Series) :
  map_result impute_column t = Ok t1 ->
  getitem t col = Ok s ->
  exists s1, impute s = Ok s1 /\ getitem t1 col = Ok s1.
Proof.
  revert t1. induction t as [|[n s0] t IH]; intros t1; cbn; [discriminate|].
  unfold impute_column at 1. cbn [fst snd].
  destruct (impute s0) as [s0'|] eqn:E0; cbn [bind]; [|discriminate].
  destruct (map_result impute_column t) as [t'|] eqn:Et; cbn [bind]; [|discriminate].
  intros [= <-]. cbn [getitem].
  destruct (String.eqb n col).
  - intros [= <-]. eauto.
  - intros H. exact (IH t' eq_refl H).
Qed.

Lemma dropna_present (xs : list (option Q)) (c : scalar) :
  In (Some c) (map (option_map Num) xs) -> dropna xs <> [].
Proof.
  induction xs as [|[q|] xs IH]; cbn; [tauto | discriminate |].
  intros [H|H]; [discriminate | auto].
Qed.

Lemma impute_null_free (s s1 : Series) :
  impute s = Ok s1 -> has_present s -> dtype_of s <> datetime64 -> isnull_sum s1 = 0.
Proof.
  intros Hi [c Hc] Hd.
  destruct s; unfold impute in Hi;
    cbn [is_numeric is_categorical dtype_of existsb dtype_eqb orb] in Hi;
    unfold impute_numeric, impute_categorical in Hi; cbn [isnull_sum] in Hi.
  - cbn in Hi. now injection Hi as <-.
  - destruct (count_null xs) as [|k] eqn:Hn; cbn [Nat.ltb Nat.leb bind median] in Hi.
    + injection Hi as <-. exact Hn.
    + destruct (median_of_spec (dropna xs)) as (m & Hm & _).
      { exact (dropna_present _ _ Hc). }
      rewrite Hm in Hi. cbn in Hi. injection Hi as <-. cbn. apply count_null_fill.
  - destruct (count_null xs) as [|k] eqn:Hn; cbn [Nat.ltb Nat.leb bind] in Hi.
    + injection Hi as <-. exact Hn.
    + destruct (mode_0 (Object xs)) as [m|]; [|discriminate].
      cbn in Hi. injection Hi as <-. cbn. apply count_null_fill.
  - destruct (count_null xs) as [|k] eqn:Hn; cbn [Nat.ltb Nat.leb bind] in Hi.
    + injection Hi as <-. exact Hn.
    + destruct (mode_0 (Category cats xs)) as [m|]; [|discriminate].
      cbn in Hi. injection Hi as <-. cbn. apply count_null_fill.
  - now contradiction Hd.
Qed.

(** A step of the form [if ... then df[name] = value] keeps every other
    column. *)
Lemma guarded_keeps (df out : DataFrame) (guard : bool) (r : result DataFrame)
      (name col : string) :
  (if guard then r else Ok df) = Ok out ->
  (forall d, r = Ok d -> exists v, d = setitem df name v) ->
  col <> name ->
  getitem out col = getitem df col.
Proof.
  destruct guard; [|now intros [= <-]].
  intros H W Hne. destruct (W out H) as [v ->]. now apply getitem_setitem_other.
Qed.

Ltac writes_column :=
  let d := fresh "d" in
  let Hd := fresh "Hd" in
  intros d Hd;
  repeat match type of Hd with
         | context [bind ?x _] => destruct x; cbn [bind] in Hd; try discriminate
         end;
  injection Hd as <-; eauto.

Lemma decode_keeps (df out : DataFrame) (col : string) :
  _decode_categorical df = Ok out ->
  ~ In col derived_columns ->
  getitem out col = getitem df col.
Proof.
  unfold _decode_categorical, derived_columns. intros H Hn.
  destruct (if has_column "sexo" df then _ else _) as [d1|] eqn:E1; [|discriminate].
  cbn [bind] in H.
  destruct (if has_column "grau_instrucao" d1 then _ else _) as [d2|] eqn:E2;
    [|discriminate].
  cbn [bind] in H.
  rewrite (guarded_keeps _ _ _ _ "tipo_movimentacao_desc" col H);
    [ | writes_column | intros ->; apply Hn; cbn; tauto ].
  rewrite (guarded_keeps _ _ _ _ "grau_instrucao_desc" col E2);
    [ | writes_column | intros ->; apply Hn; cbn; tauto ].
  apply (guarded_keeps _ _ _ _ "sexo_desc" col E1);
    [ writes_column | intros ->; apply Hn; cbn; tauto ].
Qed.

Lemma derive_keeps (df out : DataFrame) (col : string) :
  _create_derived_fields df = Ok out ->
  ~ In col derived_columns ->
  getitem out col = getitem df col.
Proof.
  unfold _create_derived_fields, derived_columns. intros H Hn.
  destruct (if has_column "ano" df && has_column "mes" df then _ else _)
    as [d1|] eqn:E1; [|discriminate].
  cbn [bind] in H.
  destruct (if has_column "idade" d1 then _ else _) as [d2|] eqn:E2; [|discriminate].
  cbn [bind] in H.
  rewrite (guarded_keeps _ _ _ _ "faixa_salarial" col H);
    [ | writes_column | intros ->; apply Hn; cbn; tauto ].
  rewrite (guarded_keeps _ _ _ _ "faixa_etaria" col E2);
    [ | writes_column | intros ->; apply Hn; cbn; tauto ].
  apply (guarded_keeps _ _ _ _ "data" col E1);
    [ writes_column | intros ->; apply Hn; cbn; tauto ].
Qed.

(** C7, as the code has it.  For a table with distinct column names on
    which [process_data] returns, a column of the input that is numeric or
    categorical, is not one of the columns that [process_data] writes, and
    had a present value has no missing value in the output. *)
Theorem null_freedom (t out : DataFrame) (col : string) (s : Series) :
  NoDup (columns t) ->
  process_data t = Ok out ->
  getitem t col = Ok s ->
  ~ In col derived_columns ->
  dtype_of s <> datetime64 ->
  has_present s ->
  exists s', getitem out col = Ok s' /\ isnull_sum s' = 0.
Proof.
  intros ND H Hget Hn Hd Hp. unfold process_data in H.
  rewrite (handle_missing_values_columns t ND) in H.
  destruct (map_result impute_column t) as [t1|] eqn:E1; [|discriminate].
  cbn [bind] in H.
  destruct (_decode_categorical t1) as [t2|] eqn:E2; [|discriminate].
  cbn [bind] in H.
  destruct (_create_derived_fields t2) as [t3|] eqn:E3; [|discriminate].
  cbn [bind] in H. injection H as <-.
  destruct (getitem_imputed t t1 col s E1 Hget) as (s1 & Hs1 & Hg1).
  exists s1. split.
  - now rewrite (derive_keeps _ _ _ E3 Hn), (decode_keeps _ _ _ E2 Hn).
  - exact (impute_null_free s s1 Hs1 Hp Hd).
Qed.

Lemma null_freedom_witness :
  exists out s',
    process_data tie_input = Ok out /\ getitem out "uf" = Ok s' /\ isnull_sum s' = 0.
Proof.
  destruct (process_data tie_input) as [out|e] eqn:E; [|vm_compute in E; discriminate].
  destruct (null_freedom tie_input out "uf"
              (Object [Some "SP"; Some "RJ"; None; Some "SP"; Some "RJ"]))
    as (s' & H1 & H2).
  - repeat constructor; cbn; intuition discriminate.
  - exact E.
  - reflexivity.
  - cbn. intuition discriminate.
  - discriminate.
  - exists (Str "SP"). cbn. auto.
  - exists out, s'. auto.
Defined.

(** The decoded column of a table that has it already: the code [3] is
    not in the lookup table and the output holds a missing value where
    the input had none.  The same run makes a derived column with a
    missing value from a table that has no missing value at all. *)
Lemma decoded_column_has_missing :
  ~ null_free coded /\
  process_data [("sexo", Object [Some "1"; Some "3"])]
  = Ok [("sexo", Object [Some "1"; Some "3"]);
        ("sexo_desc", Object [Some "Masculino"; None])].
Proof.
  split; [|reflexivity].
  intros H.
  specialize (H [("sexo", Object [Some "1"; Some "3"]);
                 ("sexo_desc", Object [Some "Masculino"; None])] eq_refl
                "sexo_desc" (Object [Some "Masculino"; Some "Feminino"])
                (Object [Some "Masculino"; None]) eq_refl).
  assert (Hp : has_present (Object [Some "Masculino"; Some "Feminino"])).
  { exists (Str "Masculino"). cbn. auto. }
  specialize (H Hp eq_refl). discriminate.
Qed.

(** *** The order of group keys *)

Lemma date_compare_lt (d e : date) :
  date_compare d e = Lt <->
  (year d < year e \/
   year d = year e /\ (month d < month e \/ month d = month e /\ day d < day e))%Z.
Proof.
  unfold date_compare.
  destruct (Z.compare_spec (year d) (year e));
    destruct (Z.compare_spec (month d) (month e));
    destruct (Z.compare_spec (day d) (day e));
    split; intros; try discriminate; try reflexivity; try lia.
Qed.

Lemma date_compare_eq (d e : date) : date_compare d e = Eq -> d = e.
Proof.
  unfold date_compare. destruct d as [y m a], e as [y' m' a']. cbn.
  destruct (Z.compare_spec y y'); try discriminate.
  destruct (Z.compare_spec m m'); try discriminate.
  destruct (Z.compare_spec a a'); try discriminate.
  intros _. congruence.
Qed.

Lemma date_compare_antisym (d e : date) :
  date_compare e d = CompOpp (date_compare d e).
Proof.
  unfold date_compare.
  rewrite (Z.compare_antisym (year d) (year e)),
    (Z.compare_antisym (month d) (month e)), (Z.compare_antisym (day d) (day e)).
  destruct (year d ?= year e)%Z; cbn; try reflexivity.
  destruct (month d ?= month e)%Z; cbn; reflexivity.
Qed.

Lemma scalar_compare_antisym (a b : scalar) :
  scalar_compare b a = CompOpp (scalar_compare a b).
Proof.
  destruct a, b; cbn; try reflexivity.
  - symmetry. apply Qcompare_antisym.
  - apply String.compare_antisym.
  - apply Nat.compare_antisym.
  - apply date_compare_antisym.
Qed.

Lemma scalar_compare_lt_trans (a b c : scalar) :
  scalar_compare a b = Lt -> scalar_compare b c = Lt -> scalar_compare a c = Lt.
Proof.
  destruct a, b, c; cbn; try discriminate; try reflexivity.
  - rewrite <- !Qlt_alt. apply Qlt_trans.
  - apply string_compare_lt_trans.
  - rewrite !Nat.compare_lt_iff. lia.
  - rewrite !date_compare_lt. lia.
Qed.

(** Keys that compare equal compare alike with any third key. *)
Lemma scalar_compare_eq_l (a b c : scalar) :
  scalar_compare a b = Eq -> scalar_compare a c = scalar_compare b c.
Proof.
  destruct a, b; cbn; try discriminate; intros H.
  - apply Qeq_alt in H. destruct c; cbn; try reflexivity. now rewrite H.
  - apply String.compare_eq_iff in H. now subst.
  - apply Nat.compare_eq_iff in H. subst. now destruct c.
  - apply date_compare_eq in H. now subst.
Qed.

Lemma scalar_compare_eq_r (a b c : scalar) :
  scalar_compare b c = Eq -> scalar_compare a b = scalar_compare a c.
Proof.
  intros H.
  rewrite (scalar_compare_antisym b a), (scalar_compare_antisym c a).
  f_equal. symmetry. apply scalar_compare_eq_l.
  rewrite scalar_compare_antisym, H. reflexivity.
Qed.

Lemma key_compare_antisym (k1 k2 : list scalar) :
  key_compare k2 k1 = CompOpp (key_compare k1 k2).
Proof.
  revert k2. induction k1 as [|a k1 IH]; intros [|b k2]; cbn; try reflexivity.
  rewrite (scalar_compare_antisym a b).
  destruct (scalar_compare a b); cbn; auto.
Qed.

Lemma key_compare_lt_trans (k1 k2 k3 : list scalar) :
  key_compare k1 k2 = Lt -> key_compare k2 k3 = Lt -> key_compare k1 k3 = Lt.
Proof.
  revert k2 k3. induction k1 as [|a k1 IH]; intros [|b k2] [|c k3]; cbn;
    try discriminate; try reflexivity.
  destruct (scalar_compare a b) eqn:Hab; try discriminate;
    destruct (scalar_compare b c) eqn:Hbc; try discriminate; intros H1 H2.
  - rewrite (scalar_compare_eq_l a b c Hab), Hbc. eauto.
  - now rewrite (scalar_compare_eq_l a b c Hab), Hbc.
  - now rewrite <- (scalar_compare_eq_r a b c Hbc), Hab.
  - now rewrite (scalar_compare_lt_trans a b c Hab Hbc).
Qed.

(** *** Groups *)

Lemma insert_row_In (k : list scalar) (n : nat) (gs : list group) (g' : group) :
  In g' (insert_row k n gs) ->
  In g' gs \/ g' = (k, [n]) \/
  exists rows, In (fst g', rows) gs /\ snd g' = rows ++ [n] /\ key_compare k (fst g') = Eq.
Proof.
  induction gs as [|[k0 rows0] gs IH]; cbn.
  - intros [<-|[]]. auto.
  - destruct (key_compare k k0) eqn:E; cbn.
    + intros [<-|H]; [|auto]. right. right. exists rows0. cbn. auto.
    + intros [<-|H]; auto.
    + intros [<-|H]; [auto|].
      destruct (IH H) as [H'|[H'|(rows & H1 & H2 & H3)]]; auto.
      right. right. exists rows. auto.
Qed.

Lemma insert_row_keeps (k : list scalar) (n : nat) (gs : list group) (g : group) :
  In g gs ->
  exists g', In g' (insert_row k n gs) /\ fst g' = fst g /\
             forall i, In i (snd g) -> In i (snd g').
Proof.
  induction gs as [|[k0 rows0] gs IH]; cbn; [tauto|].
  intros [<-|H].
  - destruct (key_compare k k0); cbn.
    + exists (k0, rows0 ++ [n]). cbn. split; [auto|]. split; [reflexivity|].
      intros i Hi. apply in_or_app. now left.
    + exists (k0, rows0). cbn. auto.
    + exists (k0, rows0). cbn. auto.
  - destruct (IH H) as (g' & H1 & H2 & H3).
    destruct (key_compare k k0); cbn.
    + exists g. cbn. auto.
    + exists g. cbn. auto.
    + exists g'. auto.
Qed.

Lemma insert_row_has (k : list scalar) (n : nat) (gs : list group) :
  exists g', In g' (insert_row k n gs) /\ In n (snd g').
Proof.
  induction gs as [|[k0 rows0] gs IH]; cbn.
  - exists (k, [n]). cbn. auto.
  - destruct (key_compare k k0); cbn.
    + exists (k0, rows0 ++ [n]). cbn. split; [auto|]. apply in_or_app. cbn. auto.
    + exists (k, [n]). cbn. auto.
    + destruct IH as (g' & H1 & H2). exists g'. auto.
Qed.

Lemma insert_row_sorted (k : list scalar) (n : nat) (gs : list group) :
  StronglySorted key_lt gs -> StronglySorted key_lt (insert_row k n gs).
Proof.
  induction 1 as [|[k0 rows0] gs Hs IH Hall]; cbn.
  - constructor; constructor.
  - destruct (key_compare k k0) eqn:E.
    + constructor; [exact Hs | exact Hall].
    + constructor; [now constructor|]. constructor; [exact E|].
      eapply Forall_impl; [|exact Hall]. unfold key_lt. cbn. intros g Hg.
      exact (key_compare_lt_trans _ _ _ E Hg).
    + constructor; [exact IH|]. apply Forall_forall. intros g' Hg'.
      rewrite Forall_forall in Hall.
      destruct (insert_row_In _ _ _ _ Hg') as [H|[->|(rows & H & _ & _)]].
      * exact (Hall _ H).
      * unfold key_lt. cbn. rewrite key_compare_antisym, E. reflexivity.
      * exact (Hall (fst g', rows) H).
Qed.

Lemma insert_row_rows (k : list scalar) (n : nat) (gs : list group) :
  Permutation (List.concat (map snd (insert_row k n gs))) (n :: List.concat (map snd gs)).
Proof.
  induction gs as [|[k0 rows0] gs IH]; cbn; [reflexivity|].
  destruct (key_compare k k0); cbn.
  - rewrite <- app_assoc. cbn. symmetry. apply Permutation_middle.
  - reflexivity.
  - rewrite IH. symmetry. apply Permutation_middle.
Qed.

Lemma key_compare_refl (k : list scalar) : key_compare k k = Eq.
Proof.
  pose proof (key_compare_antisym k k) as H. now destruct (key_compare k k).
Qed.

Lemma grouping_step (keys : list Series) (n : nat) (gs : list group) :
  grouping keys n gs -> grouping keys (S n) (add_row keys gs n).
Proof.
  intros (G1 & G2 & G3 & G4). unfold add_row.
  destruct (row_key keys n) as [k|] eqn:Hk.
  - split; [|split; [|split]].
    + intros k' rows H.
      destruct (insert_row_In _ _ _ _ H) as [H'|[E|(rows0 & H1 & H2 & H3)]].
      * destruct (G1 _ _ H') as (Hne & Hhd & Hm).
        split; [exact Hne|]. split; [exact Hhd|].
        intros i Hi. destruct (Hm i Hi) as [Hlt Hkey]. split; [lia | exact Hkey].
      * injection E as -> ->. split; [discriminate|]. split; [exact Hk|].
        intros i [<-|[]]. split; [lia|]. exists k. split; [exact Hk|].
        apply key_compare_refl.
      * cbn in H1, H2, H3. subst rows. destruct (G1 _ _ H1) as (Hne & Hhd & Hm).
        split; [now destruct rows0|].
        split; [destruct rows0; [congruence | exact Hhd]|].
        intros i Hi. apply in_app_or in Hi as [Hi|[<-|[]]].
        -- destruct (Hm i Hi) as [Hlt Hkey]. split; [lia | exact Hkey].
        -- split; [lia|]. exists k. auto.
    + intros i ki Hi Hki. destruct (Nat.eq_dec i n) as [->|Hne].
      * apply insert_row_has.
      * destruct (G2 i ki) as (g & Hg & Hin); [lia | exact Hki |].
        destruct (insert_row_keeps k n gs g Hg) as (g' & H1 & _ & H3). eauto.
    + now apply insert_row_sorted.
    + apply (Permutation_NoDup (Permutation_sym (insert_row_rows k n gs))).
      constructor; [|exact G4].
      intros Hin. apply in_concat in Hin as (rows & Hr & Hn).
      apply in_map_iff in Hr as ([k0 rows0] & <- & Hg).
      destruct (G1 _ _ Hg) as (_ & _ & Hm). destruct (Hm _ Hn) as [Hlt _]. lia.
  - split; [|split; [|split]]; try assumption.
    + intros k' rows H. destruct (G1 _ _ H) as (Hne & Hhd & Hm).
      split; [exact Hne|]. split; [exact Hhd|].
      intros i Hi. destruct (Hm i Hi) as [Hlt Hkey]. split; [lia | exact Hkey].
    + intros i ki Hi Hki. destruct (Nat.eq_dec i n) as [->|Hne]; [congruence|].
      apply (G2 i ki); [lia | exact Hki].
Qed.

Lemma grouping_fold (keys : list Series) (n : nat) :
  grouping keys n (fold_left (add_row keys) (seq 0 n) []).
Proof.
  induction n as [|n IH].
  - split; [|split; [|split]].
    + intros k rows [].
    + intros i k Hi. lia.
    + constructor.
    + constructor.
  - rewrite seq_S, fold_left_app. cbn. now apply grouping_step.
Qed.

(** *** The steps of the aggregation *)

Lemma column_getitem (df : DataFrame) (col : string) :
  has_column col df = true -> getitem df col = Ok (column df col).
Proof.
  intros H. apply has_column_getitem in H as [s Hs]. unfold column. now rewrite Hs.
Qed.


Lemma collect_columns {B : Type} (df : DataFrame) (h : string -> Series -> B)
      (cols : list string) (acc : list B) :
  (forall c, In c cols -> has_column c df = true) ->
  for_each (fun acc col => s <- getitem df col ;; Ok (acc ++ [h col s])) cols acc
  = Ok (acc ++ map (fun col => h col (column df col)) cols).
Proof.
  revert acc. induction cols as [|c cols IH]; intros acc H; cbn [for_each map].
  - now rewrite app_nil_r.
  - rewrite (column_getitem df c) by (apply H; now left). cbn [bind].
    rewrite IH by (intros c' Hc'; apply H; now right).
    now rewrite <- app_assoc.
Qed.

Lemma groupby_ok (df : DataFrame) (by_ : list string) :
  (forall c, In c by_ -> has_column c df = true) ->
  groupby df by_
  = Ok (fold_left (add_row (map (column df) by_)) (seq 0 (nrows df)) []).
Proof.
  intros H. unfold groupby.
  pose proof (collect_columns df (fun _ s => s) by_ [] H) as E. cbn beta in E.
  rewrite E. reflexivity.
Qed.





Lemma for_each_app {A S : Type} (body : S -> A -> result S) (l1 l2 : list A) (s : S) :
  for_each body (l1 ++ l2) s = (s' <- for_each body l1 s ;; for_each body l2 s').
Proof.
  revert s. induction l1 as [|x l1 IH]; intros s; cbn; [reflexivity|].
  destruct (body s x); cbn; [apply IH | reflexivity].
Qed.

Lemma reset_index_ok (index : list (string * Series)) (df : DataFrame) :
  NoDup (columns (index ++ df)) -> reset_index index df = Ok (index ++ df).
Proof.
  unfold reset_index. induction index as [|c index IH]; intros ND; cbn [rev app].
  - reflexivity.
  - cbn in ND. apply NoDup_cons_iff in ND as [Hn ND].
    rewrite for_each_app, (IH ND). cbn. unfold insert0.
    destruct (has_column (fst c) (index ++ df)) eqn:E; [|reflexivity].
    exfalso. apply Hn. unfold has_column in E. apply existsb_exists in E.
    destruct E as (x & Hx & Heq). apply String.eqb_eq in Heq. now subst.
Qed.




(** *** The statistics of a group *)












(** *** The table of the groups *)

Lemma getitem_NoDup (df : DataFrame) (n : string) (s : Series) :
  NoDup (columns df) -> In (n, s) df -> getitem df n = Ok s.
Proof.
  induction df as [|[n0 s0] df IH]; cbn; [tauto|].
  intros ND [E|H].
  - injection E as -> ->. now rewrite String.eqb_refl.
  - apply NoDup_cons_iff in ND as [Hn ND].
    destruct (String.eqb n0 n) eqn:E; [|now apply IH].
    apply String.eqb_eq in E. subst n0. exfalso. apply Hn.
    unfold columns. apply in_map_iff. now exists (n, s).
Qed.










(** *** The three defects in general *)

Lemma impute_raises (s : Series) (e : exn) : impute s = Raise e -> e = KeyError.
Proof.
  unfold impute. destruct (is_numeric s) eqn:En.
  - destruct (impute_numeric_total s En) as (s' & -> & _). discriminate.
  - destruct (is_categorical s); [|discriminate].
    unfold impute_categorical, mode_0.
    destruct (0 <? isnull_sum s)%nat; [|discriminate].
    destruct (mode s); cbn; [now intros [= <-] | discriminate].
Qed.

Lemma impute_all_missing (s : Series) :
  is_categorical s = true -> isnull_sum s <> 0 -> present_strings s = [] ->
  impute s = Raise KeyError.
Proof.
  intros Hc Hn Hp. unfold impute. rewrite Hc.
  assert (En : is_numeric s = false) by (destruct s; try discriminate; reflexivity).
  rewrite En. unfold impute_categorical.
  destruct (isnull_sum s) as [|k] eqn:E; [congruence|]. cbn [Nat.ltb Nat.leb].
  unfold mode_0.
  assert (Hm : mode s = []).
  { destruct s; try discriminate; cbn in Hp |- *; now rewrite Hp. }
  now rewrite Hm.
Qed.

(** Whatever the other columns are, a categorical column without any
    present value, in a table with at least one row, makes the pipeline
    raise. *)
Lemma all_missing_categorical_raises (df : DataFrame) (c : string * Series) :
  NoDup (columns df) ->
  In c df ->
  is_categorical (snd c) = true -> isnull_sum (snd c) <> 0 -> present_strings (snd c) = [] ->
  process_data df = Raise KeyError.
Proof.
  intros ND Hin Hc Hn Hp. unfold process_data.
  rewrite (handle_missing_values_columns df ND).
  assert (H : map_result impute_column df = Raise KeyError).
  { clear ND. induction df as [|[n s] df IH]; [destruct Hin|].
    cbn [map_result]. unfold impute_column at 1. cbn [fst snd].
    destruct Hin as [<-|Hin].
    - cbn [snd] in *. now rewrite (impute_all_missing s Hc Hn Hp).
    - destruct (impute s) as [s'|e] eqn:E; cbn [bind].
      + now rewrite (IH Hin).
      + now rewrite (impute_raises s e E). }
  now rewrite H.
Qed.

(** A numeric column without any present value is left as it is. *)
Lemma all_missing_numeric_kept (xs : list (option Q)) :
  dropna xs = [] -> impute (Float64 xs) = Ok (Float64 xs).
Proof.
  intros H. unfold impute, impute_numeric. cbn.
  destruct (count_null xs); cbn; [reflexivity|].
  now rewrite H, median_of_nil, fill_none.
Qed.


(** With a metric and without a grouping column the chart is given the
    table as it is. *)
Lemma bar_chart_raw_rows (df : DataFrame) (x y : string) :
  has_column x df = true -> has_column y df = true ->
  exists title labels,
    create_bar_chart df x (Some y) None "v" None
    = Ok (Bar df x y None "v" title labels).
Proof.
  intros Hx Hy. unfold create_bar_chart. rewrite Hx, Hy. cbn. eauto.
Qed.

(** *** Running the pipeline on its own output *)

Lemma process_data_steps (df : DataFrame) :
  process_data df = (h <- _handle_missing_values df ;; run_steps enrichment h).
Proof.
  unfold process_data. destruct (_handle_missing_values df) as [h|e]; [|reflexivity].
  cbn [bind]. unfold _decode_categorical, _create_derived_fields, enrichment, run_steps,
    run_step. cbn [guard value dst].
  destruct (has_column "sexo" h);
    [destruct (getitem h "sexo"); cbn [bind]; [|reflexivity]|];
    cbn [bind];
    match goal with |- context [has_column "grau_instrucao" ?d] =>
      destruct (has_column "grau_instrucao" d);
        [destruct (getitem d "grau_instrucao"); cbn [bind]; [|reflexivity]|]
    end;
    cbn [bind];
    match goal with |- context [has_column "tipo_movimentacao" ?d] =>
      destruct (has_column "tipo_movimentacao" d);
        [destruct (getitem d "tipo_movimentacao"); cbn [bind]; [|reflexivity]|]
    end;
    cbn [bind];
    match goal with |- context [has_column "ano" ?d] =>
      destruct (has_column "ano" d && has_column "mes" d);
        [destruct (getitem d "ano"); cbn [bind]; [|reflexivity];
         destruct (getitem d "mes"); cbn [bind]; [|reflexivity];
         match goal with |- context [to_datetime_ym ?a ?b] =>
           destruct (to_datetime_ym a b); cbn [bind]; [|reflexivity]
         end|]
    end;
    cbn [bind];
    match goal with |- context [has_column "idade" ?d] =>
      destruct (has_column "idade" d);
        [destruct (getitem d "idade"); cbn [bind]; [|reflexivity];
         match goal with |- context [cut ?a faixa_etaria_bins faixa_etaria_labels] =>
           destruct (cut a faixa_etaria_bins faixa_etaria_labels); cbn [bind];
           [|reflexivity]
         end|]
    end;
    cbn [bind];
    match goal with |- context [has_column "salario" ?d] =>
      destruct (has_column "salario" d);
        [destruct (getitem d "salario"); cbn [bind]; [|reflexivity];
         match goal with |- context [cut ?a faixa_salarial_bins faixa_salarial_labels] =>
           destruct (cut a faixa_salarial_bins faixa_salarial_labels); cbn [bind];
           reflexivity
         end|]
    end;
    reflexivity.
Qed.

Lemma getitem_setitem_same (df : DataFrame) (n : string) (v : Series) :
  getitem (setitem df n v) n = Ok v.
Proof.
  induction df as [|[n0 s0] df IH]; cbn.
  - now rewrite String.eqb_refl.
  - destruct (String.eqb n0 n) eqn:E; cbn; rewrite E; [reflexivity | exact IH].
Qed.

Lemma columns_setitem (df : DataFrame) (n : string) (v : Series) :
  columns (setitem df n v) = if has_column n df then columns df else columns df ++ [n].
Proof.
  unfold has_column, columns. induction df as [|[n0 s0] df IH]; cbn; [reflexivity|].
  rewrite (String.eqb_sym n n0). destruct (String.eqb n0 n); cbn; [reflexivity|].
  rewrite IH. now destruct (existsb (String.eqb n) (map fst df)).
Qed.

Lemma getitem_raises (df : DataFrame) (n : string) (e : exn) :
  getitem df n = Raise e -> e = KeyError.
Proof.
  induction df as [|[n0 s0] df IH]; cbn; [now intros [= <-]|].
  destruct (String.eqb n0 n); [discriminate | exact IH].
Qed.

Lemma has_column_same (a b : DataFrame) (n : string) :
  getitem a n = getitem b n -> has_column n a = has_column n b.
Proof.
  intros H.
  destruct (has_column n a) eqn:Ea, (has_column n b) eqn:Eb; try reflexivity.
  - apply has_column_getitem in Ea as [s Hs]. rewrite H in Hs.
    now rewrite (getitem_has_column _ _ _ Hs) in Eb.
  - apply has_column_getitem in Eb as [s Hs]. rewrite <- H in Hs.
    now rewrite (getitem_has_column _ _ _ Hs) in Ea.
Qed.

(** Two tables with the same column names, each met once, and the same
    column under each name are the same table. *)
Lemma frame_ext (a b : DataFrame) :
  columns a = columns b -> NoDup (columns a) ->
  (forall n, getitem a n = getitem b n) -> a = b.
Proof.
  revert b. induction a as [|[n s] a IH]; intros [|[n' s'] b]; cbn;
    try discriminate; [reflexivity|].
  intros [= <- Hc] ND H. apply NoDup_cons_iff in ND as [Hn ND].
  pose proof (H n) as Hs. cbn in Hs. rewrite String.eqb_refl in Hs.
  injection Hs as <-. f_equal. apply IH; [exact Hc | exact ND|].
  intros m. specialize (H m). cbn in H.
  destruct (String.eqb n m) eqn:E; [|exact H].
  apply String.eqb_eq in E. subst m.
  assert (Ha : getitem a n = Raise KeyError).
  { apply no_column_getitem. unfold has_column.
    destruct (existsb (String.eqb n) (columns a)) eqn:Ex; [|reflexivity].
    apply existsb_exists in Ex as (x & Hx & Heq). apply String.eqb_eq in Heq.
    subst x. contradiction. }
  assert (Hb : getitem b n = Raise KeyError).
  { apply no_column_getitem. unfold has_column.
    destruct (existsb (String.eqb n) (columns b)) eqn:Ex; [|reflexivity].
    apply existsb_exists in Ex as (x & Hx & Heq). apply String.eqb_eq in Heq.
    subst x. unfold columns in *. rewrite <- Hc in Hx. contradiction. }
  now rewrite Ha, Hb.
Qed.

Lemma run_step_keeps (st : step) (df out : DataFrame) (n : string) :
  run_step st df = Ok out -> n <> dst st -> getitem out n = getitem df n.
Proof.
  unfold run_step. destruct (guard st df); [|now intros [= <-]].
  destruct (value st df) as [v|]; cbn; [|discriminate].
  intros [= <-] Hn. now apply getitem_setitem_other.
Qed.

Lemma run_steps_keeps (sts : list step) (df out : DataFrame) (n : string) :
  run_steps sts df = Ok out -> ~ In n (map dst sts) -> getitem out n = getitem df n.
Proof.
  revert df. induction sts as [|st sts IH]; intros df; cbn [run_steps map].
  - now intros [= <-].
  - destruct (run_step st df) as [d|] eqn:E; cbn [bind]; [|discriminate].
    intros H Hn. rewrite (IH d H) by (intros Hin; apply Hn; now right).
    apply (run_step_keeps st df d n E). intros ->. apply Hn. now left.
Qed.

Lemma run_steps_same_sources (sts : list step) (df out : DataFrame) :
  incl (map dst sts) derived_columns ->
  run_steps sts df = Ok out -> same_sources df out.
Proof.
  intros Hd H n Hn. symmetry. apply (run_steps_keeps sts df out n H).
  intros Hin. apply Hn. now apply Hd.
Qed.

Lemma run_steps_assigns (sts : list step) (df out : DataFrame) :
  NoDup (map dst sts) ->
  incl (map dst sts) derived_columns ->
  Forall reads_sources sts ->
  run_steps sts df = Ok out ->
  forall st, In st sts ->
    getitem out (dst st) = if guard st df then value st df else getitem df (dst st).
Proof.
  revert df. induction sts as [|st0 sts IH]; intros df ND Hd Hr H st Hin;
    [destruct Hin|].
  cbn [run_steps map] in *. apply NoDup_cons_iff in ND as [Hn0 ND].
  apply Forall_cons_iff in Hr as [Hr0 Hr].
  assert (Hd' : incl (map dst sts) derived_columns).
  { intros x Hx. apply Hd. now right. }
  destruct (run_step st0 df) as [d|] eqn:E; cbn [bind] in H; [|discriminate].
  assert (Hsame : same_sources df d).
  { apply (run_steps_same_sources [st0] df d).
    - intros x [<-|[]]. apply Hd. now left.
    - cbn. now rewrite E. }
  destruct Hin as [<-|Hin].
  - rewrite (run_steps_keeps sts d out _ H Hn0).
    unfold run_step in E. destruct (guard st0 df); [|now injection E as <-].
    destruct (value st0 df) as [v|]; cbn in E; [|discriminate].
    injection E as <-. apply getitem_setitem_same.
  - rewrite (IH d ND Hd' Hr H st Hin).
    rewrite Forall_forall in Hr. destruct (Hr st Hin df d Hsame) as [<- <-].
    destruct (guard st df); [reflexivity|].
    apply (run_step_keeps st0 df d _ E). intros Heq. apply Hn0. rewrite <- Heq.
    now apply in_map.
Qed.

Lemma run_steps_value_ok (sts : list step) (df out : DataFrame) :
  incl (map dst sts) derived_columns ->
  Forall reads_sources sts ->
  run_steps sts df = Ok out ->
  forall st, In st sts -> guard st df = true -> exists v, value st df = Ok v.
Proof.
  revert df. induction sts as [|st0 sts IH]; intros df Hd Hr H st Hin G;
    [destruct Hin|].
  cbn [run_steps map] in *. apply Forall_cons_iff in Hr as [Hr0 Hr].
  assert (Hd' : incl (map dst sts) derived_columns).
  { intros x Hx. apply Hd. now right. }
  destruct (run_step st0 df) as [d|] eqn:E; cbn [bind] in H; [|discriminate].
  assert (Hsame : same_sources df d).
  { apply (run_steps_same_sources [st0] df d).
    - intros x [<-|[]]. apply Hd. now left.
    - cbn. now rewrite E. }
  destruct Hin as [<-|Hin].
  - unfold run_step in E. rewrite G in E.
    destruct (value st0 df) as [v|]; [eauto | discriminate].
  - rewrite Forall_forall in Hr. destruct (Hr st Hin df d Hsame) as [G' V].
    rewrite V. apply (IH d Hd'); try assumption.
    + now apply Forall_forall.
    + now rewrite <- G'.
Qed.

Lemma run_steps_columns (sts : list step) (df out : DataFrame) :
  incl (map dst sts) derived_columns ->
  Forall reads_sources sts ->
  (forall st, In st sts -> guard st df = true -> has_column (dst st) df = true) ->
  run_steps sts df = Ok out ->
  columns out = columns df.
Proof.
  revert df. induction sts as [|st0 sts IH]; intros df Hd Hr Hg; cbn [run_steps map] in *.
  - now intros [= <-].
  - apply Forall_cons_iff in Hr as [Hr0 Hr].
    assert (Hd' : incl (map dst sts) derived_columns).
    { intros x Hx. apply Hd. now right. }
    destruct (run_step st0 df) as [d|] eqn:E; cbn [bind]; [|discriminate].
    assert (Hsame : same_sources df d).
    { apply (run_steps_same_sources [st0] df d).
      - intros x [<-|[]]. apply Hd. now left.
      - cbn. now rewrite E. }
    assert (Hc : columns d = columns df).
    { unfold run_step in E. destruct (guard st0 df) eqn:G; [|now injection E as <-].
      destruct (value st0 df) as [v|]; cbn in E; [|discriminate].
      injection E as <-. rewrite columns_setitem.
      now rewrite (Hg st0 (or_introl eq_refl) G). }
    intros H. rewrite <- Hc. apply (IH d Hd' Hr); [|exact H].
    intros st Hin G. rewrite Forall_forall in Hr.
    destruct (Hr st Hin df d Hsame) as [G' _]. rewrite <- G' in G.
    unfold has_column. rewrite Hc. apply (Hg st); [now right | exact G].
Qed.

Lemma run_steps_NoDup (sts : list step) (df out : DataFrame) :
  NoDup (columns df) -> run_steps sts df = Ok out -> NoDup (columns out).
Proof.
  revert df. induction sts as [|st sts IH]; intros df ND; cbn [run_steps].
  - now intros [= <-].
  - destruct (run_step st df) as [d|] eqn:E; cbn [bind]; [|discriminate].
    apply IH. unfold run_step in E.
    destruct (guard st df); [|now injection E as <-].
    destruct (value st df) as [v|]; cbn in E; [|discriminate].
    injection E as <-. rewrite columns_setitem.
    destruct (has_column (dst st) df) eqn:Hc; [exact ND|].
    apply NoDup_app; [exact ND | repeat constructor; intros [] |].
    intros x Hx [E|[]]. subst x. unfold has_column in Hc.
    assert (existsb (String.eqb (dst st)) (columns df) = true).
    { apply existsb_exists. exists (dst st). split; [exact Hx | apply String.eqb_refl]. }
    congruence.
Qed.

Lemma impute_without_missing (s : Series) : isnull_sum s = 0 -> impute s = Ok s.
Proof.
  intros H. unfold impute, impute_numeric, impute_categorical. rewrite H.
  cbn [Nat.ltb Nat.leb].
  destruct (is_numeric s); [reflexivity|]. now destruct (is_categorical s).
Qed.

Lemma impute_idempotent (s s1 : Series) : impute s = Ok s1 -> impute s1 = Ok s1.
Proof.
  intros H.
  assert (Hcases : s1 = s \/ isnull_sum s1 = 0).
  { destruct s; unfold impute in H;
      cbn [is_numeric is_categorical dtype_of existsb dtype_eqb orb] in H;
      unfold impute_numeric, impute_categorical in H; cbn [isnull_sum] in H.
    - cbn in H. left. congruence.
    - destruct (count_null xs) as [|k] eqn:Hn; cbn [Nat.ltb Nat.leb bind median] in H.
      + left. congruence.
      + destruct (median_of (dropna xs)) as [m|]; cbn in H; injection H as <-.
        * right. cbn. apply count_null_fill.
        * left. now rewrite fill_none.
    - destruct (count_null xs) as [|k] eqn:Hn; cbn [Nat.ltb Nat.leb bind] in H.
      + left. congruence.
      + destruct (mode_0 (Object xs)) as [m|]; [|discriminate].
        cbn in H. injection H as <-. right. cbn. apply count_null_fill.
    - destruct (count_null xs) as [|k] eqn:Hn; cbn [Nat.ltb Nat.leb bind] in H.
      + left. congruence.
      + destruct (mode_0 (Category cats xs)) as [m|]; [|discriminate].
        cbn in H. injection H as <-. right. cbn. apply count_null_fill.
    - cbn in H. left. congruence. }
  destruct Hcases as [->|H0]; [exact H | now apply impute_without_missing].
Qed.

Lemma columns_imputed (t h : DataFrame) :
  map_result impute_column t = Ok h -> columns h = columns t.
Proof.
  revert h. induction t as [|[n s] t IH]; intros h; cbn [map_result].
  - now intros [= <-].
  - unfold impute_column at 1. cbn [fst snd].
    destruct (impute s) as [s'|]; cbn [bind]; [|discriminate].
    destruct (map_result impute_column t) as [t'|]; cbn [bind]; [|discriminate].
    intros [= <-]. cbn. f_equal. now apply IH.
Qed.

Lemma getitem_of_imputed (t h : DataFrame) (n : string) :
  map_result impute_column t = Ok h ->
  getitem h n = (s <- getitem t n ;; impute s).
Proof.
  intros H. destruct (getitem t n) as [s|e] eqn:E; cbn [bind].
  - destruct (getitem_imputed t h n s H E) as (s1 & -> & Hg). exact Hg.
  - rewrite (getitem_raises _ _ _ E). apply no_column_getitem.
    unfold has_column. rewrite (columns_imputed t h H).
    destruct (existsb (String.eqb n) (columns t)) eqn:Ex; [|reflexivity].
    assert (Hc : has_column n t = true) by exact Ex.
    apply has_column_getitem in Hc as [s Hs]. congruence.
Qed.

Lemma enrichment_reads_sources : Forall reads_sources enrichment.
Proof.
  unfold enrichment. repeat apply Forall_cons; try apply Forall_nil;
    intros a b Hab; cbn [guard value];
    repeat match goal with
           | |- context [has_column ?c a] =>
               rewrite (has_column_same a b c)
                 by (apply Hab; cbn; intuition discriminate)
           | |- context [getitem a ?c] =>
               rewrite (Hab c) by (cbn; intuition discriminate)
           end; split; reflexivity.
Qed.

(** X10.  Running the pipeline on its own output changes nothing when it
    returns: for a table with distinct column names on which
    [process_data] returns a table [t1], a second run on [t1] that returns
    a table returns [t1]. *)
Lemma process_data_twice (t t1 t2 : DataFrame) :
  NoDup (columns t) ->
  process_data t = Ok t1 -> process_data t1 = Ok t2 -> t2 = t1.
Proof.
  intros ND H1 H2. rewrite process_data_steps in H1, H2.
  rewrite (handle_missing_values_columns t ND) in H1.
  destruct (map_result impute_column t) as [h0|] eqn:E0; cbn [bind] in H1; [|discriminate].
  assert (ND0 : NoDup (columns h0)) by now rewrite (columns_imputed t h0 E0).
  assert (ND1 : NoDup (columns t1)) by exact (run_steps_NoDup _ _ _ ND0 H1).
  rewrite (handle_missing_values_columns t1 ND1) in H2.
  destruct (map_result impute_column t1) as [h1|] eqn:E1; cbn [bind] in H2; [|discriminate].
  assert (Hd : incl (map dst enrichment) derived_columns) by (intros x Hx; exact Hx).
  assert (NDd : NoDup (map dst enrichment)).
  { cbn. repeat constructor; cbn; intuition discriminate. }
  pose proof enrichment_reads_sources as Hr.
  (* imputing an imputed column changes nothing *)
  assert (Himp : forall n, getitem h0 n = (s <- getitem h0 n ;; impute s)).
  { intros n. rewrite (getitem_of_imputed t h0 n E0).
    destruct (getitem t n) as [s|]; cbn [bind]; [|reflexivity].
    destruct (impute s) as [s1|] eqn:Es; cbn [bind]; [|reflexivity].
    symmetry. exact (impute_idempotent s s1 Es). }
  assert (S01 : same_sources h0 t1) by exact (run_steps_same_sources _ _ _ Hd H1).
  assert (S0 : same_sources h0 h1).
  { intros n Hn. rewrite (getitem_of_imputed t1 h1 n E1), <- (S01 n Hn). apply Himp. }
  apply frame_ext.
  - rewrite <- (columns_imputed t1 h1 E1).
    apply (run_steps_columns enrichment h1 t2 Hd Hr); [|exact H2].
    intros st Hin G. rewrite Forall_forall in Hr.
    destruct (Hr st Hin h0 h1 S0) as [G0 _]. rewrite <- G0 in G.
    destruct (run_steps_value_ok enrichment h0 t1 Hd enrichment_reads_sources H1 st Hin G)
      as [v Hv].
    pose proof (run_steps_assigns enrichment h0 t1 NDd Hd enrichment_reads_sources
                  H1 st Hin) as A.
    rewrite G, Hv in A. unfold has_column. rewrite (columns_imputed t1 h1 E1).
    exact (getitem_has_column t1 (dst st) v A).
  - exact (run_steps_NoDup _ _ _
             (eq_ind_r (fun l => NoDup l) ND1 (columns_imputed t1 h1 E1)) H2).
  - intros n. destruct (in_dec string_dec n derived_columns) as [Hin|Hout].
    + change derived_columns with (map dst enrichment) in Hin.
      apply in_map_iff in Hin as (st & <- & Hst).
      rewrite (run_steps_assigns enrichment h1 t2 NDd Hd Hr H2 st Hst).
      rewrite (run_steps_assigns enrichment h0 t1 NDd Hd Hr H1 st Hst).
      rewrite Forall_forall in Hr. destruct (Hr st Hst h0 h1 S0) as [<- <-].
      destruct (guard st h0) eqn:G; [reflexivity|].
      rewrite (getitem_of_imputed t1 h1 _ E1).
      rewrite (run_steps_assigns enrichment h0 t1 NDd Hd enrichment_reads_sources
                 H1 st Hst), G.
      symmetry. apply Himp.
    + rewrite <- (run_steps_same_sources _ _ _ Hd H2 n Hout).
      rewrite <- (S01 n Hout). symmetry. exact (S0 n Hout).
Qed.

(* ================================================================== *)
(** ** Further properties of the code *)

(** *** Invariants of the imputation *)

Lemma impute_keeps_shape (s s1 : Series) :
  impute s = Ok s1 -> dtype_of s1 = dtype_of s /\ len s1 = len s.
Proof.
  destruct s; unfold impute;
    cbn [is_numeric is_categorical dtype_of existsb dtype_eqb orb];
    unfold impute_numeric, impute_categorical; cbn [isnull_sum].
  - cbn. now intros [= <-].
  - destruct (0 <? count_null xs)%nat; cbn; intros [= <-]; cbn;
      unfold fill; now rewrite ?length_map.
  - destruct (0 <? count_null xs)%nat; [|now intros [= <-]].
    destruct (mode_0 (Object xs)); cbn; [|discriminate].
    intros [= <-]. cbn. unfold fill. now rewrite length_map.
  - destruct (0 <? count_null xs)%nat; [|now intros [= <-]].
    destruct (mode_0 (Category cats xs)); cbn; [|discriminate].
    intros [= <-]. cbn. unfold fill. now rewrite length_map.
  - cbn. now intros [= <-].
Qed.

Lemma map_result_Forall2 {A B : Type} (f : A -> result B) (R : A -> B -> Prop)
      (l : list A) (l' : list B) :
  (forall x y, f x = Ok y -> R x y) -> map_result f l = Ok l' -> Forall2 R l l'.
Proof.
  intros H. revert l'. induction l as [|x l IH]; intros l'; cbn.
  - intros [= <-]. constructor.
  - destruct (f x) as [y|] eqn:E; cbn; [|discriminate].
    destruct (map_result f l) as [ys|]; cbn; [|discriminate].
    intros [= <-]. constructor; auto.
Qed.

Lemma imputed_shape (df out : DataFrame) :
  map_result impute_column df = Ok out -> Forall2 same_shape df out.
Proof.
  apply map_result_Forall2. intros [n s] [n' s']. unfold impute_column. cbn [fst snd].
  destruct (impute s) as [s1|] eqn:E; cbn; [|discriminate].
  intros [= <- <-]. unfold same_shape. cbn. split; [reflexivity|].
  exact (impute_keeps_shape s s1 E).
Qed.

Lemma imputed_again (df out : DataFrame) :
  map_result impute_column df = Ok out -> map_result impute_column out = Ok out.
Proof.
  revert out. induction df as [|[n s] df IH]; intros out; cbn [map_result].
  - now intros [= <-].
  - unfold impute_column at 1. cbn [fst snd].
    destruct (impute s) as [s1|] eqn:E; cbn [bind]; [|discriminate].
    destruct (map_result impute_column df) as [t|] eqn:Et; cbn [bind]; [|discriminate].
    intros [= <-]. cbn [map_result]. unfold impute_column at 1. cbn [fst snd].
    rewrite (impute_idempotent s s1 E). cbn [bind]. now rewrite (IH t eq_refl).
Qed.

Lemma impute_raises_all_missing (s : Series) (e : exn) :
  impute s = Raise e -> all_missing s.
Proof.
  unfold impute, all_missing. destruct (is_numeric s) eqn:En.
  - destruct (impute_numeric_total s En) as (s' & -> & _). discriminate.
  - destruct (is_categorical s) eqn:Ec; [|discriminate].
    unfold impute_categorical.
    destruct (isnull_sum s) as [|k] eqn:Hn; cbn [Nat.ltb Nat.leb]; [discriminate|].
    intros H. split; [reflexivity|]. split; [discriminate|].
    destruct (present_strings s) as [|v vs] eqn:Hp; [reflexivity|].
    destruct (mode_0_ok s Ec) as [m Hm]; [now rewrite Hp|].
    rewrite Hm in H. discriminate.
Qed.

Lemma map_result_raises {A B : Type} (f : A -> result B) (l : list A) (e : exn) :
  map_result f l = Raise e -> exists x, In x l /\ f x = Raise e.
Proof.
  induction l as [|x l IH]; cbn; [discriminate|].
  destruct (f x) as [y|e'] eqn:E; cbn.
  - destruct (map_result f l) as [ys|e'']; cbn; [discriminate|].
    intros [= ->]. destruct (IH eq_refl) as (x' & Hin & Hx). eauto.
  - intros [= ->]. eauto.
Qed.

Lemma map_result_raises_at {A B : Type} (f : A -> result B) (l : list A) (x : A) (e : exn) :
  In x l -> f x = Raise e -> exists e', map_result f l = Raise e'.
Proof.
  induction l as [|y l IH]; cbn; [tauto|].
  intros [->|Hin] Hx.
  - rewrite Hx. cbn. eauto.
  - destruct (f y); cbn; [|eauto].
    destruct (IH Hin Hx) as [e' ->]. cbn. eauto.
Qed.

(** X1.  Imputing a table that the imputation returned changes nothing:
    for a table with distinct column names, when [_handle_missing_values]
    returns a table, it returns that same table when run on it. *)
Theorem imputation_idempotent (df out : DataFrame) :
  NoDup (columns df) ->
  _handle_missing_values df = Ok out ->
  _handle_missing_values out = Ok out.
Proof.
  intros ND H. rewrite (handle_missing_values_columns df ND) in H.
  rewrite handle_missing_values_columns.
  - exact (imputed_again df out H).
  - now rewrite (columns_imputed df out H).
Qed.

Lemma imputation_idempotent_witness :
  NoDup (columns tie_input) /\
  _handle_missing_values tie_input = Ok tie_output /\
  _handle_missing_values tie_output = Ok tie_output.
Proof.
  assert (ND : NoDup (columns tie_input)).
  { cbn. repeat constructor; cbn; intuition discriminate. }
  assert (H : _handle_missing_values tie_input = Ok tie_output) by reflexivity.
  split; [exact ND|]. split; [exact H|].
  exact (imputation_idempotent tie_input tie_output ND H).
Defined.

(** X2.  The imputation keeps the shape of the table: for a table with
    distinct column names, the table that [_handle_missing_values] returns
    has the same columns in the same order, each with the dtype and the
    number of rows it had. *)
Theorem imputation_keeps_shape (df out : DataFrame) :
  NoDup (columns df) ->
  _handle_missing_values df = Ok out ->
  Forall2 same_shape df out.
Proof.
  intros ND H. rewrite (handle_missing_values_columns df ND) in H.
  exact (imputed_shape df out H).
Qed.

Lemma imputation_keeps_shape_witness :
  NoDup (columns tie_input) /\
  _handle_missing_values tie_input = Ok tie_output /\
  Forall2 same_shape tie_input tie_output.
Proof.
  assert (ND : NoDup (columns tie_input)).
  { cbn. repeat constructor; cbn; intuition discriminate. }
  assert (H : _handle_missing_values tie_input = Ok tie_output) by reflexivity.
  split; [exact ND|]. split; [exact H|].
  exact (imputation_keeps_shape tie_input tie_output ND H).
Defined.

(** X3.  The only way the imputation fails: for a table with distinct
    column names, [_handle_missing_values] raises exactly when some
    [object] or [category] column has rows and not a single present
    value, and the exception is then a [KeyError]. *)
Theorem imputation_raises_iff (df : DataFrame) :
  NoDup (columns df) ->
  (_handle_missing_values df = Raise KeyError <->
   exists c, In c df /\ all_missing (snd c)) /\
  (forall e, _handle_missing_values df = Raise e -> e = KeyError).
Proof.
  intros ND. rewrite (handle_missing_values_columns df ND).
  assert (Hk : forall e, map_result impute_column df = Raise e -> e = KeyError).
  { intros e H. destruct (map_result_raises _ _ _ H) as ([n s] & _ & Hx).
    unfold impute_column in Hx. cbn [fst snd] in Hx.
    destruct (impute s) as [s1|e1] eqn:E; cbn in Hx; [discriminate|].
    injection Hx as <-. exact (impute_raises s e1 E). }
  split; [|exact Hk]. split.
  - intros H. destruct (map_result_raises _ _ _ H) as ([n s] & Hin & Hx).
    exists (n, s). split; [exact Hin|].
    unfold impute_column in Hx. cbn [fst snd] in Hx.
    destruct (impute s) as [s1|e1] eqn:E; cbn in Hx; [discriminate|].
    exact (impute_raises_all_missing s e1 E).
  - intros ([n s] & Hin & Hc & Hn & Hp). cbn [snd] in *.
    destruct (map_result_raises_at impute_column df (n, s) KeyError Hin) as [e He].
    + unfold impute_column. cbn [fst snd]. now rewrite (impute_all_missing s Hc Hn Hp).
    + now rewrite He, (Hk e He).
Qed.

Lemma imputation_raises_iff_witness :
  _handle_missing_values [("uf", Object [None; None])] = Raise KeyError.
Proof.
  assert (ND : NoDup (columns [("uf", Object [None; None])])).
  { cbn. repeat constructor; cbn; intuition discriminate. }
  apply (proj1 (imputation_raises_iff [("uf", Object [None; None])] ND)).
  exists ("uf", Object [None; None]). split; [now left|].
  unfold all_missing. cbn. repeat split; discriminate.
Defined.

(** *** The two enrichment steps as lists of assignments *)

Lemma decode_as_steps (df : DataFrame) :
  _decode_categorical df = run_steps (firstn 3 enrichment) df.
Proof.
  unfold _decode_categorical, enrichment, firstn, run_steps, run_step.
  cbn [guard value dst].
  destruct (has_column "sexo" df);
    [destruct (getitem df "sexo"); cbn [bind]; [|reflexivity]|];
    cbn [bind];
    match goal with |- context [has_column "grau_instrucao" ?d] =>
      destruct (has_column "grau_instrucao" d);
        [destruct (getitem d "grau_instrucao"); cbn [bind]; [|reflexivity]|]
    end;
    cbn [bind];
    match goal with |- context [has_column "tipo_movimentacao" ?d] =>
      destruct (has_column "tipo_movimentacao" d);
        [destruct (getitem d "tipo_movimentacao"); cbn [bind]; reflexivity|]
    end;
    reflexivity.
Qed.

Lemma derive_as_steps (df : DataFrame) :
  _create_derived_fields df = run_steps (skipn 3 enrichment) df.
Proof.
  unfold _create_derived_fields, enrichment, skipn, run_steps, run_step.
  cbn [guard value dst].
  destruct (has_column "ano" df && has_column "mes" df);
    [destruct (getitem df "ano"); cbn [bind]; [|reflexivity];
     destruct (getitem df "mes"); cbn [bind]; [|reflexivity];
     match goal with |- context [to_datetime_ym ?a ?b] =>
       destruct (to_datetime_ym a b); cbn [bind]; [|reflexivity]
     end|];
    cbn [bind];
    match goal with |- context [has_column "idade" ?d] =>
      destruct (has_column "idade" d);
        [destruct (getitem d "idade"); cbn [bind]; [|reflexivity];
         match goal with |- context [cut ?a faixa_etaria_bins faixa_etaria_labels] =>
           destruct (cut a faixa_etaria_bins faixa_etaria_labels); cbn [bind];
           [|reflexivity]
         end|]
    end;
    cbn [bind];
    match goal with |- context [has_column "salario" ?d] =>
      destruct (has_column "salario" d);
        [destruct (getitem d "salario"); cbn [bind]; [|reflexivity];
         match goal with |- context [cut ?a faixa_salarial_bins faixa_salarial_labels] =>
           destruct (cut a faixa_salarial_bins faixa_salarial_labels); cbn [bind];
           reflexivity
         end|]
    end;
    reflexivity.
Qed.

Lemma Forall_incl {A : Type} (P : A -> Prop) (l l' : list A) :
  incl l' l -> Forall P l -> Forall P l'.
Proof.
  intros Hi H. apply Forall_forall. intros x Hx.
  rewrite Forall_forall in H. apply H, Hi, Hx.
Qed.

Lemma reads_sources_firstn (n : nat) : Forall reads_sources (firstn n enrichment).
Proof.
  apply (Forall_incl _ enrichment); [|exact enrichment_reads_sources].
  intros x Hx. rewrite <- (firstn_skipn n enrichment). apply in_or_app. now left.
Qed.

Lemma reads_sources_skipn (n : nat) : Forall reads_sources (skipn n enrichment).
Proof.
  apply (Forall_incl _ enrichment); [|exact enrichment_reads_sources].
  intros x Hx. rewrite <- (firstn_skipn n enrichment). apply in_or_app. now right.
Qed.

(** The columns of the result: those of the table, then the new ones. *)
Lemma run_steps_prefix (sts : list step) (df out : DataFrame) :
  run_steps sts df = Ok out ->
  exists added, columns out = columns df ++ added /\ incl added (map dst sts).
Proof.
  revert df. induction sts as [|st sts IH]; intros df; cbn [run_steps map].
  - intros [= <-]. exists []. split; [now rewrite app_nil_r | intros x []].
  - destruct (run_step st df) as [d|] eqn:E; cbn [bind]; [|discriminate].
    intros H. destruct (IH d H) as (added & Hc & Hi).
    unfold run_step in E. destruct (guard st df).
    + destruct (value st df) as [v|]; cbn in E; [|discriminate].
      injection E as <-. rewrite columns_setitem in Hc.
      destruct (has_column (dst st) df).
      * exists added. split; [exact Hc|]. intros x Hx. right. now apply Hi.
      * exists (dst st :: added). rewrite Hc, <- app_assoc. split; [reflexivity|].
        intros x [<-|Hx]; [now left | right; now apply Hi].
    + injection E as <-. exists added. split; [exact Hc|].
      intros x Hx. right. now apply Hi.
Qed.

(** A loop of assignments whose right-hand sides only read columns that
    the guard has checked does not raise. *)
Lemma decode_returns (df : DataFrame) : exists out, _decode_categorical df = Ok out.
Proof.
  unfold _decode_categorical.
  destruct (has_column "sexo" df) eqn:E1.
  - apply has_column_getitem in E1 as [s1 ->]. cbn [bind].
    match goal with |- context [has_column "grau_instrucao" ?d] =>
      destruct (has_column "grau_instrucao" d) eqn:E2 end.
    + apply has_column_getitem in E2 as [s2 ->]. cbn [bind].
      match goal with |- context [has_column "tipo_movimentacao" ?d] =>
        destruct (has_column "tipo_movimentacao" d) eqn:E3 end; [|eauto].
      apply has_column_getitem in E3 as [s3 ->]. cbn [bind]. eauto.
    + cbn [bind].
      match goal with |- context [has_column "tipo_movimentacao" ?d] =>
        destruct (has_column "tipo_movimentacao" d) eqn:E3 end; [|eauto].
      apply has_column_getitem in E3 as [s3 ->]. cbn [bind]. eauto.
  - cbn [bind].
    match goal with |- context [has_column "grau_instrucao" ?d] =>
      destruct (has_column "grau_instrucao" d) eqn:E2 end.
    + apply has_column_getitem in E2 as [s2 ->]. cbn [bind].
      match goal with |- context [has_column "tipo_movimentacao" ?d] =>
        destruct (has_column "tipo_movimentacao" d) eqn:E3 end; [|eauto].
      apply has_column_getitem in E3 as [s3 ->]. cbn [bind]. eauto.
    + cbn [bind].
      match goal with |- context [has_column "tipo_movimentacao" ?d] =>
        destruct (has_column "tipo_movimentacao" d) eqn:E3 end; [|eauto].
      apply has_column_getitem in E3 as [s3 ->]. cbn [bind]. eauto.
Qed.

(** X4.  Decoding never fails and only adds: for a table with distinct
    column names [_decode_categorical] returns a table; every column
    other than [sexo_desc], [grau_instrucao_desc] and
    [tipo_movimentacao_desc] is in it as it was, and its columns are those
    of the input, in their order, followed by the decoded columns that the
    input did not have. *)
Theorem decode_only_adds (df : DataFrame) :
  NoDup (columns df) ->
  exists out added,
    _decode_categorical df = Ok out /\
    (forall col, ~ In col decoded_columns -> getitem out col = getitem df col) /\
    columns out = columns df ++ added /\
    incl added decoded_columns /\
    NoDup (columns out).
Proof.
  intros ND. destruct (decode_returns df) as [out H].
  pose proof H as Hs. rewrite decode_as_steps in Hs.
  destruct (run_steps_prefix _ _ _ Hs) as (added & Hc & Hi).
  exists out, added. split; [exact H|]. split; [|split; [exact Hc|split; [exact Hi|]]].
  - intros col Hn. exact (run_steps_keeps _ _ _ col Hs Hn).
  - exact (run_steps_NoDup _ _ _ ND Hs).
Qed.

Lemma decode_only_adds_witness :
  exists out added,
    _decode_categorical twice_input = Ok out /\
    (forall col, ~ In col decoded_columns -> getitem out col = getitem twice_input col) /\
    columns out = columns twice_input ++ added /\
    incl added decoded_columns /\
    NoDup (columns out).
Proof.
  apply (decode_only_adds twice_input).
  cbn. repeat constructor; cbn; intuition discriminate.
Defined.

(** *** The lookup tables *)

Lemma Qeq_bool_inject_Z (a b : Z) : Qeq_bool (inject_Z a) (inject_Z b) = Z.eqb a b.
Proof.
  destruct (Z.eqb a b) eqn:E.
  - apply Z.eqb_eq in E. subst. apply Qeq_bool_refl.
  - apply Z.eqb_neq in E. destruct (Qeq_bool (inject_Z a) (inject_Z b)) eqn:Q; [|reflexivity].
    apply Qeq_bool_iff in Q. unfold Qeq in Q. cbn in Q. lia.
Qed.

Lemma grau_instrucao_lookup (z : Z) :
  lookup_int (inject_Z z) grau_instrucao_mapping
  = code_label (map snd grau_instrucao_mapping) z.
Proof.
  unfold grau_instrucao_mapping, lookup_int, code_label. rewrite !Qeq_bool_inject_Z.
  destruct (Z.leb_spec 1 z) as [H1|H1].
  - destruct (Z_le_gt_dec z 9) as [H9|H9].
    + assert (H : (z = 1 \/ z = 2 \/ z = 3 \/ z = 4 \/ z = 5 \/ z = 6 \/ z = 7
                  \/ z = 8 \/ z = 9)%Z) by lia.
      repeat destruct H as [->|H]; try subst z; reflexivity.
    + repeat match goal with
             | |- context [Z.eqb ?k z] =>
                 replace (Z.eqb k z) with false by (symmetry; apply Z.eqb_neq; lia)
             end.
      symmetry. apply nth_error_None. cbn [map List.length snd]. lia.
  - repeat match goal with
           | |- context [Z.eqb ?k z] =>
               replace (Z.eqb k z) with false by (symmetry; apply Z.eqb_neq; lia)
           end.
    reflexivity.
Qed.

Lemma tipo_movimentacao_lookup (z : Z) :
  lookup_int (inject_Z z) tipo_movimentacao_mapping
  = code_label (map snd tipo_movimentacao_mapping) z.
Proof.
  unfold tipo_movimentacao_mapping, lookup_int, code_label. rewrite !Qeq_bool_inject_Z.
  destruct (Z.leb_spec 1 z) as [H1|H1].
  - destruct (Z_le_gt_dec z 3) as [H9|H9].
    + assert (H : (z = 1 \/ z = 2 \/ z = 3)%Z) by lia.
      repeat destruct H as [->|H]; try subst z; reflexivity.
    + repeat match goal with
             | |- context [Z.eqb ?k z] =>
                 replace (Z.eqb k z) with false by (symmetry; apply Z.eqb_neq; lia)
             end.
      symmetry. apply nth_error_None. cbn [map List.length snd]. lia.
  - repeat match goal with
           | |- context [Z.eqb ?k z] =>
               replace (Z.eqb k z) with false by (symmetry; apply Z.eqb_neq; lia)
           end.
    reflexivity.
Qed.

Lemma sexo_lookup (c : option string) :
  opt_bind (fun k => lookup_str k sexo_mapping) c = sexo_label c.
Proof.
  destruct c as [k|]; [|reflexivity].
  unfold sexo_mapping, sexo_label. cbn [opt_bind lookup_str].
  rewrite (String.eqb_sym "1" k), (String.eqb_sym "2" k). reflexivity.
Qed.

(** What the three assignments of [_decode_categorical] leave in the
    decoded columns. *)
Lemma decode_assigns (df out : DataFrame) :
  _decode_categorical df = Ok out ->
  forall st, In st (firstn 3 enrichment) ->
    getitem out (dst st) = if guard st df then value st df else getitem df (dst st).
Proof.
  intros H. rewrite decode_as_steps in H.
  apply (run_steps_assigns (firstn 3 enrichment) df out); [| |apply reads_sources_firstn|exact H].
  - cbn. repeat constructor; cbn; intuition discriminate.
  - intros x Hx. cbn in Hx. unfold derived_columns. cbn. tauto.
Qed.

(** X5.  The decoded columns follow the lookup tables: in the table
    that [_decode_categorical] returns, [sexo_desc] holds [Masculino] for
    the string ['1'], [Feminino] for ['2'] and a missing value for any
    other cell of a [sexo] column of strings; [grau_instrucao_desc] and
    [tipo_movimentacao_desc] hold the label of the codes 1 to 9 and 1 to 3
    of an integer column and a missing value for any other code. *)
Theorem decode_follows_tables (df out : DataFrame) :
  NoDup (columns df) ->
  _decode_categorical df = Ok out ->
  (forall xs, getitem df "sexo" = Ok (Object xs) ->
     getitem out "sexo_desc" = Ok (Object (map sexo_label xs))) /\
  (forall xs, getitem df "grau_instrucao" = Ok (Int64 xs) ->
     getitem out "grau_instrucao_desc"
     = Ok (Object (map (code_label (map snd grau_instrucao_mapping)) xs))) /\
  (forall xs, getitem df "tipo_movimentacao" = Ok (Int64 xs) ->
     getitem out "tipo_movimentacao_desc"
     = Ok (Object (map (code_label (map snd tipo_movimentacao_mapping)) xs))) /\
  (forall labels z, code_label labels z = None <->
                    (z < 1 \/ Z.of_nat (List.length labels) < z)%Z).
Proof.
  intros _ H. pose proof (decode_assigns df out H) as A.
  split; [|split; [|split]].
  - intros xs Hx. pose proof (A _ (or_introl eq_refl)) as E.
    cbn [guard value dst] in E. rewrite E.
    rewrite (getitem_has_column _ _ _ Hx), Hx. cbn [bind map_str].
    do 2 f_equal. apply map_ext. exact sexo_lookup.
  - intros xs Hx. pose proof (A _ (or_intror (or_introl eq_refl))) as E.
    cbn [guard value dst] in E. rewrite E.
    rewrite (getitem_has_column _ _ _ Hx), Hx. cbn [bind map_int].
    do 2 f_equal. apply map_ext. exact grau_instrucao_lookup.
  - intros xs Hx. pose proof (A _ (or_intror (or_intror (or_introl eq_refl)))) as E.
    cbn [guard value dst] in E. rewrite E.
    rewrite (getitem_has_column _ _ _ Hx), Hx. cbn [bind map_int].
    do 2 f_equal. apply map_ext. exact tipo_movimentacao_lookup.
  - intros labels z. unfold code_label. destruct (Z.leb_spec 1 z) as [H1|H1].
    + rewrite nth_error_None. lia.
    + split; [lia | reflexivity].
Qed.

Lemma decode_follows_tables_witness :
  exists out,
    _decode_categorical codes = Ok out /\
    getitem out "sexo_desc" = Ok (Object [Some "Masculino"; Some "Feminino"; None]) /\
    getitem out "grau_instrucao_desc" = Ok (Object [Some "Médio Completo"; None; None]) /\
    getitem out "tipo_movimentacao_desc"
    = Ok (Object [Some "Admissão"; Some "Transferência"; None]).
Proof.
  assert (ND : NoDup (columns codes)).
  { cbn. repeat constructor; cbn; intuition discriminate. }
  destruct (_decode_categorical codes) as [out|] eqn:E; [|discriminate E].
  destruct (decode_follows_tables codes out ND E) as (H1 & H2 & H3 & _).
  exists out. split; [reflexivity|]. split; [|split].
  - exact (H1 _ eq_refl).
  - exact (H2 _ eq_refl).
  - exact (H3 _ eq_refl).
Defined.

(** X6.  The lookup is sensitive to the type of the codes: the keys of
    the [sexo] table are strings and those of the two other tables are
    integers, so in the table that [_decode_categorical] returns
    [sexo_desc] is missing in every row when [sexo] is a column of
    numbers, and [grau_instrucao_desc] and [tipo_movimentacao_desc] are
    missing in every row when their column is a column of strings. *)
Theorem decode_wrong_type (df out : DataFrame) :
  NoDup (columns df) ->
  _decode_categorical df = Ok out ->
  (forall s, getitem df "sexo" = Ok s -> is_numeric s = true ->
     getitem out "sexo_desc" = Ok (Object (repeat None (len s)))) /\
  (forall xs, getitem df "grau_instrucao" = Ok (Object xs) ->
     getitem out "grau_instrucao_desc" = Ok (Object (repeat None (List.length xs)))) /\
  (forall xs, getitem df "tipo_movimentacao" = Ok (Object xs) ->
     getitem out "tipo_movimentacao_desc" = Ok (Object (repeat None (List.length xs)))).
Proof.
  intros _ H. pose proof (decode_assigns df out H) as A.
  split; [|split].
  - intros s Hx Hn. pose proof (A _ (or_introl eq_refl)) as E.
    cbn [guard value dst] in E. rewrite E.
    rewrite (getitem_has_column _ _ _ Hx), Hx. cbn [bind].
    destruct s; try discriminate; cbn [map_str len]; now rewrite map_const.
  - intros xs Hx. pose proof (A _ (or_intror (or_introl eq_refl))) as E.
    cbn [guard value dst] in E. rewrite E.
    rewrite (getitem_has_column _ _ _ Hx), Hx. cbn [bind map_int].
    now rewrite map_const.
  - intros xs Hx. pose proof (A _ (or_intror (or_intror (or_introl eq_refl)))) as E.
    cbn [guard value dst] in E. rewrite E.
    rewrite (getitem_has_column _ _ _ Hx), Hx. cbn [bind map_int].
    now rewrite map_const.
Qed.

Lemma decode_wrong_type_witness :
  exists out,
    _decode_categorical miscoded = Ok out /\
    getitem out "sexo_desc" = Ok (Object [None; None]) /\
    getitem out "grau_instrucao_desc" = Ok (Object [None; None]) /\
    getitem out "tipo_movimentacao_desc" = Ok (Object [None; None]).
Proof.
  assert (ND : NoDup (columns miscoded)).
  { cbn. repeat constructor; cbn; intuition discriminate. }
  destruct (_decode_categorical miscoded) as [out|] eqn:E; [|discriminate E].
  destruct (decode_wrong_type miscoded out ND E) as (H1 & H2 & H3).
  exists out. split; [reflexivity|]. split; [|split].
  - exact (H1 _ eq_refl eq_refl).
  - exact (H2 _ eq_refl).
  - exact (H3 _ eq_refl).
Defined.

(** *** Brackets: outside the range *)

(** Outside the brackets there is no label. *)
Lemma cut_value_none (a s : Q) :
  (cut_value faixa_etaria_bins faixa_etaria_labels a = None <-> (a < 0 \/ 100 <= a)%Q) /\
  (cut_value faixa_salarial_bins faixa_salarial_labels s = None <-> (s < 0)%Q).
Proof.
  split; split.
  - intros H. destruct (Qlt_le_dec a 0) as [H0|H0]; [now left|].
    destruct (Qlt_le_dec a 100) as [H1|H1]; [|now right].
    destruct (age_partition a H0 H1) as (i & l & _ & _ & _ & Hc). congruence.
  - unfold faixa_etaria_bins, faixa_etaria_labels, cut_value.
    intros [H|H]; cbn; edges; reflexivity.
  - intros H. destruct (Qlt_le_dec s 0) as [H0|H0]; [exact H0|].
    destruct (salary_partition s H0) as (i & l & _ & _ & _ & Hc). congruence.
  - unfold faixa_salarial_bins, faixa_salarial_labels, cut_value.
    intros H; cbn; edges; reflexivity.
Qed.

(** *** The date of a row *)

Lemma first_days_parse (ys ms : list Z) :
  Forall (fun y => 1678 <= y <= 2261)%Z ys ->
  Forall (fun m => 1 <= m <= 12)%Z ms ->
  to_datetime_ym (Int64 ys) (Int64 ms) = Ok (Datetime64 (first_days ys ms)).
Proof.
  intros Hy Hm. unfold to_datetime_ym, first_days. cbn [str_numeral].
  assert (H : parse_rows
                (combine (map (fun z => if (0 <=? z)%Z then Some z else None) ys)
                         (map (fun z => if (0 <=? z)%Z then Some z else None) ms))
              = Ok (map (fun ym => Some (mkdate (fst ym) (snd ym) 1)) (combine ys ms))).
  { revert ms Hm. induction Hy as [|y ys Hy Hys IH]; intros ms Hm; [reflexivity|].
    destruct Hm as [|m ms Hm Hms]; [reflexivity|].
    cbn [map combine parse_rows fst snd].
    replace (0 <=? y)%Z with true by (symmetry; apply Z.leb_le; lia).
    replace (0 <=? m)%Z with true by (symmetry; apply Z.leb_le; lia).
    assert (T : timestamp_ok y m = true).
    { unfold timestamp_ok.
      replace (1 <=? m)%Z with true by (symmetry; apply Z.leb_le; lia).
      replace (m <=? 12)%Z with true by (symmetry; apply Z.leb_le; lia).
      replace (1677 <? y)%Z with true by (symmetry; apply Z.ltb_lt; lia).
      replace (y <? 2262)%Z with true by (symmetry; apply Z.ltb_lt; lia).
      reflexivity. }
    rewrite T, (IH ms Hms). reflexivity. }
  now rewrite H.
Qed.

Lemma cut_numeric (s : Series) (bins : list edge) (labels : list string) :
  is_numeric s = true -> exists c, cut s bins labels = Ok c /\ len c = len s.
Proof.
  destruct s; try discriminate; intros _; cbn; eexists; split; try reflexivity;
    cbn; now rewrite length_map.
Qed.

Lemma derive_assigns (df out : DataFrame) :
  _create_derived_fields df = Ok out ->
  forall st, In st (skipn 3 enrichment) ->
    getitem out (dst st) = if guard st df then value st df else getitem df (dst st).
Proof.
  intros H. rewrite derive_as_steps in H.
  apply (run_steps_assigns (skipn 3 enrichment) df out); [| |apply reads_sources_skipn|exact H].
  - cbn. repeat constructor; cbn; intuition discriminate.
  - intros x Hx. cbn in Hx. unfold derived_columns. cbn. tauto.
Qed.

(** The two binning steps return when their column is numeric or absent. *)
Lemma binning_returns (d : DataFrame) :
  (forall s, getitem d "idade" = Ok s -> is_numeric s = true) ->
  (forall s, getitem d "salario" = Ok s -> is_numeric s = true) ->
  exists out,
    (derived_df <-
       (if has_column "idade" d
        then (idade <- getitem d "idade" ;;
              faixa <- cut idade faixa_etaria_bins faixa_etaria_labels ;;
              Ok (setitem d "faixa_etaria" faixa))
        else Ok d) ;;
     if has_column "salario" derived_df
     then (salario <- getitem derived_df "salario" ;;
           faixa <- cut salario faixa_salarial_bins faixa_salarial_labels ;;
           Ok (setitem derived_df "faixa_salarial" faixa))
     else Ok derived_df) = Ok out.
Proof.
  intros Hi Hs.
  assert (Hsal : forall d', (forall s, getitem d' "salario" = Ok s -> is_numeric s = true) ->
            exists out,
              (if has_column "salario" d'
               then (salario <- getitem d' "salario" ;;
                     faixa <- cut salario faixa_salarial_bins faixa_salarial_labels ;;
                     Ok (setitem d' "faixa_salarial" faixa))
               else Ok d') = Ok out).
  { intros d' H. destruct (has_column "salario" d') eqn:E; [|eauto].
    apply has_column_getitem in E as [s Hg]. rewrite Hg. cbn [bind].
    destruct (cut_numeric s faixa_salarial_bins faixa_salarial_labels (H s Hg))
      as (c & -> & _). cbn [bind]. eauto. }
  destruct (has_column "idade" d) eqn:E.
  - apply has_column_getitem in E as [s Hg]. rewrite Hg. cbn [bind].
    destruct (cut_numeric s faixa_etaria_bins faixa_etaria_labels (Hi s Hg))
      as (c & -> & _). cbn [bind].
    apply Hsal. intros s'. rewrite getitem_setitem_other by discriminate. apply Hs.
  - cbn [bind]. now apply Hsal.
Qed.

(** *** The brackets of a row *)

Lemma nth_map_option {A B : Type} (f : A -> option B) (xs : list A) (i : nat) :
  nth i (map f xs) None = match nth_error xs i with Some x => f x | None => None end.
Proof.
  revert i. induction xs as [|x xs IH]; intros [|i]; cbn; try reflexivity. apply IH.
Qed.

(** The cell that [pd.cut] gives for a row of a numeric column. *)
Lemma cut_cell (s c : Series) (bins : list edge) (labels : list string) (i : nat) :
  is_numeric s = true ->
  cut s bins labels = Ok c ->
  iloc c i
  = match iloc s i with
    | Some (Num a) =>
        option_map (fun l => Lab (index_of l labels) l) (cut_value bins labels a)
    | _ => None
    end.
Proof.
  intros Hn H. unfold iloc.
  destruct s; try discriminate; cbn [cut] in H; injection H as <-; cbn [cells];
    rewrite map_map, !nth_map_option; destruct (nth_error xs i) as [x|]; try reflexivity.
  now destruct x.
Qed.

(** The derived fields are built whenever the date can be and the age and
    the salary, when present, are numbers. *)
Lemma derive_returns (df : DataFrame) :
  dated df ->
  (forall s, getitem df "idade" = Ok s -> is_numeric s = true) ->
  (forall s, getitem df "salario" = Ok s -> is_numeric s = true) ->
  exists out, _create_derived_fields df = Ok out.
Proof.
  intros Hd Hi Hs. unfold _create_derived_fields.
  destruct (has_column "ano" df && has_column "mes" df) eqn:E.
  - apply andb_prop in E as [Ea Em].
    apply has_column_getitem in Ea as [ano Ha]. apply has_column_getitem in Em as [mes Hm].
    rewrite Ha, Hm. cbn [bind]. destruct (Hd ano mes Ha Hm) as [data ->]. cbn [bind].
    apply binning_returns; intros s; rewrite getitem_setitem_other by discriminate;
      [apply Hi | apply Hs].
  - cbn [bind]. now apply binning_returns.
Qed.

Lemma age_label_code (i : nat) (l : string) :
  nth_error faixa_etaria_labels i = Some l -> index_of l faixa_etaria_labels = i.
Proof.
  do 7 (destruct i as [|i]; [intros [= <-]; reflexivity|]).
  destruct i; discriminate.
Qed.

Lemma salary_label_code (i : nat) (l : string) :
  nth_error faixa_salarial_labels i = Some l -> index_of l faixa_salarial_labels = i.
Proof.
  do 6 (destruct i as [|i]; [intros [= <-]; reflexivity|]).
  destruct i; discriminate.
Qed.

(** The two bracket columns of the output, cell by cell. *)
Lemma derived_brackets (df out : DataFrame) :
  _create_derived_fields df = Ok out ->
  (forall s i, getitem df "idade" = Ok s -> is_numeric s = true ->
     iloc (column out "faixa_etaria") i
     = match iloc s i with
       | Some (Num a) =>
           option_map (fun l => Lab (index_of l faixa_etaria_labels) l)
                      (cut_value faixa_etaria_bins faixa_etaria_labels a)
       | _ => None
       end) /\
  (forall s i, getitem df "salario" = Ok s -> is_numeric s = true ->
     iloc (column out "faixa_salarial") i
     = match iloc s i with
       | Some (Num a) =>
           option_map (fun l => Lab (index_of l faixa_salarial_labels) l)
                      (cut_value faixa_salarial_bins faixa_salarial_labels a)
       | _ => None
       end).
Proof.
  intros H. split; intros s i Hs Hn.
  - pose proof (derive_assigns df out H _ (or_intror (or_introl eq_refl))) as E.
    cbn [guard value dst] in E.
    rewrite (getitem_has_column _ _ _ Hs), Hs in E. cbn [bind] in E.
    destruct (cut_numeric s faixa_etaria_bins faixa_etaria_labels Hn) as (c & Hc & _).
    rewrite Hc in E. unfold column. rewrite E. now apply cut_cell.
  - pose proof (derive_assigns df out H _ (or_intror (or_intror (or_introl eq_refl)))) as E.
    cbn [guard value dst] in E.
    rewrite (getitem_has_column _ _ _ Hs), Hs in E. cbn [bind] in E.
    destruct (cut_numeric s faixa_salarial_bins faixa_salarial_labels Hn) as (c & Hc & _).
    rewrite Hc in E. unfold column. rewrite E. now apply cut_cell.
Qed.

Lemma age_labelled (a : Q) :
  (0 <= a)%Q -> (a < 100)%Q ->
  labelled faixa_etaria_bins faixa_etaria_labels a
           (option_map (fun l => Lab (index_of l faixa_etaria_labels) l)
                       (cut_value faixa_etaria_bins faixa_etaria_labels a)).
Proof.
  intros H0 H1. destruct (age_partition a H0 H1) as (i & l & Hl & Hb & Hu & Hc).
  exists i, l. rewrite Hc. cbn [option_map]. now rewrite (age_label_code i l Hl).
Qed.

Lemma salary_labelled (x : Q) :
  (0 <= x)%Q ->
  labelled faixa_salarial_bins faixa_salarial_labels x
           (option_map (fun l => Lab (index_of l faixa_salarial_labels) l)
                       (cut_value faixa_salarial_bins faixa_salarial_labels x)).
Proof.
  intros H0. destruct (salary_partition x H0) as (i & l & Hl & Hb & Hu & Hc).
  exists i, l. rewrite Hc. cbn [option_map]. now rewrite (salary_label_code i l Hl).
Qed.

(** A value on a boundary has the label of the bracket above it. *)
Lemma age_boundary (a b : Q) (l : string) (c : option scalar) :
  In (b, l) age_boundaries -> (a == b)%Q ->
  labelled faixa_etaria_bins faixa_etaria_labels a c -> label_of c = Some l.
Proof.
  intros Hin Hab (i & l' & Hl & _ & Hu & ->). cbn [label_of]. f_equal.
  unfold age_boundaries in Hin. cbn [In] in Hin.
  assert (K : forall j, in_bracket faixa_etaria_bins j a ->
                        nth_error faixa_etaria_labels j = Some l -> l' = l).
  { intros j Hj Hlj. rewrite (Hu j Hj) in Hlj. congruence. }
  destruct Hin as [E|[E|[E|[E|[E|[E|[]]]]]]]; injection E as <- <-.
  - apply (K 1); [cbn; lra | reflexivity].
  - apply (K 2); [cbn; lra | reflexivity].
  - apply (K 3); [cbn; lra | reflexivity].
  - apply (K 4); [cbn; lra | reflexivity].
  - apply (K 5); [cbn; lra | reflexivity].
  - apply (K 6); [cbn; lra | reflexivity].
Qed.

Lemma salary_boundary (x b : Q) (l : string) (c : option scalar) :
  In (b, l) salary_boundaries -> (x == b)%Q ->
  labelled faixa_salarial_bins faixa_salarial_labels x c -> label_of c = Some l.
Proof.
  intros Hin Hab (i & l' & Hl & _ & Hu & ->). cbn [label_of]. f_equal.
  unfold salary_boundaries in Hin. cbn [In] in Hin.
  assert (K : forall j, in_bracket faixa_salarial_bins j x ->
                        nth_error faixa_salarial_labels j = Some l -> l' = l).
  { intros j Hj Hlj. rewrite (Hu j Hj) in Hlj. congruence. }
  destruct Hin as [E|[E|[E|[E|[E|[]]]]]]; injection E as <- <-.
  - apply (K 1); [cbn; lra | reflexivity].
  - apply (K 2); [cbn; lra | reflexivity].
  - apply (K 3); [cbn; lra | reflexivity].
  - apply (K 4); [cbn; lra | reflexivity].
  - apply (K 5); [cbn; lra | reflexivity].
Qed.

(** C3.  The brackets of the derived columns partition the ages and the
    salaries.  For a table whose [idade] and [salario] columns are numeric
    and whose date can be built, [_create_derived_fields] returns a table
    in which, row by row, an age in [[0, 100)] lies in exactly one of the
    seven age brackets and [faixa_etaria] carries the label of that
    bracket, and a salary in [[0, oo)] lies in exactly one of the six
    salary brackets and [faixa_salarial] carries the label of that
    bracket.  The brackets are closed on the left and open on the right:
    the boundaries 18, 25, 35, 45, 55, 65 and 1100, 2200, 3300, 5000, 10000
    carry the label of the bracket above them, and every salary from 10000
    up is in the unbounded last bracket. *)
Theorem bracket_partition (df : DataFrame) (idade salario : Series) :
  getitem df "idade" = Ok idade ->
  getitem df "salario" = Ok salario ->
  is_numeric idade = true ->
  is_numeric salario = true ->
  dated df ->
  exists out,
    _create_derived_fields df = Ok out /\
    (forall i a,
        iloc idade i = Some (Num a) -> (0 <= a)%Q -> (a < 100)%Q ->
        labelled faixa_etaria_bins faixa_etaria_labels a
                 (iloc (column out "faixa_etaria") i)) /\
    (forall i x,
        iloc salario i = Some (Num x) -> (0 <= x)%Q ->
        labelled faixa_salarial_bins faixa_salarial_labels x
                 (iloc (column out "faixa_salarial") i)) /\
    (forall i a b l,
        iloc idade i = Some (Num a) -> In (b, l) age_boundaries -> (a == b)%Q ->
        label_of (iloc (column out "faixa_etaria") i) = Some l) /\
    (forall i x b l,
        iloc salario i = Some (Num x) -> In (b, l) salary_boundaries -> (x == b)%Q ->
        label_of (iloc (column out "faixa_salarial") i) = Some l) /\
    (forall i x,
        iloc salario i = Some (Num x) -> (10000 <= x)%Q ->
        in_bracket faixa_salarial_bins 5 x /\
        iloc (column out "faixa_salarial") i = Some (Lab 5 "10+ SM")).
Proof.
  intros Hi Hs Ni Ns Hd.
  destruct (derive_returns df Hd) as [out H].
  { intros s E. congruence. }
  { intros s E. congruence. }
  exists out. split; [exact H|].
  destruct (derived_brackets df out H) as [Be Bs].
  assert (Ae : forall i a,
             iloc idade i = Some (Num a) -> (0 <= a)%Q -> (a < 100)%Q ->
             labelled faixa_etaria_bins faixa_etaria_labels a
                      (iloc (column out "faixa_etaria") i)).
  { intros i a E H0 H1. rewrite (Be idade i Hi Ni), E. now apply age_labelled. }
  assert (As : forall i x,
             iloc salario i = Some (Num x) -> (0 <= x)%Q ->
             labelled faixa_salarial_bins faixa_salarial_labels x
                      (iloc (column out "faixa_salarial") i)).
  { intros i x E H0. rewrite (Bs salario i Hs Ns), E. now apply salary_labelled. }
  split; [exact Ae|]. split; [exact As|]. split; [|split].
  - intros i a b l E Hin Hab. apply (age_boundary a b l _ Hin Hab).
    unfold age_boundaries in Hin. cbn [In] in Hin.
    apply Ae; [exact E | |];
      destruct Hin as [F|[F|[F|[F|[F|[F|[]]]]]]]; injection F as <- <-; lra.
  - intros i x b l E Hin Hab. apply (salary_boundary x b l _ Hin Hab).
    unfold salary_boundaries in Hin. cbn [In] in Hin.
    apply As; [exact E|];
      destruct Hin as [F|[F|[F|[F|[F|[]]]]]]; injection F as <- <-; lra.
  - intros i x E Hx. split; [cbn; lra|].
    destruct (As i x E) as (j & l & Hl & Hb & Hu & ->); [lra|].
    assert (Hj : 5 = j) by (apply Hu; cbn; lra). subst j.
    injection Hl as <-. reflexivity.
Qed.

Lemma bracket_partition_witness :
  exists out,
    _create_derived_fields twice_input = Ok out /\
    labelled faixa_etaria_bins faixa_etaria_labels 30 (iloc (column out "faixa_etaria") 0) /\
    labelled faixa_salarial_bins faixa_salarial_labels 2000
             (iloc (column out "faixa_salarial") 0).
Proof.
  destruct (bracket_partition twice_input (column twice_input "idade")
                              (column twice_input "salario"))
    as (out & H & Ha & Hs & _).
  - reflexivity.
  - reflexivity.
  - reflexivity.
  - reflexivity.
  - intros ano mes [= <-] [= <-]. eexists. reflexivity.
  - exists out. split; [exact H|]. split.
    + apply Ha; [reflexivity | unfold Qle; simpl; lia | unfold Qlt; simpl; lia].
    + apply Hs; [reflexivity | unfold Qle; simpl; lia].
Defined.

(** X7.  Outside the brackets a row has no label: for a table whose
    [idade] and [salario] columns are numeric and whose date can be built,
    [_create_derived_fields] returns a table in which [faixa_etaria] is
    missing in a row exactly when the age is missing, negative, or 100 and
    more, and [faixa_salarial] is missing exactly when the salary is
    missing or negative. *)
Theorem bracket_out_of_range (df : DataFrame) (idade salario : Series) :
  getitem df "idade" = Ok idade ->
  getitem df "salario" = Ok salario ->
  is_numeric idade = true ->
  is_numeric salario = true ->
  dated df ->
  exists out,
    _create_derived_fields df = Ok out /\
    (forall i,
        iloc (column out "faixa_etaria") i = None <->
        match iloc idade i with
        | Some (Num a) => (a < 0 \/ 100 <= a)%Q
        | _ => True
        end) /\
    (forall i,
        iloc (column out "faixa_salarial") i = None <->
        match iloc salario i with
        | Some (Num x) => (x < 0)%Q
        | _ => True
        end).
Proof.
  intros Hi Hs Ni Ns Hd.
  destruct (derive_returns df Hd) as [out H].
  { intros s E. congruence. }
  { intros s E. congruence. }
  exists out. split; [exact H|].
  destruct (derived_brackets df out H) as [Be Bs].
  split; intros i.
  - rewrite (Be idade i Hi Ni).
    destruct (iloc idade i) as [[a| | |]|]; try tauto.
    rewrite <- (proj1 (cut_value_none a 0)).
    destruct (cut_value faixa_etaria_bins faixa_etaria_labels a); cbn [option_map];
      split; congruence.
  - rewrite (Bs salario i Hs Ns).
    destruct (iloc salario i) as [[x| | |]|]; try tauto.
    rewrite <- (proj2 (cut_value_none 0 x)).
    destruct (cut_value faixa_salarial_bins faixa_salarial_labels x); cbn [option_map];
      split; congruence.
Qed.

Lemma bracket_out_of_range_witness :
  exists out,
    _create_derived_fields ages = Ok out /\
    iloc (column out "faixa_etaria") 0 <> None /\
    iloc (column out "faixa_etaria") 1 = None /\
    iloc (column out "faixa_salarial") 0 <> None /\
    iloc (column out "faixa_salarial") 2 = None.
Proof.
  destruct (bracket_out_of_range ages (column ages "idade") (column ages "salario"))
    as (out & H & Ha & Hs).
  - reflexivity.
  - reflexivity.
  - reflexivity.
  - reflexivity.
  - intros ano mes [=].
  - exists out. split; [exact H|]. repeat split.
    + intros E. apply Ha in E. cbn in E. destruct E as [E|E]; unfold Qlt, Qle in E; simpl in E; lia.
    + apply Ha. cbn. right. unfold Qle. simpl. lia.
    + intros E. apply Hs in E. cbn in E. unfold Qlt in E. simpl in E. lia.
    + apply Hs. cbn. exact I.
Defined.

(** X8.  The date of a row is the first day of its month: for a table
    with distinct column names whose [ano] and [mes] are integer columns,
    the years between 1678 and 2261 and the months between 1 and 12, and
    whose [idade] and [salario], when present, are numeric,
    [_create_derived_fields] returns a table whose [data] column holds, in
    each row, day 1 of the month [mes] of the year [ano]. *)
Theorem date_is_first_of_month (df : DataFrame) (ys ms : list Z) :
  NoDup (columns df) ->
  getitem df "ano" = Ok (Int64 ys) ->
  getitem df "mes" = Ok (Int64 ms) ->
  Forall (fun y => 1678 <= y <= 2261)%Z ys ->
  Forall (fun m => 1 <= m <= 12)%Z ms ->
  (forall s, getitem df "idade" = Ok s -> is_numeric s = true) ->
  (forall s, getitem df "salario" = Ok s -> is_numeric s = true) ->
  exists out,
    _create_derived_fields df = Ok out /\
    getitem out "data" = Ok (Datetime64 (first_days ys ms)).
Proof.
  intros _ Hy Hm Fy Fm Hi Hs.
  assert (R : exists out, _create_derived_fields df = Ok out).
  { unfold _create_derived_fields.
    rewrite (getitem_has_column _ _ _ Hy), (getitem_has_column _ _ _ Hm), Hy, Hm.
    cbn [andb bind]. rewrite (first_days_parse ys ms Fy Fm). cbn [bind].
    apply binning_returns; intros s; rewrite getitem_setitem_other by discriminate;
      [apply Hi | apply Hs]. }
  destruct R as [out H]. exists out. split; [exact H|].
  pose proof (derive_assigns df out H _ (or_introl eq_refl)) as E.
  cbn [guard value dst] in E. rewrite E.
  rewrite (getitem_has_column _ _ _ Hy), (getitem_has_column _ _ _ Hm), Hy, Hm.
  cbn [andb bind]. exact (first_days_parse ys ms Fy Fm).
Qed.

Lemma date_is_first_of_month_witness :
  exists out,
    _create_derived_fields two_months = Ok out /\
    getitem out "data"
    = Ok (Datetime64 [Some (mkdate 2021 1 1); Some (mkdate 2021 12 1)]).
Proof.
  apply (date_is_first_of_month two_months [2021; 2021]%Z [1; 12]%Z).
  - cbn. repeat constructor; cbn; intuition discriminate.
  - reflexivity.
  - reflexivity.
  - repeat constructor; lia.
  - repeat constructor; lia.
  - intros s H. cbn in H. injection H as <-. reflexivity.
  - intros s H. discriminate H.
Defined.

(** *** Rows and columns through the pipeline *)

Lemma setitem_In (df : DataFrame) (n : string) (v : Series) (c : string * Series) :
  In c (setitem df n v) -> In c df \/ snd c = v.
Proof.
  induction df as [|[n0 s0] df IH]; cbn.
  - intros [<-|[]]. now right.
  - destruct (String.eqb n0 n); cbn.
    + intros [<-|H]; [now right | left; now right].
    + intros [<-|H]; [left; now left|]. destruct (IH H); [left; now right | now right].
Qed.

Lemma nrows_setitem (df : DataFrame) (n : string) (v : Series) :
  len v = nrows df -> nrows (setitem df n v) = nrows df.
Proof.
  destruct df as [|[n0 s0] df]; cbn; [auto|].
  destruct (String.eqb n0 n); cbn; auto.
Qed.

Lemma uniform_setitem (df : DataFrame) (n : string) (v : Series) :
  uniform df -> len v = nrows df -> uniform (setitem df n v).
Proof.
  intros U Hv c Hc. rewrite (nrows_setitem df n v Hv).
  destruct (setitem_In df n v c Hc) as [H| ->]; [exact (U c H) | exact Hv].
Qed.

Lemma len_map_categorical (f : string -> option string) (cats : list string)
      (xs : list (option string)) :
  len (map_categorical f cats xs) = List.length xs.
Proof.
  unfold map_categorical.
  destruct (all_some (map f cats) && unique (dropna (map f cats))); cbn;
    apply length_map.
Qed.

Lemma len_map_str (d : list (string * string)) (s : Series) : len (map_str d s) = len s.
Proof.
  destruct s; cbn [map_str len]; rewrite ?len_map_categorical; cbn [len];
    try apply length_map; reflexivity.
Qed.

Lemma len_map_int (d : list (Z * string)) (s : Series) : len (map_int d s) = len s.
Proof.
  destruct s; cbn [map_int len]; rewrite ?len_map_categorical; cbn [len];
    try apply length_map; reflexivity.
Qed.

Lemma len_cut (s c : Series) (bins : list edge) (labels : list string) :
  cut s bins labels = Ok c -> len c = len s.
Proof.
  destruct s; cbn; try discriminate.
  - intros [= <-]. cbn. apply length_map.
  - intros [= <-]. cbn. apply length_map.
  - destruct xs; [|discriminate]. now intros [= <-].
Qed.

Lemma length_parse_rows (yms : list (option Z * option Z)) (ds : list (option date)) :
  parse_rows yms = Ok ds -> List.length ds = List.length yms.
Proof.
  revert ds. induction yms as [|[[y|] [m|]] yms IH]; intros ds; cbn; try discriminate.
  - now intros [= <-].
  - destruct (timestamp_ok y m); [|discriminate].
    destruct (parse_rows yms) as [ds'|]; cbn; [|discriminate].
    intros [= <-]. cbn. now rewrite (IH ds' eq_refl).
Qed.

Lemma length_str_numeral (s : Series) : List.length (str_numeral s) = len s.
Proof. destruct s; cbn; apply length_map. Qed.

Lemma len_to_datetime_ym (ano mes v : Series) :
  to_datetime_ym ano mes = Ok v -> len v = Nat.min (len ano) (len mes).
Proof.
  unfold to_datetime_ym.
  destruct (parse_rows (combine (str_numeral ano) (str_numeral mes))) as [ds|] eqn:E;
    cbn; [|discriminate].
  intros [= <-]. cbn. rewrite (length_parse_rows _ _ E), length_combine.
  now rewrite !length_str_numeral.
Qed.

Lemma uniform_getitem (df : DataFrame) (col : string) (s : Series) :
  uniform df -> getitem df col = Ok s -> len s = nrows df.
Proof. intros U H. exact (U _ (getitem_In _ _ _ H)). Qed.

Lemma enrichment_keeps_length : Forall keeps_length enrichment.
Proof.
  unfold enrichment. repeat apply Forall_cons; try apply Forall_nil;
    intros df v U _; cbn [value].
  - destruct (getitem df "sexo") as [s|] eqn:E; cbn; [|discriminate].
    intros [= <-]. rewrite len_map_str. exact (uniform_getitem _ _ _ U E).
  - destruct (getitem df "grau_instrucao") as [s|] eqn:E; cbn; [|discriminate].
    intros [= <-]. rewrite len_map_int. exact (uniform_getitem _ _ _ U E).
  - destruct (getitem df "tipo_movimentacao") as [s|] eqn:E; cbn; [|discriminate].
    intros [= <-]. rewrite len_map_int. exact (uniform_getitem _ _ _ U E).
  - destruct (getitem df "ano") as [a|] eqn:Ea; cbn [bind]; [|discriminate].
    destruct (getitem df "mes") as [m|] eqn:Em; cbn [bind]; [|discriminate].
    intros H. rewrite (len_to_datetime_ym _ _ _ H).
    rewrite (uniform_getitem _ _ _ U Ea), (uniform_getitem _ _ _ U Em).
    apply Nat.min_id.
  - destruct (getitem df "idade") as [s|] eqn:E; cbn [bind]; [|discriminate].
    intros H. rewrite (len_cut _ _ _ _ H). exact (uniform_getitem _ _ _ U E).
  - destruct (getitem df "salario") as [s|] eqn:E; cbn [bind]; [|discriminate].
    intros H. rewrite (len_cut _ _ _ _ H). exact (uniform_getitem _ _ _ U E).
Qed.

Lemma run_steps_rows (sts : list step) (df out : DataFrame) :
  Forall keeps_length sts -> uniform df -> run_steps sts df = Ok out ->
  uniform out /\ nrows out = nrows df.
Proof.
  intros Hk. revert df. induction Hk as [|st sts Hst Hk IH]; intros df U; cbn [run_steps].
  - intros [= <-]. auto.
  - destruct (run_step st df) as [d|] eqn:E; cbn [bind]; [|discriminate].
    intros H. unfold run_step in E. destruct (guard st df) eqn:G.
    + destruct (value st df) as [v|] eqn:V; cbn in E; [|discriminate].
      injection E as <-. pose proof (Hst df v U G V) as Hv.
      destruct (IH _ (uniform_setitem df (dst st) v U Hv) H) as [U' N'].
      split; [exact U'|]. now rewrite N', nrows_setitem.
    + injection E as <-. exact (IH df U H).
Qed.

Lemma same_shape_rows (df out : DataFrame) :
  Forall2 same_shape df out -> uniform df ->
  uniform out /\ nrows out = nrows df /\ columns out = columns df.
Proof.
  intros F U.
  assert (N : nrows out = nrows df).
  { destruct F as [|[n s] [n' s'] df out (_ & _ & Hl) F]; [reflexivity | exact Hl]. }
  assert (C : columns out = columns df).
  { clear U N. induction F as [|c c' df out (Hn & _) F IH]; [reflexivity|].
    unfold columns in *. cbn. now rewrite Hn, IH. }
  split; [|split; [exact N | exact C]].
  intros c' Hc'. rewrite N.
  assert (G : forall l l', Forall2 same_shape l l' -> In c' l' ->
                exists c, In c l /\ len (snd c') = len (snd c)).
  { clear. induction 1 as [|c c'' l l' (_ & _ & Hl) F IH]; [intros []|].
    intros [<-|H]; [exists c; split; [now left | exact Hl]|].
    destruct (IH H) as (c0 & H0 & H1). exists c0. split; [now right | exact H1]. }
  destruct (G df out F Hc') as (c & Hc & ->). exact (U c Hc).
Qed.

(** X9.  The pipeline neither adds nor drops a row, and only appends
    columns: for a table with distinct column names whose columns have one
    length, the table that [process_data] returns has columns of that same
    length; its columns are those of the input, in their order, followed
    by derived columns that the input did not have, and no name occurs
    twice. *)
Theorem process_data_keeps_rows (t out : DataFrame) :
  NoDup (columns t) ->
  uniform t ->
  process_data t = Ok out ->
  uniform out /\ nrows out = nrows t /\
  NoDup (columns out) /\
  exists added, columns out = columns t ++ added /\ incl added derived_columns.
Proof.
  intros ND U H. rewrite process_data_steps in H.
  rewrite (handle_missing_values_columns t ND) in H.
  destruct (map_result impute_column t) as [h|] eqn:E; cbn [bind] in H; [|discriminate].
  destruct (same_shape_rows t h (imputed_shape t h E) U) as (Uh & Nh & Ch).
  destruct (run_steps_rows enrichment h out enrichment_keeps_length Uh H) as [Uo No].
  split; [exact Uo|]. split; [congruence|]. split.
  - apply (run_steps_NoDup enrichment h out); [now rewrite Ch | exact H].
  - destruct (run_steps_prefix enrichment h out H) as (added & Hc & Hi).
    exists added. split; [now rewrite Hc, Ch | exact Hi].
Qed.

Lemma process_data_keeps_rows_witness :
  exists out,
    process_data two_months = Ok out /\
    uniform out /\ nrows out = 2 /\
    NoDup (columns out) /\
    exists added, columns out = columns two_months ++ added /\ incl added derived_columns.
Proof.
  assert (ND : NoDup (columns two_months)).
  { cbn. repeat constructor; cbn; intuition discriminate. }
  assert (U : uniform two_months).
  { intros c [<-|[<-|[<-|[]]]]; reflexivity. }
  destruct (process_data two_months) as [out|] eqn:E; [|discriminate E].
  exists out. split; [reflexivity|].
  exact (process_data_keeps_rows two_months out ND U E).
Defined.

Lemma process_data_twice_witness :
  exists t1,
    process_data two_months = Ok t1 /\ process_data t1 = Ok t1.
Proof.
  assert (ND : NoDup (columns two_months)).
  { cbn. repeat constructor; cbn; intuition discriminate. }
  destruct (process_data two_months) as [t1|] eqn:E1; [|discriminate E1].
  exists t1. split; [reflexivity|].
  destruct (process_data t1) as [t2|] eqn:E2.
  - f_equal. exact (process_data_twice two_months t1 t2 ND E1 E2).
  - exfalso. revert E2. injection E1 as <-. discriminate.
Defined.

(** *** Filtering: what every result looks like *)

(** The masks have one entry per row of their column. *)
Lemma length_compare_num (op : Q -> Q -> bool) (s : Series) (v : Q) (r : list bool) :
  compare_num op s v = Ok r -> List.length r = len s.
Proof.
  destruct s; cbn; try discriminate.
  - intros [= <-]. apply length_map.
  - intros [= <-]. apply length_map.
  - destruct (dropna xs); [|discriminate]. intros [= <-]. apply length_map.
Qed.

Lemma length_isin (s : Series) (l : list pyval) (r : list bool) :
  isin s l = Ok r -> List.length r = len s.
Proof.
  rewrite <- length_cells. unfold isin.
  destruct s; cbn [cells len];
    repeat match goal with |- context [if ?b then _ else _] => destruct b end;
    try discriminate; intros [= <-]; now rewrite !length_map.
Qed.

Lemma length_eq_positions (cs : list (option scalar)) (l : list pyval) :
  List.length l = List.length cs -> List.length (eq_positions cs l) = List.length cs.
Proof.
  intros H. unfold eq_positions. rewrite length_map, length_combine. lia.
Qed.

Lemma length_eq (s : Series) (v : pyval) (r : list bool) :
  eq s v = Ok r -> List.length r = len s.
Proof.
  rewrite <- length_cells.
  assert (Hp : forall l, Nat.eqb (List.length l) (len s) = true ->
                         List.length (eq_positions (cells s) l) = List.length (cells s)).
  { intros l H. apply Nat.eqb_eq in H.
    apply length_eq_positions. now rewrite length_cells. }
  destruct v as [q|t|l|l]; cbn [eq]; try discriminate;
    try (intros [= <-]; now rewrite length_map).
  destruct s; try (intros [= <-]; cbn [cells]; now rewrite !length_map).
  - destruct l as [|x [|y l]]; try (intros [= <-]; now rewrite length_map);
      match goal with |- context [Nat.eqb ?a ?b] => destruct (Nat.eqb a b) eqn:E end;
      try discriminate; intros [= <-];
      try (match goal with |- context [if ?b then _ else _] => destruct b end);
      first [now apply Hp | now rewrite length_map].
  - destruct l as [|x [|y l]]; try (intros [= <-]; now rewrite length_map);
      match goal with |- context [Nat.eqb ?a ?b] => destruct (Nat.eqb a b) eqn:E end;
      try discriminate; intros [= <-];
      try (match goal with |- context [if ?b then _ else _] => destruct b end);
      first [now apply Hp | now rewrite length_map].
  - match goal with |- context [Nat.eqb ?a ?b] => destruct (Nat.eqb a b) eqn:E end;
      try discriminate; intros [= <-].
    destruct (all_dates l); [now apply Hp | cbn [cells]; now rewrite !length_map].
Qed.

(** Any mask on the selected rows is the selection of a mask on all the
    rows. *)
Lemma mask_select_onto (m r : list bool) :
  List.length r = List.length (mask_select m m) ->
  exists M, List.length M = List.length m /\ mask_select m M = r.
Proof.
  revert r. induction m as [|b m IH]; intros r H.
  - destruct r; [|discriminate]. exists []. split; reflexivity.
  - destruct b; cbn [mask_select List.length] in H.
    + destruct r as [|x r]; [discriminate|]. injection H as H.
      destruct (IH r H) as (M & L & E). exists (x :: M). cbn. now rewrite L, E.
    + destruct (IH r H) as (M & L & E). exists (false :: M). cbn. now rewrite L, E.
Qed.

Lemma length_mask_select {A : Type} (m : list bool) (xs : list A) :
  List.length xs = List.length m ->
  List.length (mask_select m xs) = List.length (mask_select m m).
Proof.
  revert xs. induction m as [|b m IH]; intros [|x xs] H; try discriminate; [reflexivity|].
  injection H as H. cbn. destruct b; cbn; now rewrite IH.
Qed.

Lemma len_select (s : Series) (m : list bool) :
  len s = List.length m -> len (select s m) = List.length (mask_select m m).
Proof. destruct s; cbn; apply length_mask_select. Qed.

Lemma apply_filter_selected (df : DataFrame) (m : list bool) (item : string * pyval)
      (d : DataFrame) :
  uniform df -> List.length m = nrows df ->
  apply_filter (loc df m) item = Ok d ->
  exists m', List.length m' = nrows df /\ d = loc df m'.
Proof.
  intros U Hm. destruct item as [column value]. unfold apply_filter.
  unfold has_column. rewrite columns_loc. fold (has_column column df).
  destruct (has_column column df) eqn:Hc; cbn [negb].
  2:{ intros [= <-]. eauto. }
  apply has_column_getitem in Hc as [s Hs].
  assert (Hl : len s = nrows df) by exact (uniform_getitem _ _ _ U Hs).
  rewrite getitem_loc, Hs. cbn [bind].
  assert (K : forall r, List.length r = len (select s m) ->
                exists m', List.length m' = nrows df /\ loc (loc df m) r = loc df m').
  { intros r Hr. rewrite len_select in Hr by congruence.
    destruct (mask_select_onto m r Hr) as (M & LM & <-).
    exists (mask_and m M). split.
    - rewrite length_mask_and; [exact Hm | congruence].
    - apply loc_loc. exact LM. }
  destruct (numeric_pair value) as [[lo hi]|].
  - unfold ge, le.
    destruct (compare_num _ (select s m) lo) as [m1|] eqn:E1; cbn [bind]; [|discriminate].
    destruct (compare_num _ (select s m) hi) as [m2|] eqn:E2; cbn [bind]; [|discriminate].
    intros [= <-]. apply length_compare_num in E1, E2.
    destruct (K (mask_and m1 m2)) as (m' & L & E); [|eauto].
    rewrite length_mask_and; congruence.
  - destruct value as [q|t|l|l].
    + destruct (eq (select s m) (PyNum q)) as [r|] eqn:E; cbn [bind]; [|discriminate].
      intros [= <-]. destruct (K r (length_eq _ _ _ E)) as (m' & L & E'). eauto.
    + destruct (eq (select s m) (PyStr t)) as [r|] eqn:E; cbn [bind]; [|discriminate].
      intros [= <-]. destruct (K r (length_eq _ _ _ E)) as (m' & L & E'). eauto.
    + destruct (isin (select s m) l) as [r|] eqn:E; cbn [bind]; [|discriminate].
      intros [= <-]. destruct (K r (length_isin _ _ _ E)) as (m' & L & E'). eauto.
    + destruct (eq (select s m) (PyTuple l)) as [r|] eqn:E; cbn [bind]; [|discriminate].
      intros [= <-]. destruct (K r (length_eq _ _ _ E)) as (m' & L & E'). eauto.
Qed.

Lemma length_mask_select_le {A : Type} (m : list bool) (xs : list A) :
  List.length (mask_select m xs) <= List.length xs.
Proof.
  revert xs. induction m as [|b m IH]; intros [|x xs]; cbn; try lia.
  specialize (IH xs). destruct b; cbn; lia.
Qed.

Lemma len_select_le (s : Series) (m : list bool) : len (select s m) <= len s.
Proof. destruct s; cbn; apply length_mask_select_le. Qed.

Lemma nrows_loc_le (df : DataFrame) (m : list bool) : nrows (loc df m) <= nrows df.
Proof. destruct df as [|[n s] df]; cbn; [lia | apply len_select_le]. Qed.

(** X11.  Filtering only drops rows: for a table with distinct column
    names whose columns have one length, the table that [filter_data]
    returns is the input restricted to some of its rows, the same rows in
    every column and in their order; it has the columns of the input and
    no more rows.  This holds for any filter values on which the function
    returns. *)
Theorem filter_selects_rows (df out : DataFrame) (filters : list (string * pyval)) :
  NoDup (columns df) ->
  uniform df ->
  filter_data df filters = Ok out ->
  (exists mask, List.length mask = nrows df /\ out = loc df mask) /\
  columns out = columns df /\
  nrows out <= nrows df.
Proof.
  intros _ U H.
  assert (G : forall fs m d, List.length m = nrows df ->
                for_each apply_filter fs (loc df m) = Ok d ->
                exists m', List.length m' = nrows df /\ d = loc df m').
  { induction fs as [|item fs IH]; intros m d Hm; cbn [for_each].
    - intros [= <-]. eauto.
    - destruct (apply_filter (loc df m) item) as [d1|] eqn:E; cbn [bind]; [|discriminate].
      destruct (apply_filter_selected df m item d1 U Hm E) as (m1 & L1 & ->).
      now apply IH. }
  unfold filter_data in H. rewrite <- (loc_all df U) in H at 1.
  destruct (G filters _ out (eq_trans (length_map _ _) (length_seq _ _)) H) as (m & L & ->).
  split; [eauto|]. split; [apply columns_loc | apply nrows_loc_le].
Qed.

Lemma filter_selects_rows_witness :
  exists out,
    filter_data fixture fixture_filters = Ok out /\
    (exists mask, List.length mask = nrows fixture /\ out = loc fixture mask) /\
    columns out = columns fixture /\
    nrows out <= nrows fixture.
Proof.
  assert (ND : NoDup (columns fixture)).
  { cbn. repeat constructor; cbn; intuition discriminate. }
  assert (U : uniform fixture).
  { intros c [<-|[<-|[]]]; reflexivity. }
  destruct (filter_data fixture fixture_filters) as [out|] eqn:E; [|discriminate E].
  exists out. split; [reflexivity|].
  exact (filter_selects_rows fixture out fixture_filters ND U E).
Defined.

(** *** Filtering: order and repetition *)

Lemma well_typed_all_evaluable (df : DataFrame) (filters : list (string * pyval)) :
  Forall (well_typed df) filters -> Forall (evaluable df) filters.
Proof. apply Forall_impl. apply well_typed_evaluable. Qed.

(** The rows that well-typed filters keep. *)
Lemma filter_data_rows (df : DataFrame) (filters : list (string * pyval)) :
  uniform df ->
  Forall (well_typed df) filters ->
  filter_data df filters
  = Ok (loc df (map (fun i => forallb (keeps df i) filters) (seq 0 (nrows df)))).
Proof.
  intros U Hty. unfold filter_data.
  rewrite <- (loc_all df U) at 1.
  rewrite (filter_loop df filters U (well_typed_all_evaluable df filters Hty))
    by now rewrite length_map, length_seq.
  do 2 f_equal.
  rewrite mask_and_map. apply map_ext. intros i. reflexivity.
Qed.

Lemma forallb_Permutation {A : Type} (p : A -> bool) (l l' : list A) :
  Permutation l l' -> forallb p l = forallb p l'.
Proof.
  induction 1 as [|x l l' _ IH|x y l|l l' l'' _ IH1 _ IH2]; cbn.
  - reflexivity.
  - now rewrite IH.
  - now rewrite !andb_assoc, (andb_comm (p y)).
  - congruence.
Qed.

(** X12.  The order of well-typed filters does not matter: for a table
    whose columns have one length and filters that can each be evaluated
    on their column, [filter_data] returns the same table for the entries
    in any order.  Without that condition the order can decide between a
    table and an exception: a range on the column of states raises when it
    comes first and is harmless once an earlier filter has left no row. *)
Theorem filter_order_irrelevant (df : DataFrame) (filters filters' : list (string * pyval)) :
  uniform df ->
  Forall (well_typed df) filters ->
  Permutation filters filters' ->
  filter_data df filters' = filter_data df filters /\
  filter_data fixture [no_salary; state_range] = Ok (loc fixture (repeat false 10)) /\
  filter_data fixture [state_range; no_salary] = Raise TypeError.
Proof.
  intros U Hty P. split; [|split; reflexivity].
  assert (Hty' : Forall (well_typed df) filters').
  { apply Forall_forall. intros x Hx. rewrite Forall_forall in Hty.
    apply Hty. exact (Permutation_in _ (Permutation_sym P) Hx). }
  rewrite (filter_data_rows df filters U Hty), (filter_data_rows df filters' U Hty').
  do 2 f_equal. apply map_ext. intros i. symmetry. now apply forallb_Permutation.
Qed.

Lemma filter_order_irrelevant_witness :
  filter_data fixture (rev fixture_filters) = filter_data fixture fixture_filters.
Proof.
  assert (U : uniform fixture).
  { intros c [<-|[<-|[]]]; reflexivity. }
  assert (T : Forall (well_typed fixture) fixture_filters).
  { repeat apply Forall_cons; try apply Forall_nil;
      intros s H; cbn in H; try discriminate;
      injection H as <-; cbn; auto. }
  exact (proj1 (filter_order_irrelevant fixture fixture_filters (rev fixture_filters)
                  U T (Permutation_rev _))).
Defined.

Lemma mask_and_idempotent (m : list bool) : mask_and m m = m.
Proof. induction m as [|b m IH]; cbn; [reflexivity|]. now rewrite IH, andb_diag. Qed.

(** X13.  Filtering twice is filtering once: for a table whose columns
    have one length and filters that can each be evaluated on their
    column, [filter_data] returns a table, and applying the same filters
    to that table returns it unchanged. *)
Theorem filter_idempotent (df : DataFrame) (filters : list (string * pyval)) :
  uniform df ->
  Forall (well_typed df) filters ->
  exists out,
    filter_data df filters = Ok out /\ filter_data out filters = Ok out.
Proof.
  intros U Hty.
  set (M := map (fun i => forallb (keeps df i) filters) (seq 0 (nrows df))).
  exists (loc df M). split; [exact (filter_data_rows df filters U Hty)|].
  unfold filter_data.
  rewrite (filter_loop df filters U (well_typed_all_evaluable df filters Hty))
    by (unfold M; now rewrite length_map, length_seq).
  fold M. now rewrite mask_and_idempotent.
Qed.

Lemma filter_idempotent_witness :
  exists out,
    filter_data fixture fixture_filters = Ok out /\
    filter_data out fixture_filters = Ok out.
Proof.
  apply (filter_idempotent fixture fixture_filters).
  - intros c [<-|[<-|[]]]; reflexivity.
  - repeat apply Forall_cons; try apply Forall_nil;
      intros s H; cbn in H; try discriminate;
      injection H as <-; cbn; auto.
Defined.

(** *** The summary *)






(** *** The source columns through the pipeline *)

(** X28.  The pipeline touches the source columns by imputation only:
    for a table with distinct column names on which [process_data]
    returns, a name that is not one of the six derived names is a column
    of the output exactly when it is a column of the input, and the output
    column is then the input column with its missing values imputed. *)
Theorem process_data_source_columns (t out : DataFrame) (col : string) :
  NoDup (columns t) ->
  process_data t = Ok out ->
  ~ In col derived_columns ->
  has_column col out = has_column col t /\
  (forall s, getitem t col = Ok s ->
     exists s', impute s = Ok s' /\ getitem out col = Ok s').
Proof.
  intros ND H Hn. rewrite process_data_steps in H.
  rewrite (handle_missing_values_columns t ND) in H.
  destruct (map_result impute_column t) as [h|] eqn:E; cbn [bind] in H; [|discriminate].
  assert (G : getitem out col = getitem h col).
  { symmetry. apply (run_steps_same_sources enrichment h out); [|exact H | exact Hn].
    intros x Hx. exact Hx. }
  split.
  - destruct (getitem t col) as [s|e] eqn:Et.
    + destruct (getitem_imputed t h col s E Et) as (s1 & _ & Hg).
      rewrite <- G in Hg.
      rewrite (getitem_has_column _ _ _ Hg), (getitem_has_column _ _ _ Et).
      reflexivity.
    + pose proof (getitem_of_imputed t h col E) as Hg.
      rewrite Et in Hg. cbn [bind] in Hg. rewrite <- G in Hg.
      destruct (has_column col out) eqn:Ho.
      { apply has_column_getitem in Ho as [s Hs]. congruence. }
      destruct (has_column col t) eqn:Hi; [|reflexivity].
      apply has_column_getitem in Hi as [s Hs]. congruence.
  - intros s Et.
    destruct (getitem_imputed t h col s E Et) as (s1 & Hi & Hg).
    exists s1. split; [exact Hi|]. now rewrite G.
Qed.

Lemma process_data_source_columns_witness :
  exists out,
    process_data tie_input = Ok out /\
    has_column "uf" out = has_column "uf" tie_input /\
    (forall s, getitem tie_input "uf" = Ok s ->
       exists s', impute s = Ok s' /\ getitem out "uf" = Ok s').
Proof.
  assert (ND : NoDup (columns tie_input)).
  { cbn. repeat constructor; cbn; intuition discriminate. }
  destruct (process_data tie_input) as [out|] eqn:E; [|discriminate E].
  exists out. split; [reflexivity|].
  apply (process_data_source_columns tie_input out "uf" ND E).
  cbn. intuition discriminate.
Defined.

(** *** The bar chart: figures without data *)

(** X15.  When the bar chart has nothing to draw: [create_bar_chart]
    returns the figure without data titled "Dados não disponíveis para
    gráfico de barras" when the table lacks the X column, and the one
    titled "Coluna ... não disponível para gráfico de barras" when it has
    the X column and lacks the metric asked for; in every other case in
    which it returns, the figure is a bar chart. *)
Theorem bar_chart_without_data (df : DataFrame) (x : string) (y group_by : option string)
        (orientation : string) (sort_by : option string) :
  (has_column x df = false ->
   create_bar_chart df x y group_by orientation sort_by
   = Ok (EmptyFigure "Dados não disponíveis para gráfico de barras")) /\
  (forall yc, has_column x df = true -> y = Some yc -> has_column yc df = false ->
   create_bar_chart df x y group_by orientation sort_by
   = Ok (EmptyFigure ("Coluna " ++ yc ++ " não disponível para gráfico de barras"))) /\
  (forall title, create_bar_chart df x y group_by orientation sort_by = Ok (EmptyFigure title) ->
   has_column x df = false \/ exists yc, y = Some yc /\ has_column yc df = false).
Proof.
  split; [|split].
  - intros H. unfold create_bar_chart. now rewrite H.
  - intros yc Hx -> Hy. unfold create_bar_chart. now rewrite Hx, Hy.
  - intros title. unfold create_bar_chart.
    destruct (has_column x df) eqn:Hx; cbn [negb]; [|now left].
    assert (B : forall (chart_data : DataFrame) (yname : string),
               (chart_data <-
                  match sort_by with
                  | Some k =>
                      if negb (String.eqb k "") && has_column k chart_data
                      then sort_values chart_data k
                      else Ok chart_data
                  | None => Ok chart_data
                  end ;;
                let t : string :=
                  if String.eqb yname "count"
                  then ("Contagem de " ++ label x)%string
                  else (label yname ++ " por " ++ label x)%string in
                let color := usable_group df group_by in
                let labels :=
                  dict_literal
                    ([(x, label x); (yname, label yname)]
                       ++ match color with Some g => [(g, label g)] | None => [] end) in
                if String.eqb orientation "h"
                then Ok (Bar chart_data yname x color "h" t labels)
                else Ok (Bar chart_data x yname color "v" t labels))
               <> Ok (EmptyFigure title)).
    { intros chart_data yname.
      destruct (match sort_by with Some _ => _ | None => _ end); cbn [bind];
        [|discriminate].
      destruct (String.eqb orientation "h"); discriminate. }
    destruct y as [yc|].
    + destruct (has_column yc df) eqn:Hy; cbn [negb]; [|right; eauto].
      destruct (usable_group df group_by).
      * destruct (group_means df [x; s] yc); cbn [bind]; [|discriminate].
        intros H. now apply B in H.
      * intros H. now apply B in H.
    + destruct (usable_group df group_by).
      * destruct (group_sizes df [x; s]); cbn [bind]; [|discriminate].
        intros H. now apply B in H.
      * destruct (group_sizes df [x]); cbn [bind]; [|discriminate].
        intros H. now apply B in H.
Qed.

(** *** The bar chart: counting rows *)

Lemma length_filter_map {A B : Type} (f : A -> B) (p : B -> bool) (l : list A) :
  List.length (filter (fun x => p (f x)) l) = List.length (filter p (map f l)).
Proof.
  induction l as [|x l IH]; cbn; [reflexivity|].
  destruct (p (f x)); cbn; now rewrite IH.
Qed.

Lemma length_dropna {A : Type} (l : list (option A)) :
  List.length (dropna l) = List.length (filter (fun c => negb (is_none c)) l).
Proof. induction l as [|[x|] l IH]; cbn; auto. Qed.

(** The rows of a column whose cell is present are as many as its
    present cells. *)
Lemma present_rows (s : Series) :
  List.length (filter (fun i => negb (is_none (iloc s i))) (seq 0 (len s)))
  = present_count s.
Proof.
  unfold present_count, iloc. rewrite length_dropna, <- length_cells.
  rewrite (length_filter_map (fun i => nth i (cells s) None)
                             (fun c => negb (is_none c))).
  f_equal. f_equal. symmetry.
  etransitivity; [symmetry; apply map_id|].
  exact (map_nth_seq (fun c => c) (cells s) None).
Qed.

Lemma row_key_single (s : Series) (i : nat) :
  row_key [s] i = option_map (fun c => [c]) (iloc s i).
Proof. unfold row_key. cbn. now destruct (iloc s i). Qed.

Lemma Zsum_sizes (gs : list group) :
  Zsum (sizes gs) = Z.of_nat (List.length (List.concat (map snd gs))).
Proof.
  induction gs as [|[k rows] gs IH]; [reflexivity|].
  unfold sizes, Zsum in *. cbn [map fold_right List.concat snd].
  rewrite length_app, IH. lia.
Qed.

(** The rows of the groups are the rows that have a key, each once. *)
Lemma grouping_rows (keys : list Series) (n : nat) (gs : list group) :
  grouping keys n gs ->
  Permutation (List.concat (map snd gs))
              (filter (fun i => negb (is_none (row_key keys i))) (seq 0 n)).
Proof.
  intros (G1 & G2 & _ & G4). apply NoDup_Permutation.
  - exact G4.
  - apply NoDup_filter, seq_NoDup.
  - intros i. rewrite filter_In, in_seq. split.
    + intros Hin. apply in_concat in Hin as (rows & Hr & Hi).
      apply in_map_iff in Hr as ([k rows'] & <- & Hg). cbn in Hi.
      destruct (G1 _ _ Hg) as (_ & _ & Hm). destruct (Hm i Hi) as (Hlt & ki & Hk & _).
      split; [lia|]. now rewrite Hk.
    + intros [[_ Hlt] Hk]. destruct (row_key keys i) as [k|] eqn:E; [|discriminate].
      destruct (G2 i k Hlt E) as (g & Hg & Hi).
      apply in_concat. exists (snd g). split; [|exact Hi]. now apply in_map.
Qed.

Lemma group_sizes_single (df : DataFrame) (x : string) (s : Series) :
  getitem df x = Ok s -> x <> "count" ->
  group_sizes df [x]
  = Ok [(x, key_column s (fold_left (add_row [s]) (seq 0 (nrows df)) []));
        ("count", Int64 (sizes (fold_left (add_row [s]) (seq 0 (nrows df)) [])))].
Proof.
  intros Hs Hx. unfold group_sizes, groupby, index_columns. cbn [for_each].
  rewrite Hs. cbn [bind app].
  unfold reset_index. cbn [rev app for_each]. unfold insert0. cbn [fst has_column columns map existsb].
  destruct (String.eqb x "count") eqn:E; [apply String.eqb_eq in E; contradiction|].
  reflexivity.
Qed.

(** X16.  A count chart counts every row once: for a table with
    distinct column names whose columns have one length and an X column
    that is not a categorical and is not named [count],
    [create_bar_chart] without a metric, a grouping column and a sort
    column draws the table of the groups of rows with the same X value:
    one row per value that occurs, the values in increasing order, with
    the number of rows of the group under [count]; the counts add up to
    the number of rows whose X cell is present. *)
Theorem bar_chart_counts (df : DataFrame) (x : string) (s : Series) (orientation : string) :
  NoDup (columns df) ->
  uniform df ->
  getitem df x = Ok s ->
  dtype_of s <> category ->
  x <> "count" ->
  exists fig gs,
    create_bar_chart df x None None orientation None = Ok fig /\
    grouping [s] (nrows df) gs /\
    data_of fig = [(x, key_column s gs); ("count", Int64 (sizes gs))] /\
    Zsum (sizes gs) = Z.of_nat (present_count s).
Proof.
  intros _ U Hs _ Hx.
  set (gs := fold_left (add_row [s]) (seq 0 (nrows df)) []).
  assert (G : grouping [s] (nrows df) gs) by apply grouping_fold.
  assert (F : exists fig,
             create_bar_chart df x None None orientation None = Ok fig /\
             data_of fig = [(x, key_column s gs); ("count", Int64 (sizes gs))]).
  { unfold create_bar_chart. rewrite (getitem_has_column _ _ _ Hs). cbn [negb usable_group].
    rewrite (group_sizes_single df x s Hs Hx). fold gs. cbn [bind].
    destruct (String.eqb orientation "h"); eexists; split; reflexivity. }
  destruct F as (fig & Hf & Hd). exists fig, gs.
  split; [exact Hf|]. split; [exact G|]. split; [exact Hd|].
  rewrite Zsum_sizes. f_equal.
  rewrite (Permutation_length (grouping_rows _ _ _ G)).
  rewrite <- (uniform_getitem _ _ _ U Hs), <- present_rows.
  f_equal. apply filter_ext. intros i. rewrite row_key_single.
  now destruct (iloc s i).
Qed.

Lemma bar_chart_counts_witness :
  exists fig gs,
    create_bar_chart fixture "uf" None None "v" None = Ok fig /\
    grouping [Object [Some "SP"; Some "SP"; Some "MG"; Some "RJ"; Some "RJ";
                      Some "SP"; Some "RJ"; None; Some "BA"; Some "SP"]]
             (nrows fixture) gs /\
    data_of fig
    = [("uf", key_column (Object [Some "SP"; Some "SP"; Some "MG"; Some "RJ"; Some "RJ";
                                  Some "SP"; Some "RJ"; None; Some "BA"; Some "SP"]) gs);
       ("count", Int64 (sizes gs))] /\
    Zsum (sizes gs) = 9%Z.
Proof.
  apply (bar_chart_counts fixture "uf").
  - cbn. repeat constructor; cbn; intuition discriminate.
  - intros c [<-|[<-|[]]]; reflexivity.
  - reflexivity.
  - discriminate.
  - discriminate.
Defined.

(** X17.  A column named [count] cannot be counted: when the X column
    of a count chart is named [count], or the chart is grouped by a column
    of that name, [create_bar_chart] raises a [ValueError], because the
    counts are put under the name [count] beside the group keys. *)
Theorem bar_chart_count_name_clash (df : DataFrame) (x : string) (group_by : option string)
        (orientation : string) (sort_by : option string) :
  NoDup (columns df) ->
  has_column x df = true ->
  x = "count" \/ usable_group df group_by = Some "count" ->
  create_bar_chart df x None group_by orientation sort_by = Raise ValueError.
Proof.
  intros _ Hx Hc. unfold create_bar_chart. rewrite Hx. cbn [negb].
  assert (R : forall by_, In "count" by_ ->
                (forall c, In c by_ -> has_column c df = true) ->
                group_sizes df by_ = Raise ValueError).
  { intros by_ Hin Hall. unfold group_sizes.
    rewrite (groupby_ok df by_ Hall). cbn [bind]. unfold index_columns.
    set (gs := fold_left _ _ _).
    pose proof (collect_columns df (fun col s => (col, key_column s gs)) by_ [] Hall) as E.
    cbn beta in E. rewrite E. clear E. cbn [bind app].
    unfold reset_index. rewrite <- map_rev.
    assert (Hr : In "count" (rev by_)) by now apply in_rev in Hin.
    generalize dependent (rev by_). clear Hin Hall.
    assert (K : forall (l : list string) (acc : DataFrame),
               has_column "count" acc = true -> In "count" l ->
               for_each insert0 (map (fun col => (col, key_column (column df col) gs)) l) acc
               = Raise ValueError).
    { induction l as [|c l IH]; intros acc Hacc; [intros []|].
      cbn [map for_each]. unfold insert0 at 1. cbn [fst].
      destruct (has_column c acc) eqn:Ec; [reflexivity|].
      intros [->|Hin]; [congruence|]. cbn [bind]. apply IH; [|exact Hin].
      unfold has_column, columns in *. cbn [map existsb fst].
      rewrite Hacc. apply orb_true_r. }
    intros l Hl. now apply K. }
  destruct (usable_group df group_by) as [g|] eqn:Eg.
  - rewrite R; [reflexivity| |].
    + destruct Hc as [->|[= ->]]; cbn; auto.
    + intros c [<-|[<-|[]]]; [exact Hx|].
      unfold usable_group in Eg. destruct group_by as [g'|]; [|discriminate].
      destruct (negb (String.eqb g' "") && has_column g' df) eqn:E; [|discriminate].
      injection Eg as ->. now apply andb_prop in E.
  - destruct Hc as [->|Hc]; [|discriminate].
    rewrite R; [reflexivity|now left|]. intros c [<-|[]]. exact Hx.
Qed.

Lemma bar_chart_count_name_clash_witness :
  create_bar_chart counted "count" None None "v" None = Raise ValueError /\
  create_bar_chart counted "uf" None (Some "count") "v" None = Raise ValueError.
Proof.
  assert (ND : NoDup (columns counted)).
  { cbn. repeat constructor; cbn; intuition discriminate. }
  split.
  - apply (bar_chart_count_name_clash counted "count" None "v" None ND); [reflexivity|].
    now left.
  - apply (bar_chart_count_name_clash counted "uf" (Some "count") "v" None ND);
      [reflexivity|]. now right.
Defined.

(** *** The bar chart: means per group *)




(** *** The other chart builders: figures without data *)

Lemma usable_group_absent (df : DataFrame) (g : string) :
  g = "" \/ has_column g df = false -> usable_group df (Some g) = None.
Proof.
  unfold usable_group. intros [->|H]; [reflexivity|].
  rewrite H. now rewrite andb_false_r.
Qed.

(** X19.  When the other builders have nothing to draw: each returns a
    figure without data exactly when the table lacks a column that it
    needs, the X or the Y column of a time series or of a scatter plot,
    the column of a histogram, the Y column of a box plot, the column of
    a pie chart or the column of values asked for. *)
Theorem charts_without_data (df : DataFrame) :
  (forall y x g,
      (exists t, create_time_series df y x g = Blank t) <->
      has_column x df = false \/ has_column y df = false) /\
  (forall c b g,
      (exists t, create_histogram df c b g = Blank t) <-> has_column c df = false) /\
  (forall y x,
      (exists t, create_boxplot df y x = Blank t) <-> has_column y df = false) /\
  (forall x y c s,
      (exists t, create_scatter_plot df x y c s = Blank t) <->
      has_column x df = false \/ has_column y df = false) /\
  (forall c v,
      (exists t, create_pie_chart df c v = Ok (Blank t)) <->
      has_column c df = false \/ exists n, v = Some n /\ has_column n df = false).
Proof.
  split; [|split; [|split; [|split]]].
  - intros y x g. unfold create_time_series.
    destruct (has_column x df), (has_column y df); cbn [negb orb];
      [ | split; [intros _; now right | intros _; eauto]
        | split; [intros _; now left | intros _; eauto]
        | split; [intros _; now left | intros _; eauto] ].
    split; [|intros [H|H]; discriminate].
    destruct (usable_group df g); intros [t H]; discriminate.
  - intros c b g. unfold create_histogram.
    destruct (has_column c df); cbn [negb]; [|split; eauto].
    split; [|discriminate].
    destruct (usable_group df g); intros [t H]; discriminate.
  - intros y x. unfold create_boxplot.
    destruct (has_column y df); cbn [negb]; [|split; eauto].
    split; [|discriminate]. intros [t H]. revert H.
    destruct x as [x|]; [|discriminate].
    destruct (negb (String.eqb x "") && negb (has_column x df)); [discriminate|].
    destruct (negb (String.eqb x "")); discriminate.
  - intros x y c s. unfold create_scatter_plot.
    destruct (has_column x df), (has_column y df); cbn [negb orb];
      [ | split; [intros _; now right | intros _; eauto]
        | split; [intros _; now left | intros _; eauto]
        | split; [intros _; now left | intros _; eauto] ].
    split; [|intros [H|H]; discriminate]. intros [t H]. discriminate.
  - intros c v. unfold create_pie_chart.
    destruct (has_column c df) eqn:Hc; cbn [negb]; [|split; eauto].
    destruct v as [n|].
    + destruct (has_column n df) eqn:Hn; cbn [negb].
      * split.
        -- destruct (group_sums df c n); cbn [bind]; intros [t H]; discriminate.
        -- intros [H|(n' & [= <-] & H)]; congruence.
      * split; [intros _; right; eauto | intros _; eauto].
    + split.
      * apply has_column_getitem in Hc as [s ->]. cbn [bind].
        destruct (reset_index _ _); cbn [bind]; intros [t H]; discriminate.
      * intros [H|(n & H & _)]; discriminate.
Qed.

(** X20.  An optional column that the table lacks: when the name given
    for the grouping, colour, size or X column is empty or is not a column
    of the table, the histogram, the box plot, the scatter plot and the bar
    chart are the ones built without it.  The time series is built
    without it too, but a name that is not empty still becomes the title
    of its legend, so that the figure differs from the one built without a
    grouping column. *)
Theorem absent_optional_column (df : DataFrame) (g : string) :
  g = "" \/ has_column g df = false ->
  (forall c b, create_histogram df c b (Some g) = create_histogram df c b None) /\
  (forall y, create_boxplot df y (Some g) = create_boxplot df y None) /\
  (forall x y s, create_scatter_plot df x y (Some g) s = create_scatter_plot df x y None s) /\
  (forall x y c, create_scatter_plot df x y c (Some g) = create_scatter_plot df x y c None) /\
  (forall x y o s, create_bar_chart df x y (Some g) o s = create_bar_chart df x y None o s) /\
  (forall y x, has_column x df = true -> has_column y df = true ->
     create_time_series df y x (Some g)
     = Line df x y None (label y ++ " ao longo do tempo")
            (dict_literal [(x, label x); (y, label y)]) (label x) (label y)
            (if String.eqb g "" then None else Some (label g)) /\
     create_time_series df y x None
     = Line df x y None (label y ++ " ao longo do tempo")
            (dict_literal [(x, label x); (y, label y)]) (label x) (label y) None /\
     (g <> "" -> create_time_series df y x (Some g) <> create_time_series df y x None)).
Proof.
  intros H. pose proof (usable_group_absent df g H) as U.
  split; [|split; [|split; [|split; [|split]]]].
  - intros c b. unfold create_histogram. now rewrite U.
  - intros y. unfold create_boxplot. destruct (has_column y df); cbn [negb]; [|reflexivity].
    destruct (String.eqb g "") eqn:E; cbn [negb andb]; [now rewrite E|].
    destruct H as [->|H]; [discriminate|]. now rewrite H.
  - intros x y s. unfold create_scatter_plot. now rewrite U.
  - intros x y c. unfold create_scatter_plot. now rewrite U.
  - intros x y o s. unfold create_bar_chart. now rewrite U.
  - intros y x Hx Hy. unfold create_time_series. rewrite Hx, Hy, U. cbn [negb orb usable_group].
    split; [reflexivity|]. split; [reflexivity|].
    intros Hg. apply String.eqb_neq in Hg. rewrite Hg. discriminate.
Qed.

Lemma absent_optional_column_witness :
  create_histogram salaries "salario" None (Some "uf")
  = create_histogram salaries "salario" None None /\
  create_time_series salaries "salario" "ano" (Some "uf")
  <> create_time_series salaries "salario" "ano" None.
Proof.
  assert (H : "uf" = "" \/ has_column "uf" salaries = false) by (right; reflexivity).
  destruct (absent_optional_column salaries "uf" H) as (H1 & _ & _ & _ & _ & H6).
  split; [apply H1|].
  destruct (H6 "salario" "ano" eq_refl eq_refl) as (_ & _ & H7).
  apply H7. discriminate.
Defined.

(** *** The pie chart: counts *)

Lemma dedup_NoDup (l : list string) : NoDup (dedup l).
Proof.
  induction l as [|x l IH]; cbn; constructor.
  - intros H. apply filter_In in H as [_ H]. now rewrite String.eqb_refl in H.
  - now apply NoDup_filter.
Qed.

Lemma list_sum_indicator (x : string) (S : list string) :
  NoDup S -> In x S ->
  list_sum (map (fun v => if String.eqb x v then 1 else 0) S) = 1.
Proof.
  induction 1 as [|y S Hy ND IH]; [intros []|].
  cbn [map list_sum fold_right]. intros [->|Hin].
  - rewrite String.eqb_refl.
    assert (Z : list_sum (map (fun v => if String.eqb x v then 1 else 0) S) = 0).
    { clear IH ND. induction S as [|z S IH]; [reflexivity|]. cbn.
      destruct (String.eqb x z) eqn:E.
      - apply String.eqb_eq in E. subst z. exfalso. apply Hy. now left.
      - apply IH. intros H. apply Hy. now right. }
    unfold list_sum in Z. now rewrite Z.
  - destruct (String.eqb x y) eqn:E.
    + apply String.eqb_eq in E. subst y. contradiction.
    + now apply IH.
Qed.

Lemma list_sum_add {A : Type} (f g : A -> nat) (l : list A) :
  list_sum (map (fun v => f v + g v) l) = list_sum (map f l) + list_sum (map g l).
Proof. induction l as [|x l IH]; cbn; [reflexivity|]. unfold list_sum in IH. lia. Qed.

(** The occurrences of the values of a list without repetition that
    covers [l] are the elements of [l]. *)
Lemma sum_of_counts (S l : list string) :
  NoDup S -> incl l S -> list_sum (map (fun v => count_str v l) S) = List.length l.
Proof.
  intros ND. induction l as [|x l IH]; intros Hi.
  - clear. induction S as [|y S IHS]; [reflexivity | exact IHS].
  - cbn [count_str List.length].
    rewrite (list_sum_add (fun v => if String.eqb x v then 1 else 0)
                          (fun v => count_str v l)).
    rewrite (list_sum_indicator x S ND) by (apply Hi; now left).
    rewrite IH; [reflexivity|]. intros y Hy. apply Hi. now right.
Qed.

Lemma list_sum_Permutation (l l' : list nat) :
  Permutation l l' -> list_sum l = list_sum l'.
Proof.
  unfold list_sum. induction 1; cbn; lia.
Qed.

Lemma StronglySorted_impl {A : Type} (R R' : A -> A -> Prop) (l : list A) :
  (forall a b, R a b -> R' a b) -> StronglySorted R l -> StronglySorted R' l.
Proof.
  intros H. induction 1 as [|x l Hs IH Hall]; constructor; [exact IH|].
  eapply Forall_impl; [|exact Hall]. intros b. apply H.
Qed.

(** X21.  The slices of a pie of counts: for a table with distinct
    column names and a column of strings that is not named [count],
    [create_pie_chart] without a column of values draws one slice per
    distinct present value of the column, the value under the name of the
    column and its number of occurrences under [count], the larger counts
    first; the counts add up to the number of present cells of the column.
    For a column named [count] the function raises: [reset_index] cannot
    put the values beside the counts, which have that name already. *)
Theorem pie_counts (df : DataFrame) (column : string) (xs : list (option string)) :
  NoDup (columns df) ->
  getitem df column = Ok (Object xs) ->
  (column <> "count" ->
  exists t : list (string * nat),
    create_pie_chart df column None
    = Ok (Pie [(column, Object (map (fun p => Some (fst p)) t)); ("count", counts_of t)]
              column "count" ("Distribuição de " ++ label column)) /\
    Permutation (map fst t) (dedup (dropna xs)) /\
    (forall v n, In (v, n) t -> n = count_str v (dropna xs)) /\
    StronglySorted (fun a b => snd b <= snd a) t /\
    list_sum (map snd t) = List.length (dropna xs)) /\
  (column = "count" -> create_pie_chart df column None = Raise ValueError).
Proof.
  intros _ Hs. split.
  2:{ intros ->. unfold create_pie_chart.
      rewrite (getitem_has_column _ _ _ Hs), Hs. reflexivity. }
  intros Hne. exists (value_counts (Object xs)).
  set (vals := dropna xs).
  set (raw := map (fun v => (v, count_str v vals)) (dedup vals)).
  set (leb := fun a b : string * nat => Nat.leb (snd b) (snd a)).
  assert (E : value_counts (Object xs) = sort_by leb raw) by reflexivity.
  assert (P : Permutation raw (sort_by leb raw)) by apply sort_by_perm.
  split; [|split; [|split; [|split]]].
  - unfold create_pie_chart. rewrite (getitem_has_column _ _ _ Hs), Hs. cbn [negb bind].
    rewrite reset_index_ok by (cbn; repeat constructor; cbn; intuition).
    reflexivity.
  - rewrite E, <- P. unfold raw. rewrite map_map. cbn [fst]. now rewrite map_id.
  - intros v n Hin. rewrite E in Hin.
    apply (Permutation_in _ (Permutation_sym P)) in Hin.
    unfold raw in Hin. apply in_map_iff in Hin as (v' & [= <- <-] & _). reflexivity.
  - rewrite E. apply (StronglySorted_impl (fun a b => leb a b = true)).
    + intros a b H. now apply Nat.leb_le.
    + apply sort_by_sorted.
      * intros a b. unfold leb. rewrite !Nat.leb_le. lia.
      * intros a b c. unfold leb. rewrite !Nat.leb_le. lia.
  - rewrite E, <- (list_sum_Permutation _ _ (Permutation_map snd P)).
    unfold raw. rewrite map_map. cbn [snd].
    apply sum_of_counts; [apply dedup_NoDup|].
    intros x Hx. now apply dedup_In.
Qed.

Lemma pie_counts_witness :
  exists t : list (string * nat),
    create_pie_chart fixture "uf" None
    = Ok (Pie [("uf", Object (map (fun p => Some (fst p)) t)); ("count", counts_of t)]
              "uf" "count" "Distribuição de UF") /\
    list_sum (map snd t) = 9.
Proof.
  assert (ND : NoDup (columns fixture)).
  { cbn. repeat constructor; cbn; intuition discriminate. }
  destruct (proj1 (pie_counts fixture "uf" _ ND eq_refl)) as (t & H1 & _ & _ & _ & H5);
    [discriminate|].
  exists t. split; [exact H1 | exact H5].
Defined.

(** *** The pie chart: sums *)











(** *** The heat map *)

Section HeatmapOutcomes.
Variable R : Type.
Variable corr : DataFrame -> list (list R).
Variable format_2f : R -> string.
Variable abs_above_half : R -> bool.

Lemma numeric_frame_rows (df : DataFrame) :
  uniform df ->
  let numeric_df :=
    filter (fun c => existsb (dtype_eqb (dtype_of (snd c))) [int64; float64]) df in
  uniform numeric_df /\ (numeric_df <> [] -> nrows numeric_df = nrows df).
Proof.
  intros U numeric_df.
  assert (Hin : forall c, In c numeric_df -> In c df).
  { intros c Hc. now apply filter_In in Hc. }
  assert (N : numeric_df <> [] -> nrows numeric_df = nrows df).
  { destruct numeric_df as [|[n s] l] eqn:E; [congruence|]. intros _.
    cbn. apply (U (n, s)). apply Hin. now left. }
  split; [|exact N].
  intros c Hc. rewrite N by (intros E; rewrite E in Hc; destruct Hc).
  apply U, Hin, Hc.
Qed.

Lemma length_annotations (m : list (list R)) :
  List.length
    (flat_map
       (fun ir : nat * list R =>
          map (fun jv : nat * R =>
                 mkannotation (fst jv) (fst ir) (format_2f (snd jv))
                              (if abs_above_half (snd jv) then "white" else "black"))
              (enumerate (snd ir)))
       (enumerate m))
  = list_sum (map (@List.length R) m).
Proof.
  unfold enumerate at 2. generalize 0 as k.
  induction m as [|row m IH]; intros k; [reflexivity|].
  cbn [List.length seq combine flat_map map list_sum fold_right snd].
  rewrite length_app, IH, length_map. unfold enumerate.
  rewrite length_combine, length_seq, Nat.min_id.
  reflexivity.
Qed.

Lemma In_enumerate {A : Type} (l : list A) (i : nat) (x : A) :
  In (i, x) (enumerate l) <-> nth_error l i = Some x.
Proof.
  unfold enumerate.
  assert (G : forall k, In (i, x) (combine (seq k (List.length l)) l)
                        <-> k <= i /\ nth_error l (i - k) = Some x).
  { induction l as [|y l IH]; intros k; cbn [List.length seq combine In].
    - split; [tauto|]. intros [_ H]. destruct (i - k); discriminate.
    - rewrite IH. split.
      + intros [[= <- <-]|[Hk H]].
        * split; [lia|]. now rewrite Nat.sub_diag.
        * split; [lia|]. replace (i - k) with (S (i - S k)) by lia. exact H.
      + intros [Hk H]. destruct (Nat.eq_dec k i) as [->|Hne].
        * left. rewrite Nat.sub_diag in H. cbn in H. congruence.
        * right. split; [lia|].
          replace (i - k) with (S (i - S k)) in H by lia. exact H. }
  rewrite G, Nat.sub_0_r. split; [tauto|]. split; [lia|assumption].
Qed.

Lemma In_annotations (m : list (list R)) (a : annotation) :
  In a (flat_map
          (fun ir : nat * list R =>
             map (fun jv : nat * R =>
                    mkannotation (fst jv) (fst ir) (format_2f (snd jv))
                                 (if abs_above_half (snd jv) then "white" else "black"))
                 (enumerate (snd ir)))
          (enumerate m))
  <-> annotates format_2f abs_above_half m a.
Proof.
  unfold annotates. rewrite in_flat_map. split.
  - intros ([i row] & Hi & Ha). apply in_map_iff in Ha as ([j v] & <- & Hj).
    apply In_enumerate in Hi. apply In_enumerate in Hj.
    exists i, j, row, v. cbn [fst snd] in *. auto.
  - intros (i & j & row & v & Hi & Hj & ->).
    exists (i, row). split; [now apply In_enumerate|].
    apply in_map_iff. exists (j, v). split; [reflexivity|now apply In_enumerate].
Qed.

Lemma frame_of_columns (df : DataFrame) (f : string * Series -> bool) :
  NoDup (columns df) ->
  map (fun col => (col, column df col)) (columns (filter f df)) = filter f df.
Proof.
  intros ND. unfold columns. rewrite map_map.
  rewrite <- (map_id (filter f df)) at 2.
  apply map_ext_in. intros [n s] Hin. cbn [fst].
  apply filter_In in Hin as [Hin _].
  unfold column. now rewrite (getitem_NoDup df n s ND Hin).
Qed.

Lemma column_of_filter (df : DataFrame) (f : string * Series -> bool) (col : string) :
  NoDup (columns df) ->
  has_column col (filter f df) = true ->
  column (filter f df) col = column df col.
Proof.
  intros ND H. apply has_column_getitem in H as [s Hs].
  unfold column. rewrite Hs.
  apply getitem_In, filter_In in Hs as [Hin _].
  now rewrite (getitem_NoDup df col s ND Hin).
Qed.

(** X23.  When a heat map is drawn: for a table with distinct column
    names whose columns have one length, [create_heatmap] returns the
    figure "Nenhuma coluna numérica válida para mapa de calor" when names
    are requested and none of them is a numeric column, the figure "Dados
    insuficientes para mapa de calor" when fewer than two columns are left
    to correlate or the table has no row, and otherwise the correlation
    matrix of the table made of the columns left, a requested name counting
    as often as it is listed, with the labels of these columns on both
    axes and exactly one annotation for each cell of this matrix: at the
    position of the cell, with the text of its value, white when the value
    is above one half in absolute value and black otherwise. *)
Theorem heatmap_outcomes (df : DataFrame) (requested : option (list string)) :
  NoDup (columns df) ->
  uniform df ->
  (forall c l, requested = Some (c :: l) -> heatmap_columns df requested = [] ->
     create_heatmap R corr format_2f abs_above_half df requested
     = Ok (NoHeatmap "Nenhuma coluna numérica válida para mapa de calor")) /\
  (heatmap_columns df requested <> [] \/ requested = None \/ requested = Some [] ->
   List.length (heatmap_columns df requested) < 2 \/ nrows df = 0 ->
     create_heatmap R corr format_2f abs_above_half df requested
     = Ok (NoHeatmap "Dados insuficientes para mapa de calor")) /\
  (2 <= List.length (heatmap_columns df requested) -> nrows df <> 0 ->
     exists a,
       create_heatmap R corr format_2f abs_above_half df requested
       = Ok (Imshow (corr (heatmap_frame df requested))
                    (map label (heatmap_columns df requested))
                    (map label (heatmap_columns df requested)) a) /\
       List.length a
       = list_sum (map (@List.length R) (corr (heatmap_frame df requested))) /\
       forall an,
         In an a <->
         annotates format_2f abs_above_half (corr (heatmap_frame df requested)) an).
Proof.
  intros ND U.
  set (numeric_df :=
         filter (fun c => existsb (dtype_eqb (dtype_of (snd c))) [int64; float64]) df).
  destruct (numeric_frame_rows df U) as [Un Nn]. fold numeric_df in Un, Nn.
  assert (Hsel : select_dtypes [int64; float64] df = columns numeric_df) by reflexivity.
  (* what the function does once the columns to correlate are known *)
  assert (Tail : forall sub : DataFrame,
             sub = heatmap_frame df requested ->
             (sub <> [] -> nrows sub = nrows df) ->
             (List.length (heatmap_columns df requested) < 2 \/ nrows df = 0 ->
              (if empty sub || (List.length (columns sub) <? 2)%nat
               then Ok (NoHeatmap "Dados insuficientes para mapa de calor")
               else
                 Ok (Imshow (corr sub) (map label (columns sub)) (map label (columns sub))
                       (flat_map
                          (fun ir : nat * list R =>
                             map (fun jv : nat * R =>
                                    mkannotation (fst jv) (fst ir) (format_2f (snd jv))
                                      (if abs_above_half (snd jv)
                                       then "white" else "black"))
                                 (enumerate (snd ir)))
                          (enumerate (corr sub)))))
              = Ok (NoHeatmap "Dados insuficientes para mapa de calor")) /\
             (2 <= List.length (heatmap_columns df requested) -> nrows df <> 0 ->
              exists a,
                (if empty sub || (List.length (columns sub) <? 2)%nat
                 then Ok (NoHeatmap "Dados insuficientes para mapa de calor")
                 else
                   Ok (Imshow (corr sub) (map label (columns sub))
                         (map label (columns sub))
                         (flat_map
                            (fun ir : nat * list R =>
                               map (fun jv : nat * R =>
                                      mkannotation (fst jv) (fst ir) (format_2f (snd jv))
                                        (if abs_above_half (snd jv)
                                         then "white" else "black"))
                                   (enumerate (snd ir)))
                            (enumerate (corr sub)))))
                = Ok (Imshow (corr (heatmap_frame df requested))
                        (map label (heatmap_columns df requested))
                        (map label (heatmap_columns df requested)) a) /\
                List.length a
                = list_sum (map (@List.length R) (corr (heatmap_frame df requested))) /\
                forall an,
                  In an a <->
                  annotates format_2f abs_above_half
                            (corr (heatmap_frame df requested)) an)).
  { intros sub Hs Hn.
    assert (Hc : columns sub = heatmap_columns df requested).
    { rewrite Hs. unfold heatmap_frame, columns. rewrite map_map. cbn [fst].
      apply map_id. }
    rewrite Hc. split.
    - intros [Hl|H0].
      + apply Nat.ltb_lt in Hl. rewrite Hl. now rewrite orb_true_r.
      + destruct sub as [|c sub'] eqn:E; [reflexivity|].
        unfold empty. rewrite Hn by discriminate. rewrite H0. reflexivity.
    - intros H2 H0.
      assert (Hl : (List.length (heatmap_columns df requested) <? 2)%nat = false)
        by (apply Nat.ltb_ge; exact H2).
      assert (Hne : sub <> []).
      { intros E. rewrite E in Hc. rewrite <- Hc in H2. cbn in H2. lia. }
      assert (He : empty sub = false).
      { destruct sub as [|c sub'] eqn:E; [congruence|].
        unfold empty. rewrite (Hn Hne). now apply Nat.eqb_neq. }
      rewrite He, Hl. cbn [orb]. rewrite <- Hc, Hs.
      eexists. split; [reflexivity|].
      split; [apply length_annotations | intros an; apply In_annotations]. }
  assert (Given : forall c l,
             requested = Some (c :: l) ->
             filter (fun col => has_column col numeric_df) (c :: l)
             = heatmap_columns df requested).
  { intros c l ->. unfold heatmap_columns. rewrite Hsel. reflexivity. }
  assert (Whole : requested = None \/ requested = Some [] ->
                  numeric_df = heatmap_frame df requested).
  { intros H. unfold heatmap_frame.
    replace (heatmap_columns df requested) with (columns numeric_df)
      by (destruct H as [->| ->]; reflexivity).
    symmetry. now apply frame_of_columns. }
  unfold create_heatmap. cbv zeta. fold numeric_df.
  destruct requested as [[|c l]|]; cbv beta iota.
  - (* an empty list of names *)
    split; [intros c l H; discriminate|].
    destruct (Tail numeric_df (Whole (or_intror eq_refl)) Nn) as [T1 T2].
    split; [intros _; exact T1 | exact T2].
  - (* names are given *)
    assert (Ev : heatmap_columns df (Some (c :: l))
                 = filter (fun col => has_column col numeric_df) (c :: l))
      by (symmetry; now apply Given).
    unfold heatmap_frame in *. rewrite Ev in *.
    assert (Hv : forall col,
               In col (filter (fun col => has_column col numeric_df) (c :: l)) ->
               has_column col numeric_df = true).
    { intros col Hcol. now apply filter_In in Hcol. }
    destruct (filter (fun col => has_column col numeric_df) (c :: l)) as [|v vs].
    + split; [reflexivity|]. split.
      * intros [H|[H|H]]; [congruence | discriminate | discriminate].
      * cbn. lia.
    + unfold getitems.
      pose proof (collect_columns numeric_df (fun col s => (col, s)) (v :: vs) [] Hv) as E.
      cbn beta in E. rewrite E. clear E. cbn [bind app].
      set (sub := map (fun col => (col, column numeric_df col)) (v :: vs)).
      assert (Hs : sub = map (fun col => (col, column df col)) (v :: vs)).
      { unfold sub. apply map_ext_in. intros col Hcol. f_equal.
        apply column_of_filter; [exact ND | now apply Hv]. }
      assert (Hn : sub <> [] -> nrows sub = nrows df).
      { intros _. unfold sub. cbn [map nrows].
        assert (Hg := column_getitem numeric_df v (Hv v (or_introl eq_refl))).
        rewrite (uniform_getitem _ _ _ Un Hg). apply Nn.
        intros En. rewrite En in Hg. discriminate. }
      destruct (Tail sub Hs Hn) as [T1 T2].
      split; [intros c' l' _ H; discriminate|].
      split; [intros _; exact T1 | exact T2].
  - (* no name is given *)
    split; [intros c l H; discriminate|].
    destruct (Tail numeric_df (Whole (or_introl eq_refl)) Nn) as [T1 T2].
    split; [intros _; exact T1 | exact T2].
Qed.

End HeatmapOutcomes.

Lemma heatmap_outcomes_witness :
  let corr := fun df : DataFrame => map (fun _ => map (fun _ => 1%Q) df) df in
  let format_2f := fun _ : Q => "1.00" in
  let abs_above_half := fun q : Q => negb (Qle_bool (Qabs q) (1 # 2)) in
  create_heatmap Q corr format_2f abs_above_half salaries (Some ["ano"])
  = Ok (NoHeatmap "Dados insuficientes para mapa de calor") /\
  exists a,
    create_heatmap Q corr format_2f abs_above_half salaries None
    = Ok (Imshow [[1; 1]; [1; 1]]%Q ["Ano"; "Salário"] ["Ano"; "Salário"] a) /\
    List.length a = 4 /\
    forall an, In an a <-> annotates format_2f abs_above_half [[1; 1]; [1; 1]]%Q an.
Proof.
  intros corr format_2f abs_above_half.
  assert (ND : NoDup (columns salaries)).
  { cbn. repeat constructor; cbn; intuition discriminate. }
  assert (U : uniform salaries).
  { intros c [<-|[<-|[]]]; reflexivity. }
  split.
  - apply (heatmap_outcomes Q corr format_2f abs_above_half
             salaries (Some ["ano"]) ND U).
    + left. discriminate.
    + left. cbn. lia.
  - apply (heatmap_outcomes Q corr format_2f abs_above_half salaries None ND U).
    + cbn. lia.
    + discriminate.
Defined.

(** *** The query of the loader *)

Lemma dict_get_put {V : Type} (d : list (string * V)) (k k' : string) (v : V) :
  dict_get (dict_put d k v) k' = if String.eqb k k' then Some v else dict_get d k'.
Proof.
  induction d as [|[k0 v0] d IH]; cbn; [reflexivity|].
  destruct (String.eqb k0 k) eqn:E; cbn.
  - apply String.eqb_eq in E. subst k0. now destruct (String.eqb k k').
  - rewrite IH. destruct (String.eqb k0 k') eqn:E'; [|reflexivity].
    apply String.eqb_eq in E'. subst k0. now rewrite String.eqb_sym, E.
Qed.

Lemma dict_get_absent {V : Type} (d : list (string * V)) (k : string) :
  ~ In k (map fst d) -> dict_get d k = None.
Proof.
  induction d as [|[k0 v0] d IH]; cbn; [reflexivity|]. intros H.
  destruct (String.eqb k0 k) eqn:E.
  - apply String.eqb_eq in E. exfalso. apply H. now left.
  - apply IH. intros Hin. apply H. now right.
Qed.

Lemma dict_get_update {V : Type} (items d : list (string * V)) (k : string) :
  NoDup (map fst items) ->
  dict_get (dict_update d items) k
  = match dict_get items k with
    | Some v => Some v
    | None => dict_get d k
    end.
Proof.
  unfold dict_update. revert d.
  induction items as [|[k0 v0] items IH]; intros d ND; cbn [fold_left dict_get fst snd].
  - reflexivity.
  - cbn in ND. apply NoDup_cons_iff in ND as [Hn ND]. rewrite (IH _ ND), dict_get_put.
    destruct (String.eqb k0 k) eqn:E.
    + apply String.eqb_eq in E. subst k0. now rewrite (dict_get_absent items k Hn).
    + reflexivity.
Qed.

Lemma dict_get_map {V W : Type} (f : V -> W) (d : list (string * V)) (k : string) :
  dict_get (map (fun kv => (fst kv, f (snd kv))) d) k = option_map f (dict_get d k).
Proof.
  induction d as [|[k0 v0] d IH]; cbn; [reflexivity|].
  destruct (String.eqb k0 k); [reflexivity | exact IH].
Qed.

Lemma keys_dict_put {V : Type} (d : list (string * V)) (k : string) (v : V) :
  map fst (dict_put d k v)
  = if existsb (String.eqb k) (map fst d) then map fst d else map fst d ++ [k].
Proof.
  induction d as [|[k0 v0] d IH]; cbn; [reflexivity|].
  rewrite (String.eqb_sym k k0). destruct (String.eqb k0 k); cbn; [reflexivity|].
  rewrite IH. now destruct (existsb (String.eqb k) (map fst d)).
Qed.

Lemma NoDup_dict_put {V : Type} (d : list (string * V)) (k : string) (v : V) :
  NoDup (map fst d) -> NoDup (map fst (dict_put d k v)).
Proof.
  intros ND. rewrite keys_dict_put.
  destruct (existsb (String.eqb k) (map fst d)) eqn:E; [exact ND|].
  apply NoDup_app; [exact ND | repeat constructor; intros [] |].
  intros x Hx [<-|[]].
  assert (existsb (String.eqb k) (map fst d) = true).
  { apply existsb_exists. exists k. split; [exact Hx | apply String.eqb_refl]. }
  congruence.
Qed.

Lemma NoDup_dict_update {V : Type} (items d : list (string * V)) :
  NoDup (map fst d) -> NoDup (map fst (dict_update d items)).
Proof.
  unfold dict_update. revert d. induction items as [|[k v] items IH]; intros d ND; cbn.
  - exact ND.
  - apply IH. now apply NoDup_dict_put.
Qed.

Lemma head_dict_put {V : Type} (d : list (string * V)) (k0 k : string) (v0 v : V) :
  exists v' rest, dict_put ((k0, v0) :: d) k v = (k0, v') :: rest.
Proof. cbn. destruct (String.eqb k0 k); eauto. Qed.

Lemma head_dict_update {V : Type} (items d : list (string * V)) (k0 : string) (v0 : V) :
  exists v' rest, dict_update ((k0, v0) :: d) items = (k0, v') :: rest.
Proof.
  unfold dict_update. revert d v0.
  induction items as [|[k v] items IH]; intros d v0; cbn [fold_left fst snd].
  - eauto.
  - destruct (head_dict_put d k0 k v0 v) as (v' & rest & ->). apply IH.
Qed.

(** X24.  Which filter wins: the year and the month are written first
    and the entries of the location and of the other filters are written
    over them, so that for dicts [location] and [filters] the value of a
    key in the query is the one in [filters], else the one in [location],
    else the month under [mes] and the year under [ano]; every key has one
    clause, and the first clause is the one of [ano]. *)
Theorem query_filters_precedence (year : int_or_list) (month : option int_or_list)
        (location : list (string * string)) (filters : list (string * qvalue)) :
  NoDup (map fst location) ->
  NoDup (map fst filters) ->
  (forall k,
      dict_get (query_filters year month location filters) k
      = match dict_get filters k with
        | Some v => Some v
        | None =>
            match dict_get location k with
            | Some s => Some (Single (AStr s))
            | None =>
                if String.eqb k "mes" then option_map value_of month
                else if String.eqb k "ano" then Some (value_of year)
                else None
            end
        end) /\
  NoDup (map fst (query_filters year month location filters)) /\
  exists v rest, query_filters year month location filters = ("ano", v) :: rest.
Proof.
  intros NDl NDf. unfold query_filters.
  set (base := match month with
               | Some m => dict_put (dict_put [] "ano" (value_of year)) "mes" (value_of m)
               | None => dict_put [] "ano" (value_of year)
               end).
  set (loc := map (fun kv : string * string => (fst kv, Single (AStr (snd kv)))) location).
  assert (Kl : map fst loc = map fst location).
  { unfold loc. rewrite map_map. reflexivity. }
  assert (Gl : forall k, dict_get loc k = option_map (fun s => Single (AStr s))
                                                     (dict_get location k)).
  { intros k. unfold loc.
    exact (dict_get_map (fun s => Single (AStr s)) location k). }
  assert (Gb : forall k, dict_get base k
                         = if String.eqb k "mes" then option_map value_of month
                           else if String.eqb k "ano" then Some (value_of year)
                           else None).
  { intros k. unfold base. destruct month as [m|].
    - rewrite !dict_get_put. cbn [dict_get].
      rewrite (String.eqb_sym "mes" k), (String.eqb_sym "ano" k). reflexivity.
    - rewrite dict_get_put. cbn [dict_get option_map].
      rewrite (String.eqb_sym "ano" k).
      destruct (String.eqb k "mes") eqn:E; [|reflexivity].
      apply String.eqb_eq in E. now subst k. }
  assert (NDb : NoDup (map fst base)).
  { unfold base. destruct month; repeat apply NoDup_dict_put; constructor. }
  assert (Hb : exists v rest, base = ("ano", v) :: rest).
  { unfold base. destruct month; cbn; eauto. }
  split; [|split].
  - intros k. rewrite (dict_get_update filters _ k NDf).
    destruct (dict_get filters k); [reflexivity|].
    rewrite (dict_get_update loc base k) by now rewrite Kl.
    rewrite Gl, Gb. now destruct (dict_get location k).
  - now apply NoDup_dict_update, NoDup_dict_update.
  - destruct Hb as (v & rest & ->).
    destruct (head_dict_update loc rest "ano" v) as (v1 & rest1 & ->).
    apply head_dict_update.
Qed.

Lemma query_filters_precedence_witness :
  dict_get (query_filters (One 2021) (Some (One 3)) [("uf", "SP")]
                          [("ano", Single (AInt 2020))]) "ano"
  = Some (Single (AInt 2020)) /\
  dict_get (query_filters (One 2021) (Some (One 3)) [("uf", "SP")]
                          [("ano", Single (AInt 2020))]) "uf"
  = Some (Single (AStr "SP")).
Proof.
  assert (NDl : NoDup (map fst [("uf", "SP")])).
  { cbn. repeat constructor; cbn; intuition discriminate. }
  assert (NDf : NoDup (map fst [("ano", Single (AInt 2020))])).
  { cbn. repeat constructor; cbn; intuition discriminate. }
  destruct (query_filters_precedence (One 2021) (Some (One 3)) [("uf", "SP")]
              [("ano", Single (AInt 2020))] NDl NDf) as (H & _ & _).
  split; [exact (H "ano") | exact (H "uf")].
Defined.

Lemma append_assoc (a b c : string) : ((a ++ b) ++ c = a ++ b ++ c)%string.
Proof. induction a as [|x a IH]; cbn; [reflexivity | now rewrite IH]. Qed.

Lemma append_empty (a : string) : (a ++ "" = a)%string.
Proof. induction a as [|x a IH]; cbn; [reflexivity | now rewrite IH]. Qed.

(** X25.  The text of the query: it is the [SELECT] of the whole table,
    then always a [WHERE] part with one clause per key of the filters
    joined by [AND], the clause of the year first, then the [LIMIT] part;
    a limit of [0] is no limit at all, so that the query is the one sent
    for no limit. *)
Theorem caged_query_text (year : int_or_list) (month : option int_or_list)
        (location : list (string * string)) (filters : list (string * qvalue))
        (limit : option Z) :
  caged_query year month location filters limit
  = (base_query ++ " WHERE "
       ++ join " AND " (map where_clause (query_filters year month location filters))
       ++ limit_clause limit)%string /\
  caged_query year month location filters (Some 0%Z)
  = caged_query year month location filters None.
Proof.
  split; [|reflexivity]. unfold caged_query.
  assert (H : exists v rest, query_filters year month location filters = ("ano", v) :: rest).
  { unfold query_filters.
    set (base := match month with
                 | Some m => dict_put (dict_put [] "ano" (value_of year)) "mes" (value_of m)
                 | None => dict_put [] "ano" (value_of year)
                 end).
    assert (Hb : exists v rest, base = ("ano", v) :: rest).
    { unfold base. destruct month; cbn; eauto. }
    destruct Hb as (v & rest & ->).
    destruct (head_dict_update
                (map (fun kv : string * string => (fst kv, Single (AStr (snd kv)))) location)
                rest "ano" v) as (v1 & rest1 & ->).
    apply head_dict_update. }
  destruct H as (v & rest & ->). unfold limit_clause.
  destruct limit as [l|].
  - destruct (Z.eqb l 0).
    + now rewrite append_empty.
    + now rewrite !append_assoc.
  - now rewrite append_empty.
Qed.

(** *** The sample data *)

(** X26.  The fallback sample goes through the pipeline: when the query
    for the sample fails, [load_sample_data] returns the table of
    [_create_mock_data], and [process_data] returns on it a table of 50
    rows and 18 columns in which no value is missing except in
    [tipo_movimentacao_desc], missing in the 35 rows whose movement code,
    from 4 to 10, is not in the lookup table. *)
Theorem sample_fallback (read_sql : string -> result DataFrame) (e : exn) :
  read_sql sample_query = Raise e ->
  load_sample_data read_sql = _create_mock_data /\
  exists out desc,
    process_data (load_sample_data read_sql) = Ok out /\
    nrows out = 50 /\
    List.length (columns out) = 18 /\
    complete_except "tipo_movimentacao_desc" out = true /\
    getitem out "tipo_movimentacao_desc" = Ok desc /\
    isnull_sum desc = 35.
Proof.
  intros H. unfold load_sample_data. rewrite H. split; [reflexivity|].
  assert (P : match process_data _create_mock_data with
              | Ok out =>
                  match getitem out "tipo_movimentacao_desc" with
                  | Ok desc =>
                      Nat.eqb (nrows out) 50 && Nat.eqb (List.length (columns out)) 18
                      && complete_except "tipo_movimentacao_desc" out
                      && Nat.eqb (isnull_sum desc) 35
                  | Raise _ => false
                  end
              | Raise _ => false
              end = true) by (vm_compute; reflexivity).
  destruct (process_data _create_mock_data) as [out|]; [|discriminate].
  destruct (getitem out "tipo_movimentacao_desc") as [desc|] eqn:E; [|discriminate].
  apply andb_prop in P as [P P4]. apply andb_prop in P as [P P3].
  apply andb_prop in P as [P1 P2].
  exists out, desc. split; [reflexivity|].
  split; [now apply Nat.eqb_eq|]. split; [now apply Nat.eqb_eq|].
  split; [exact P3|]. split; [exact E | now apply Nat.eqb_eq].
Qed.

Lemma sample_fallback_witness :
  load_sample_data (fun _ => Raise ValueError) = _create_mock_data /\
  exists out desc,
    process_data (load_sample_data (fun _ => Raise ValueError)) = Ok out /\
    nrows out = 50 /\
    List.length (columns out) = 18 /\
    complete_except "tipo_movimentacao_desc" out = true /\
    getitem out "tipo_movimentacao_desc" = Ok desc /\
    isnull_sum desc = 35.
Proof. exact (sample_fallback (fun _ => Raise ValueError) ValueError eq_refl). Defined.

(** *** The page: what the session can hold *)

Lemma empty_false (df : DataFrame) :
  empty df = false <-> df <> [] /\ nrows df <> 0.
Proof.
  destruct df as [|c df]; cbn [empty].
  - split; [discriminate | intros [H _]; congruence].
  - rewrite Nat.eqb_neq. split; [intros H; split; [discriminate | exact H] | tauto].
Qed.

(** A table with rows keeps them through the pipeline. *)
Lemma processed_not_empty (df out : DataFrame) :
  NoDup (columns df) -> uniform df ->
  empty df = false -> process_data df = Ok out -> empty out = false.
Proof.
  intros ND U He H. apply empty_false in He as [Hne Hn]. apply empty_false.
  rewrite process_data_steps in H.
  rewrite (handle_missing_values_columns df ND) in H.
  destruct (map_result impute_column df) as [h|] eqn:E; cbn [bind] in H; [|discriminate].
  destruct (same_shape_rows df h (imputed_shape df h E) U) as (Uh & Nh & Ch).
  destruct (run_steps_rows enrichment h out enrichment_keeps_length Uh H) as [_ No].
  destruct (run_steps_prefix enrichment h out H) as (added & Hc & _).
  split; [|congruence].
  intros ->. rewrite Ch in Hc. destruct df; [congruence | discriminate].
Qed.

(** X27.  The warning for a table without rows is never shown: when
    the tables that come back from the data source have distinct column
    names and columns of one length, every session that the page can reach
    by loading and clearing holds no table or a processed table with rows,
    so that the page shows the data or the prompt to load, and never the
    warning that the filters returned no data. *)
Theorem page_never_warns (read_sql : string -> result DataFrame) (st : session) :
  (forall q df, read_sql q = Ok df -> NoDup (columns df) /\ uniform df) ->
  reachable read_sql st ->
  body st <> NoRowsWarning /\
  (forall df, st = Some df -> empty df = false).
Proof.
  intros Hsql R.
  assert (Inv : forall df, st = Some df -> empty df = false).
  { induction R as [|st st' R IH Hrun]; [discriminate|].
    destruct Hrun as [i st st' Hl|i st e Hl|st|st]; try exact IH; [|discriminate].
    unfold load_data in Hl.
    destruct (empty (load_request read_sql i)) eqn:He; cbn [negb] in Hl.
    - injection Hl as <-. discriminate.
    - destruct (process_data (load_request read_sql i)) as [p|] eqn:Hp; cbn [bind] in Hl;
        [|discriminate].
      injection Hl as <-. intros df [= <-].
      assert (W : NoDup (columns (load_request read_sql i))
                  /\ uniform (load_request read_sql i)).
      { unfold load_request, load_caged_data in *.
        match goal with
        | |- context [read_sql ?q] => destruct (read_sql q) as [d|] eqn:Eq
        end.
        - exact (Hsql _ _ Eq).
        - discriminate He. }
      destruct W as [ND U].
      exact (processed_not_empty _ _ ND U He Hp). }
  split; [|exact Inv].
  unfold body. destruct st as [df|]; [|discriminate].
  rewrite (Inv df eq_refl). discriminate.
Qed.

Lemma page_never_warns_witness :
  body (Some twice_output) <> NoRowsWarning /\
  (forall df, Some twice_output = Some df -> empty df = false).
Proof.
  apply (page_never_warns (fun _ => Ok twice_input)).
  - intros q df [= <-]. split.
    + cbn. repeat constructor; cbn; intuition discriminate.
    + intros c Hc. cbn in Hc.
      repeat (destruct Hc as [<-|Hc]; [reflexivity|]). destruct Hc.
  - apply (reachable_run _ None); [constructor|].
    apply (run_load _ (mkinputs 2021 "Todos" "Todos" 1000)). reflexivity.
Defined.
